(** * Calendar event pagination and the IMAP mail-import wizard

    A shallow embedding of

    - [packages/shared/lib/calendar/api.ts]
      ([getPaginatedEventsByUID], [reformatApiErrorMessage]), and
    - [packages/activation/mail/modals/ImportMailModal.tsx]
      (the comparator [destinationFoldersFirst], the provider defaults,
      the wizard model and its handlers),

    followed by the properties of these functions.

    Conventions.  A JavaScript [number] that the code only uses as an integer
    (page numbers, error codes) is a [Z]; a [number] that comes out of
    [parseInt] is a [JsNumber], with the rounding of large integers and the
    values [NaN] and [Infinity].  A JavaScript string is a [string]: a sequence of
    code units, here the code units 0..255.  An [async] function is a
    computation that either returns or throws; the requests it sends are
    recorded in the order in which they are sent. *)

From Stdlib Require Import ZArith List String Ascii Bool Lia.
From Stdlib Require Import Permutation Sorted DecimalString.
From Equations Require Import Equations.
From Stdlib Require DecimalPos.
Import ListNotations.

Local Open Scope string_scope.
Local Open Scope list_scope.
Local Open Scope Z_scope.

(** ** JavaScript primitives used by the two files *)

Module JS.

(** [String.prototype.toLowerCase] on one code unit of the range 0..255:
    [A]-[Z] and the Latin-1 capitals U+00C0..U+00DE (without the
    multiplication sign U+00D7) move 32 places up, every other unit is
    kept.  On this range the conversion never changes the length. *)
Definition toLowerCaseUnit (c : ascii) : ascii :=
  let n := N_of_ascii c in
  if ((65 <=? n) && (n <=? 90))%N
     || ((192 <=? n) && (n <=? 222) && negb (n =? 215))%N
  then ascii_of_N (n + 32)
  else c.

Fixpoint toLowerCase (s : string) : string :=
  match s with
  | EmptyString => EmptyString
  | String c rest => String (toLowerCaseUnit c) (toLowerCase rest)
  end.

(** [s.endsWith(suffix)]: the last [length suffix] units of [s] are
    [suffix]. *)
Definition endsWith (s suffix : string) : bool :=
  let n := String.length s in
  let k := String.length suffix in
  (k <=? n)%nat && String.eqb (substring (n - k) k s) suffix.

(** The relative index of [slice]: a negative index counts from the end,
    and the result is clamped to [0 .. len]. *)
Definition relativeIndex (len i : Z) : Z :=
  if i <? 0 then Z.max (len + i) 0 else Z.min i len.

(** [s.slice(start, end)]. *)
Definition slice (s : string) (start end_ : Z) : string :=
  let len := Z.of_nat (String.length s) in
  let from := relativeIndex len start in
  let to := relativeIndex len end_ in
  substring (Z.to_nat from) (Z.to_nat (Z.max (to - from) 0)) s.

(** Truthiness of a string ([''] is falsy) and of an optional string
    ([undefined] is falsy). *)
Definition truthy (s : string) : bool :=
  negb (String.eqb s "").

Definition truthyOpt (o : option string) : bool :=
  match o with
  | Some s => truthy s
  | None => false
  end.

(** [a || b] on strings. *)
Definition orElse (a b : string) : string :=
  if truthy a then a else b.

(** [a?.field || b] where [a] may be [undefined]. *)
Definition optOrElse (a : option string) (b : string) : string :=
  match a with
  | Some s => orElse s b
  | None => b
  end.

(** A [number] that holds no fraction: [NaN], a finite integer, or an
    infinity.  A finite [number] is a double: every integer below 2^53 in
    magnitude is one, and beyond that the integers with at most 53
    significant bits, below 2^1024. *)
Inductive JsNumber : Type :=
| NaN
| Num (z : Z)
| Infinity (negative : bool).

(** The [number] for the mathematical integer [z]: [z] itself below 2^53;
    beyond, the nearest integer with 53 significant bits, the even one of
    two that are equally near; an infinity once that reaches 2^1024. *)
Definition toNumber (z : Z) : JsNumber :=
  let a := Z.abs z in
  if a <? 2 ^ 53 then Num z
  else
    let shift := Z.log2 a - 52 in
    let q := Z.shiftr a shift in
    let rest := a - Z.shiftl q shift in
    let half := Z.shiftl 1 (shift - 1) in
    let q' :=
      if (half <? rest) || ((rest =? half) && Z.odd q) then q + 1 else q in
    let r := Z.shiftl q' shift in
    if 2 ^ 1024 <=? r then Infinity (z <? 0)
    else Num (if z <? 0 then - r else r).

(** The [number] is the finite integer [x]. *)
Definition isNum (n : JsNumber) (x : Z) : bool :=
  match n with
  | Num y => y =? x
  | _ => false
  end.

Definition isWhiteSpace (c : ascii) : bool :=
  let n := N_of_ascii c in
  ((n =? 9) || (n =? 10) || (n =? 11) || (n =? 12) || (n =? 13)
   || (n =? 32) || (n =? 160))%N.

Fixpoint trimStart (s : string) : string :=
  match s with
  | String c rest => if isWhiteSpace c then trimStart rest else s
  | EmptyString => EmptyString
  end.

Definition digitValue (c : ascii) : option Z :=
  let n := N_of_ascii c in
  if ((48 <=? n) && (n <=? 57))%N then Some (Z.of_N (n - 48)) else None.

(** The longest prefix of decimal digits, read as a number; [None] when
    the string does not start with a digit. *)
Fixpoint digitsPrefix (acc : option Z) (s : string) : option Z :=
  match s with
  | EmptyString => acc
  | String c rest =>
      match digitValue c with
      | Some d =>
          digitsPrefix
            (Some (10 * match acc with Some a => a | None => 0 end + d)) rest
      | None => acc
      end
  end.

(** [parseInt(s, 10)]: leading white space and one sign are skipped, the
    digits that follow are read, and [NaN] results if there is none.  The
    result is the [number] for the integer read.  (Past the 20th
    significant digit the language lets an engine read zeros instead; the
    engines read every digit, as is done here.) *)
Definition parseInt10 (s : string) : JsNumber :=
  let t := trimStart s in
  let '(negative, body) :=
    match t with
    | String "-" rest => (true, rest)
    | String "+" rest => (false, rest)
    | _ => (false, t)
    end in
  match digitsPrefix None body with
  | Some v => toNumber (if negative then - v else v)
  | None => NaN
  end.

(** The decimal numeral of an integer. *)
Definition decimal (z : Z) : string :=
  NilZero.string_of_int (Z.to_int z).

Definition digitCount (x : Z) : Z :=
  Z.of_nat (String.length (decimal x)).

(** The two multiples of [10^e] around [x], the nearer one first (of two
    equally near the one with the even quotient). *)
Definition multiplesAround (x e : Z) : list Z :=
  let p := 10 ^ e in
  let s := x / p in
  let r := x mod p in
  if (p <? 2 * r) || ((2 * r =? p) && Z.odd s)
  then [(s + 1) * p; s * p]
  else [s * p; (s + 1) * p].

(** [Number::toString] prints a [number] [x] with the fewest significant
    digits that still denote [x] and no other [number], and of several such
    numerals the one nearest to [x]: the integer found here, for [x] from
    2^53 on, has [k] significant digits for the least [k] possible (17
    always suffice). *)
Definition shortest (x : Z) : Z :=
  let n := digitCount x in
  let candidates :=
    flat_map (fun k => multiplesAround x (Z.max 0 (n - Z.of_nat k)))
             (seq 1 17) in
  match find (fun v => isNum (toNumber v) x) candidates with
  | Some v => v
  | None => x
  end.

Fixpoint dropTrailingZeros (s : string) : string :=
  match s with
  | EmptyString => EmptyString
  | String c rest =>
      match dropTrailingZeros rest with
      | EmptyString =>
          if Ascii.eqb c "0" then EmptyString else String c EmptyString
      | significant => String c significant
      end
  end.

(** The exponential notation of a positive integer [v] of more than 21
    digits: [d.ddde+n]. *)
Definition exponential (v : Z) : string :=
  let exponent := decimal (digitCount v - 1) in
  match dropTrailingZeros (decimal v) with
  | String c EmptyString => String c ("e+" ++ exponent)%string
  | String c more => String c ("." ++ more ++ "e+" ++ exponent)%string
  | EmptyString => "0"
  end.

(** The template literal [`${n}`], which is [Number::toString].  An
    integer below 2^53 is printed in full (no shorter numeral denotes it);
    a larger one with its shortest numeral, filled up with zeros, and in
    exponential notation from 10^21 on. *)
Definition numberToString (n : JsNumber) : string :=
  match n with
  | NaN => "NaN"
  | Infinity negative => if negative then "-Infinity" else "Infinity"
  | Num z =>
      if Z.abs z <? 2 ^ 53 then decimal z
      else
        let v := shortest (Z.abs z) in
        let sign := if z <? 0 then "-" else "" in
        let numeral :=
          if digitCount v <=? 21 then decimal v else exponential v in
        (sign ++ numeral)%string
  end.

(** The outcome of awaiting a promise: it is fulfilled with a value or
    rejected with what was thrown. *)
Inductive Completion (E A : Type) : Type :=
| Returned (a : A)
| Thrown (e : E).
Arguments Returned {E A} a.
Arguments Thrown {E A} e.

End JS.

(** ** [packages/shared/lib/calendar/api.ts] *)

Module CalendarApi.
Import JS.

Definition MAX_ITERATIONS : Z := 100.

(** The default of the destructured parameter [max = MAX_ITERATIONS]; a cap
    that is passed is taken to be integer-valued. *)
Definition maxOrDefault (max : option Z) : Z :=
  match max with
  | Some m => m
  | None => MAX_ITERATIONS
  end.

Section Pagination.
(** The event type, the calendar-type enumeration and the values the api
    function rejects with are declared outside these files; the
    pagination treats them as opaque. *)
Variables (CalendarEvent CALENDAR_TYPE ApiError : Type).

(** [GetEventByUIDArguments], with the fields the function fills in. *)
Record GetEventByUIDArguments : Type := {
  UID : string;
  RecurrenceID : option Z;
  Page : Z;
  PageSize : Z;
  CalendarType : option CALENDAR_TYPE
}.

(** [api(getEventByUID(params))]: the server's answer to one page
    request, either a rejection or a body [{ Events }].  Within one call
    the requests differ in [Page], so a function of the parameters
    describes an arbitrary sequence of answers. *)
Record EventsPage : Type := { Events : list CalendarEvent }.

Definition Api : Type :=
  GetEventByUIDArguments -> Completion ApiError EventsPage.

(** What one call does: its completion and the page requests it sent, in
    order. *)
Record Run : Type := {
  completion : Completion ApiError (list CalendarEvent);
  requests : list GetEventByUIDArguments
}.

Definition pageSize : Z := 100.

(** The parameters of the request for page [pageNumber]: [CalendarType]
    is only set when [calendarType !== undefined]. *)
Definition pageParams (uid : string) (recurrenceID : option Z)
           (calendarType : option CALENDAR_TYPE) (pageNumber : Z)
  : GetEventByUIDArguments :=
  {| UID := uid;
     RecurrenceID := recurrenceID;
     Page := pageNumber;
     PageSize := pageSize;
     CalendarType := calendarType |}.

(** The [while (pageNumber < max)] loop, entered with the current
    [pageNumber], [result] and the requests already sent. *)
Equations? paginate (api : Api) (uid : string) (recurrenceID : option Z)
           (calendarType : option CALENDAR_TYPE) (max_ : Z)
           (pageNumber : Z) (result : list CalendarEvent)
           (sent : list GetEventByUIDArguments)
  : Run by wf (Z.to_nat (max_ - pageNumber)) lt :=
  paginate api uid recurrenceID calendarType max_ pageNumber result sent
    with Z_lt_dec pageNumber max_ => {
    | right _ := {| completion := Returned result; requests := sent |}
    | left _
        with api (pageParams uid recurrenceID calendarType pageNumber) => {
        | Thrown e :=
            {| completion := Thrown e;
               requests :=
                 sent ++ [pageParams uid recurrenceID calendarType
                                     pageNumber] |}
        | Returned page :=
            if negb (Z.of_nat (List.length (Events page)) =? pageSize)
            then
              {| completion := Returned (result ++ Events page);
                 requests :=
                   sent ++ [pageParams uid recurrenceID calendarType
                                       pageNumber] |}
            else
              paginate api uid recurrenceID calendarType max_
                       (pageNumber + 1) (result ++ Events page)
                       (sent ++ [pageParams uid recurrenceID calendarType
                                            pageNumber]) } }.
Proof. lia. Qed.

(** [getPaginatedEventsByUID({ api, uid, recurrenceID, max, calendarType })];
    [max] defaults to [MAX_ITERATIONS] when it is left out.  A cap that is
    passed is an integer here: fractions and [Infinity], which the type
    [number] also holds, are not covered. *)
Definition getPaginatedEventsByUID (api : Api) (uid : string)
           (recurrenceID : option Z) (max : option Z)
           (calendarType : option CALENDAR_TYPE) : Run :=
  paginate api uid recurrenceID calendarType (maxOrDefault max) 0 [] [].

End Pagination.

Arguments UID {CALENDAR_TYPE} _.
Arguments RecurrenceID {CALENDAR_TYPE} _.
Arguments Page {CALENDAR_TYPE} _.
Arguments PageSize {CALENDAR_TYPE} _.
Arguments CalendarType {CALENDAR_TYPE} _.
Arguments Events {CalendarEvent} _.
Arguments Build_EventsPage {CalendarEvent} _.
Arguments completion {CalendarEvent CALENDAR_TYPE ApiError} _.
Arguments requests {CalendarEvent CALENDAR_TYPE ApiError} _.
Arguments pageParams {CALENDAR_TYPE} _ _ _ _.
Arguments paginate {CalendarEvent CALENDAR_TYPE ApiError} _ _ _ _ _ _ _ _.
Arguments getPaginatedEventsByUID {CalendarEvent CALENDAR_TYPE ApiError}
  _ _ _ _ _.

Definition suffixToDrop : string := ". please try again".

(** [reformatApiErrorMessage]. *)
Definition reformatApiErrorMessage (message : string) : string :=
  if endsWith (toLowerCase message) suffixToDrop
  then slice message 0 (-18)
  else message.

End CalendarApi.

(** ** [packages/activation/mail/modals/ImportMailModal.tsx] *)

Module ImportMail.
Import JS.

(** *** Interfaces the modal imports

    The enumerations and interfaces below are declared in
    [@proton/activation/interface] and [../interfaces]; they are given here
    with the members and fields the modal reads or writes. *)

Inductive MailImportStep : Type := START | PREPARE | STARTED.

Inductive NON_OAUTH_PROVIDER : Type := YAHOO | OUTLOOK | DEFAULT.

Inductive AuthenticationMethod : Type := PLAIN | OAUTH.

Inductive ImportType : Type := MAIL | CALENDAR | CONTACTS.

Inductive TIME_PERIOD : Type :=
| BIG_BANG | LAST_YEAR | LAST_3_MONTHS | LAST_MONTH.

(** One remote folder.  The comparator reads [Source] and
    [DestinationFolder] only. *)
Module ImportedMailFolder.
Record t : Type := {
  Source : string;
  DestinationFolder : option string;
  checked : bool;
  Destinations : list string
}.
End ImportedMailFolder.

Module MailImportMapping.
Record t : Type := {
  Source : string;
  Destinations : list string;
  checked : bool
}.
End MailImportMapping.

(** [interface ImporterFromServer]. *)
Module Importer.
Record t : Type := {
  Email : string;
  ID : string;
  ImapHost : string;
  ImapPort : JsNumber;
  Sasl : AuthenticationMethod
}.
End Importer.

(** [NormalizedImporter], the import handed over in reconnect mode. *)
Module NormalizedImporter.
Record t : Type := {
  ID : string;
  Email : string;
  ImapHost : string;
  ImapPort : string
}.
End NormalizedImporter.

Module Address.
Record t : Type := { ID : string }.
End Address.

Record User : Type := { isFree : bool }.

Record Props : Type := {
  currentImport : option NormalizedImporter.t;
  addresses : list Address.t;
  provider : option NON_OAUTH_PROVIDER
}.

Module Payload.
Record t : Type := {
  AddressID : string;
  Mapping : list MailImportMapping.t;
  CustomFields : Z;
  StartTime : option Z
}.
End Payload.

(** [ImportMailModalModel], the wizard state. *)
Record ImportMailModalModel : Type := {
  step : MailImportStep;
  importID : string;
  email : string;
  password : string;
  imap : string;
  port : string;
  errorCode : Z;
  errorLabel : string;
  providerFolders : list ImportedMailFolder.t;
  selectedPeriod : TIME_PERIOD;
  payload : Payload.t;
  isPayloadInvalid : bool
}.

(** The [IMPORT_ERROR] codes the modal names. *)
Record ImportErrorCodes : Type := {
  AUTHENTICATION_ERROR : Z;
  IMAP_CONNECTION_ERROR : Z;
  RATE_LIMIT_EXCEEDED : Z
}.

(** Constants and helpers imported from [../../constants],
    [@proton/activation/interface], [@proton/shared/lib/helpers/email] and
    [../helpers]; their values are not fixed here. *)
Record Constants : Type := {
  IMAPS : NON_OAUTH_PROVIDER -> string;
  PORTS : NON_OAUTH_PROVIDER -> string;
  IMPORT_ERROR : ImportErrorCodes;
  validateEmailAddress : string -> bool;
  dateToTimestamp : Z -> Z
}.

(** *** The folder comparator and [Array.prototype.sort] *)

Definition stepEqb (a b : MailImportStep) : bool :=
  match a, b with
  | START, START | PREPARE, PREPARE | STARTED, STARTED => true
  | _, _ => false
  end.

Definition hasDestination (f : ImportedMailFolder.t) : bool :=
  truthyOpt (ImportedMailFolder.DestinationFolder f).

Definition destinationFoldersFirst (a b : ImportedMailFolder.t) : Z :=
  if hasDestination a && hasDestination b then 0
  else if hasDestination a && negb (hasDestination b) then -1
  else if negb (hasDestination a) && hasDestination b then 1
  else if String.ltb (ImportedMailFolder.Source a)
                     (ImportedMailFolder.Source b) then -1
  else if String.ltb (ImportedMailFolder.Source b)
                     (ImportedMailFolder.Source a) then 1
  else 0.

Section ArraySort.
Context {A : Type} (comparefn : A -> A -> Z).

(** [x] goes in front of the first element it does not come after. *)
Fixpoint insertSorted (x : A) (l : list A) : list A :=
  match l with
  | [] => [x]
  | y :: rest =>
      if comparefn x y <=? 0 then x :: y :: rest
      else y :: insertSorted x rest
  end.

(** [array.sort(comparefn)].  The language only fixes that the sort is
    stable and orders the array when [comparefn] is consistent; a stable
    insertion sort stands for it. *)
Fixpoint sort (l : list A) : list A :=
  match l with
  | [] => []
  | x :: rest => insertSorted x (sort rest)
  end.
End ArraySort.

(** *** Provider defaults and the initial state *)

Section Defaults.
Context (K : Constants).

Definition getDefaultImap (provider : option NON_OAUTH_PROVIDER) : string :=
  match provider with
  | Some OUTLOOK => IMAPS K OUTLOOK
  | Some YAHOO => IMAPS K YAHOO
  | _ => ""
  end.

Definition getDefaultPort (provider : option NON_OAUTH_PROVIDER) : string :=
  match provider with
  | Some OUTLOOK => PORTS K OUTLOOK
  | Some YAHOO => PORTS K YAHOO
  | _ => ""
  end.

Definition isReconnectMode (props : Props) : bool :=
  match currentImport props with
  | Some _ => true
  | None => false
  end.

(** The argument of [useState].  [addresses[0].ID] throws on an empty
    array, in which case there is no initial state. *)
Definition initialModalModel (user : User) (props : Props)
  : option ImportMailModalModel :=
  let defaultPeriod := if isFree user then LAST_3_MONTHS else BIG_BANG in
  match addresses props with
  | [] => None
  | first :: _ =>
      Some
        {| step := START;
           importID :=
             optOrElse
               (option_map NormalizedImporter.ID (currentImport props)) "";
           email :=
             optOrElse
               (option_map NormalizedImporter.Email (currentImport props))
               "";
           password := "";
           imap :=
             optOrElse
               (option_map NormalizedImporter.ImapHost
                  (currentImport props))
               (getDefaultImap (provider props));
           port :=
             optOrElse
               (option_map NormalizedImporter.ImapPort
                  (currentImport props))
               (getDefaultPort (provider props));
           errorCode := 0;
           errorLabel := "";
           providerFolders := [];
           selectedPeriod := defaultPeriod;
           payload :=
             {| Payload.AddressID := Address.ID first;
                Payload.Mapping := [];
                Payload.CustomFields := 0;
                Payload.StartTime := None |};
           isPayloadInvalid := false |}
  end.
End Defaults.

(** *** What the modal does to the outside

    The requests the modal sends through [api], with the answer each one
    got, and the other calls it makes on its collaborators. *)

Record Authentication : Type := {
  AuthImapHost : option string;
  AuthImapPort : option string;
  AuthImporterID : option string
}.

Module ErrorData.
Record t : Type := { Code : Z; Error : string }.
End ErrorData.

(** The [data] property of a thrown value: missing, [null], or the object
    the server sent. *)
Inductive ErrorDataField : Type :=
| undefined
| null
| present (d : ErrorData.t).

(** A value that is thrown and caught: its [data] property and its
    [message].  A rejection of [api] has the [data] of the server's answer;
    an [Error] the engine throws has none. *)
Record ApiError : Type := {
  data : ErrorDataField;
  message : string
}.

Record CreateImportPayload : Type := {
  Account : string;
  CreateImapHost : string;
  CreateImapPort : JsNumber;
  CreateSasl : AuthenticationMethod;
  CreateCode : string;
  AllowSelfSigned : Z
}.

Record UpdateImportPayload : Type := {
  UpdateAccount : string;
  UpdateCode : string;
  UpdateImapHost : string;
  UpdateImapPort : JsNumber;
  UpdateSasl : AuthenticationMethod
}.

Record StartImportPayload : Type := {
  StartImporterID : string;
  StartAddressID : string;
  StartMapping : list (string * list string);
  StartCustomFields : Z;
  StartStartTime : option Z
}.

Inductive Request : Type :=
| getAuthenticationMethod (Email : string)
| getImport (importID : string)
| getMailImportData (importerID : string) (Code : string)
| createImport (mail : CreateImportPayload)
| startImportTask (p : StartImportPayload)
| updateImport (importID : string) (mail : UpdateImportPayload)
| resumeImport (ImporterID : string) (Products : list ImportType).

Inductive Answer : Type :=
| AnsAuthentication (a : Authentication)
| AnsImporter (i : Importer.t)
| AnsFolders (folders : option (list ImportedMailFolder.t))
| AnsImporterID (id : string)
| AnsDone.

(** The server as the modal sees it during one handler: an answer for each
    request, and the outcome of the event manager's [call()]. *)
Record Server : Type := {
  onGetAuthenticationMethod : string -> Completion ApiError Authentication;
  onGetImport : string -> Completion ApiError Importer.t;
  onGetMailImportData :
    string -> string ->
    Completion ApiError (option (list ImportedMailFolder.t));
  onCreateImport : CreateImportPayload -> Completion ApiError string;
  onStartImportTask : StartImportPayload -> Completion ApiError unit;
  onUpdateImport :
    string -> UpdateImportPayload -> Completion ApiError unit;
  onResumeImport : string -> Completion ApiError unit;
  onCall : Completion ApiError unit
}.

(** The prop a modal calls when the user confirms. *)
Inductive Callback : Type := onClose.

Inductive Modal : Type :=
| ConfirmModal (onConfirm : Callback) (title cancel confirm : string).

Inductive Effect : Type :=
| ApiCall (r : Request) (silence : bool)
          (answer : Completion ApiError Answer)
| EventManagerCall
| ConsoleError (label : string) (d : option ErrorData.t)
| ErrorHandler (error : ApiError)
| OnClose
| CreateModal (m : Modal)
| PreventDefault.

(** The state a handler runs in: the current wizard state (what
    [setModalModel] updates) and everything done so far. *)
Record World : Type := {
  model : ImportMailModalModel;
  effects : list Effect
}.

(** A handler: from a world to its completion and the world it leaves. *)
Definition M (A : Type) : Type := World -> Completion ApiError A * World.

Definition ret {A : Type} (a : A) : M A := fun w => (Returned a, w).

Definition bind {A B : Type} (m : M A) (k : A -> M B) : M B :=
  fun w =>
    match m w with
    | (Returned a, w') => k a w'
    | (Thrown e, w') => (Thrown e, w')
    end.

(** [try { body } catch (error) { handler(error) }]. *)
Definition tryCatch {A : Type} (body : M A) (handler : ApiError -> M A)
  : M A :=
  fun w =>
    match body w with
    | (Returned a, w') => (Returned a, w')
    | (Thrown e, w') => handler e w'
    end.

Definition throw {A : Type} (e : ApiError) : M A := fun w => (Thrown e, w).

Definition emit (e : Effect) : M unit :=
  fun w => (Returned tt, {| model := model w; effects := effects w ++ [e] |}).

(** [setModalModel(updater)]. *)
Definition setModalModel (updater : ImportMailModalModel -> ImportMailModalModel)
  : M unit :=
  fun w =>
    (Returned tt, {| model := updater (model w); effects := effects w |}).

Definition mapCompletion {E A B : Type} (f : A -> B) (c : Completion E A)
  : Completion E B :=
  match c with
  | Returned a => Returned (f a)
  | Thrown e => Thrown e
  end.

(** [await api(request)]: the request and its answer are recorded, and the
    answer is the completion of the [await]. *)
Definition api {A : Type} (r : Request) (silence : bool)
           (answer : Completion ApiError A) (describe : A -> Answer) : M A :=
  fun w =>
    (answer,
     {| model := model w;
        effects :=
          effects w ++ [ApiCall r silence (mapCompletion describe answer)] |}).

(** [await call()]. *)
Definition call (srv : Server) : M unit :=
  fun w =>
    (onCall srv,
     {| model := model w; effects := effects w ++ [EventManagerCall] |}).

Declare Scope wizard_scope.
Delimit Scope wizard_scope with wizard.
Notation "x <- m ;; k" := (bind m (fun x => k))
  (at level 61, m at next level, right associativity) : wizard_scope.
Notation "m ;; k" := (bind m (fun _ => k))
  (at level 61, right associativity) : wizard_scope.

(** *** The handlers of the component

    A handler closes over the [modalModel] of the render it was created in;
    [setModalModel] acts on the state that is current when it runs. *)

Section Handlers.
Context (K : Constants) (props : Props) (srv : Server).
Context (modalModel : ImportMailModalModel).
Local Open Scope wizard_scope.

Definition hasIMAPError : bool :=
  errorCode modalModel =? IMAP_CONNECTION_ERROR (IMPORT_ERROR K).

Definition checkAuth : M unit :=
  auth <- api (getAuthenticationMethod (email modalModel)) false
              (onGetAuthenticationMethod srv (email modalModel))
              AnsAuthentication ;;
  setModalModel (fun modalModel =>
    {| step := step modalModel;
       importID := optOrElse (AuthImporterID auth) (importID modalModel);
       email := email modalModel;
       password := password modalModel;
       imap := optOrElse (AuthImapHost auth) (imap modalModel);
       port := optOrElse (AuthImapPort auth) (port modalModel);
       errorCode := errorCode modalModel;
       errorLabel := errorLabel modalModel;
       providerFolders := providerFolders modalModel;
       selectedPeriod := selectedPeriod modalModel;
       payload := payload modalModel;
       isPayloadInvalid := isPayloadInvalid modalModel |}).

(** The updater [moveToPrepareStep] hands to [setModalModel]. *)
Definition prepareStepModel (Importer : Importer.t)
           (folders : list ImportedMailFolder.t)
           (modalModel : ImportMailModalModel) : ImportMailModalModel :=
  {| step := PREPARE;
     importID := Importer.ID Importer;
     email := Importer.Email Importer;
     password := password modalModel;
     imap := Importer.ImapHost Importer;
     port := numberToString (Importer.ImapPort Importer);
     errorCode := 0;
     errorLabel := "";
     providerFolders := sort destinationFoldersFirst folders;
     selectedPeriod := selectedPeriod modalModel;
     payload := payload modalModel;
     isPayloadInvalid := isPayloadInvalid modalModel |}.

Definition moveToPrepareStep (Importer : Importer.t)
           (folders : list ImportedMailFolder.t) : M unit :=
  setModalModel (prepareStepModel Importer folders).

Definition knownErrors : list Z :=
  [AUTHENTICATION_ERROR (IMPORT_ERROR K);
   IMAP_CONNECTION_ERROR (IMPORT_ERROR K);
   RATE_LIMIT_EXCEEDED (IMPORT_ERROR K)].

(** [Array.prototype.includes] on numbers. *)
Definition includes (l : list Z) (x : Z) : bool :=
  existsb (fun y => y =? x) l.

(** What [{ data: { Code, Error } = { Code: 0, Error: '' } }] binds: the
    default stands in for a [data] that is [undefined]. *)
Definition errorDataOrDefault (error : ApiError) : ErrorData.t :=
  match data error with
  | present d => d
  | _ => {| ErrorData.Code := 0; ErrorData.Error := "" |}
  end.

(** The [TypeError] of a destructuring pattern applied to [null].  The
    wording of its message is the engine's; the modal does not read it. *)
Definition cannotDestructureNull : ApiError :=
  {| data := undefined;
     message := "Cannot destructure property 'Code' of 'null' as it is null." |}.

(** The destructuring itself: a default in a pattern replaces [undefined]
    only, so a [data] that is [null] reaches the inner pattern, which
    throws. *)
Definition destructureError (error : ApiError) : M ErrorData.t :=
  match data error with
  | null => throw cannotDestructureNull
  | _ => ret (errorDataOrDefault error)
  end.

(** [error.data] as [console.error] gets it. *)
Definition loggedData (error : ApiError) : option ErrorData.t :=
  match data error with
  | present d => Some d
  | _ => None
  end.

Definition handleSubmitStartError (error : ApiError) : M unit :=
  d <- destructureError error ;;
  let Code := ErrorData.Code d in
  let Error := ErrorData.Error d in
  emit (ConsoleError "Import Connection Error" (loggedData error)) ;;
  if includes knownErrors Code
  then
    setModalModel (fun modalModel =>
      {| step := step modalModel;
         importID := importID modalModel;
         email := email modalModel;
         password := password modalModel;
         imap := imap modalModel;
         port := port modalModel;
         errorCode := Code;
         errorLabel := Error;
         providerFolders := providerFolders modalModel;
         selectedPeriod := selectedPeriod modalModel;
         payload := payload modalModel;
         isPayloadInvalid := isPayloadInvalid modalModel |})
  else emit (ErrorHandler error).

(** [const { Folders = [] } = ...]. *)
Definition foldersOrEmpty (f : option (list ImportedMailFolder.t))
  : list ImportedMailFolder.t :=
  match f with
  | Some l => l
  | None => []
  end.

Definition submitAuthentication : M unit :=
  if truthy (importID modalModel)
  then
    tryCatch
      (Importer <- api (getImport (importID modalModel)) false
                       (onGetImport srv (importID modalModel))
                       AnsImporter ;;
       Folders <- api (getMailImportData (Importer.ID Importer)
                                         (password modalModel)) true
                      (onGetMailImportData srv (Importer.ID Importer)
                                           (password modalModel))
                      AnsFolders ;;
       moveToPrepareStep Importer (foldersOrEmpty Folders))
      handleSubmitStartError
  else if truthy (imap modalModel) && truthy (port modalModel)
  then
    let mail :=
      {| Account := email modalModel;
         CreateImapHost := imap modalModel;
         CreateImapPort := parseInt10 (port modalModel);
         CreateSasl := PLAIN;
         CreateCode := password modalModel;
         AllowSelfSigned := if hasIMAPError then 1 else 0 |} in
    tryCatch
      (ImporterID <- api (createImport mail) true
                         (onCreateImport srv mail) AnsImporterID ;;
       call srv ;;
       Folders <- api (getMailImportData ImporterID (password modalModel))
                      false
                      (onGetMailImportData srv ImporterID
                                           (password modalModel))
                      AnsFolders ;;
       moveToPrepareStep
         {| Importer.ID := ImporterID;
            Importer.Email := email modalModel;
            Importer.ImapHost := imap modalModel;
            Importer.ImapPort := parseInt10 (port modalModel);
            Importer.Sasl := PLAIN |}
         (foldersOrEmpty Folders))
      handleSubmitStartError
  else
    setModalModel (fun modalModel =>
      {| step := step modalModel;
         importID := importID modalModel;
         email := email modalModel;
         password := password modalModel;
         imap := "";
         port := port modalModel;
         errorCode := errorCode modalModel;
         errorLabel := errorLabel modalModel;
         providerFolders := providerFolders modalModel;
         selectedPeriod := selectedPeriod modalModel;
         payload := payload modalModel;
         isPayloadInvalid := isPayloadInvalid modalModel |}).

Definition formatImportPayload : StartImportPayload :=
  let payload := payload modalModel in
  {| StartImporterID := importID modalModel;
     StartAddressID := Payload.AddressID payload;
     StartMapping :=
       map (fun m => (MailImportMapping.Source m,
                      MailImportMapping.Destinations m))
           (filter MailImportMapping.checked (Payload.Mapping payload));
     StartCustomFields := Payload.CustomFields payload;
     StartStartTime :=
       option_map (dateToTimestamp K) (Payload.StartTime payload) |}.

Definition launchImport : M unit :=
  let payload' := formatImportPayload in
  api (startImportTask payload') false (onStartImportTask srv payload')
      (fun _ => AnsDone) ;;
  call srv ;;
  setModalModel (fun modalModel =>
    {| step := STARTED;
       importID := importID modalModel;
       email := email modalModel;
       password := password modalModel;
       imap := imap modalModel;
       port := port modalModel;
       errorCode := errorCode modalModel;
       errorLabel := errorLabel modalModel;
       providerFolders := providerFolders modalModel;
       selectedPeriod := selectedPeriod modalModel;
       payload := payload modalModel;
       isPayloadInvalid := isPayloadInvalid modalModel |}).

Definition resumeImporter : M unit :=
  let mail :=
    {| UpdateAccount := email modalModel;
       UpdateCode := password modalModel;
       UpdateImapHost := imap modalModel;
       UpdateImapPort := parseInt10 (port modalModel);
       UpdateSasl := PLAIN |} in
  api (updateImport (importID modalModel) mail) false
      (onUpdateImport srv (importID modalModel) mail)
      (fun _ => AnsDone) ;;
  api (resumeImport (importID modalModel) [MAIL]) false
      (onResumeImport srv (importID modalModel)) (fun _ => AnsDone) ;;
  call srv ;;
  emit OnClose.

Definition discardConfirmation : Modal :=
  ConfirmModal onClose "Quit import?" "Continue import" "Discard".

Definition handleCancel : M unit :=
  if negb (truthy (email modalModel))
     || stepEqb (step modalModel) STARTED
     || isReconnectMode props
  then emit OnClose
  else emit (CreateModal discardConfirmation).

Definition handleSubmit : M unit :=
  emit PreventDefault ;;
  match step modalModel with
  | START =>
      if isReconnectMode props then resumeImporter
      else submitAuthentication
  | PREPARE => launchImport
  | STARTED => emit OnClose
  end.

(** The effect on [[debouncedEmail, modalModel.step]]; the promise of
    [checkAuth] is dropped ([void]), so a rejection goes nowhere. *)
Definition emailEffect (debouncedEmail : string) : M unit :=
  if negb (stepEqb (step modalModel) START)
     || truthy (imap modalModel) || truthy (port modalModel)
  then ret tt
  else if truthy debouncedEmail && validateEmailAddress K debouncedEmail
  then tryCatch checkAuth (fun _ => ret tt)
  else ret tt.

End Handlers.

(** *** The wizard over time *)

(** Modelled from the spec: the step components [ImportStartStep] and
    [ImportPrepareStep], which call [updateModalModel(newModel)], are not
    part of these files.  Following the data model of the spec (the user
    enters data and chooses the folder mapping; the state is replaced as a
    whole), an edit replaces the entered data and keeps [step], [importID],
    [errorCode], [errorLabel] and [providerFolders]. *)
Record FormEdit : Type := {
  newEmail : string;
  newPassword : string;
  newImap : string;
  newPort : string;
  newSelectedPeriod : TIME_PERIOD;
  newPayload : Payload.t;
  newIsPayloadInvalid : bool
}.

Definition applyEdit (e : FormEdit) (modalModel : ImportMailModalModel)
  : ImportMailModalModel :=
  {| step := step modalModel;
     importID := importID modalModel;
     email := newEmail e;
     password := newPassword e;
     imap := newImap e;
     port := newPort e;
     errorCode := errorCode modalModel;
     errorLabel := errorLabel modalModel;
     providerFolders := providerFolders modalModel;
     selectedPeriod := newSelectedPeriod e;
     payload := newPayload e;
     isPayloadInvalid := newIsPayloadInvalid e |}.

(** What can happen to a mounted wizard.  A handler runs with the
    [modalModel] of the render that created it; [age] says how many state
    changes that render lies back when the handler's updates arrive (0: the
    current state). *)
Inductive Event : Type :=
| UserEdit (e : FormEdit)
| EmailDebounced (age : nat) (debouncedEmail : string) (srv : Server)
| FormSubmit (age : nat) (srv : Server)
| CancelClick (age : nat).

Record Wizard : Type := {
  world : World;
  rendered : list ImportMailModalModel
}.

Definition closureAt (age : nat) (w : Wizard) : ImportMailModalModel :=
  nth age (model (world w) :: rendered w) (model (world w)).

(** [cancelRenderer] is memoised on [[modalModel.step]]: the Cancel button
    of the footer keeps the [handleCancel] of the render in which [step]
    last changed (the first render, if it never did).  [sameStepRenders]
    counts the renders since that one. *)
Fixpoint sameStepRenders (s : MailImportStep)
         (earlier : list ImportMailModalModel) : nat :=
  match earlier with
  | m :: rest => if stepEqb (step m) s then S (sameStepRenders s rest) else 0
  | [] => 0
  end.

(** A click on the Cancel button of the footer. *)
Definition footerCancelClick (w : Wizard) : Event :=
  CancelClick (sameStepRenders (step (model (world w))) (rendered w)).

(** Closing the modal itself: [FormModal] is given [onClose={handleCancel}]
    anew in every render. *)
Definition modalClose : Event := CancelClick 0.

Definition handlerOf (K : Constants) (props : Props) (ev : Event)
           (w : Wizard) : M unit :=
  match ev with
  | UserEdit e => setModalModel (applyEdit e)
  | EmailDebounced age debouncedEmail srv =>
      emailEffect K srv (closureAt age w) debouncedEmail
  | FormSubmit age srv => handleSubmit K props srv (closureAt age w)
  | CancelClick age => handleCancel props (closureAt age w)
  end.

Definition dispatch (K : Constants) (props : Props) (w : Wizard)
           (ev : Event) : Wizard :=
  {| world := snd (handlerOf K props ev w (world w));
     rendered := model (world w) :: rendered w |}.

Definition mount (K : Constants) (user : User) (props : Props)
  : option Wizard :=
  option_map
    (fun m => {| world := {| model := m; effects := [] |}; rendered := [] |})
    (initialModalModel K user props).

Definition runEvents (K : Constants) (props : Props) (evs : list Event)
           (w : Wizard) : Wizard :=
  fold_left (dispatch K props) evs w.

(** *** Reading the record of effects *)

Definition isErrorHandler (e : Effect) : bool :=
  match e with ErrorHandler _ => true | _ => false end.

Definition isFolderListing (e : Effect) : bool :=
  match e with ApiCall (getMailImportData _ _) _ _ => true | _ => false end.

Definition isCreateImport (e : Effect) : bool :=
  match e with ApiCall (createImport _) _ _ => true | _ => false end.

(** The effect shows that the server named an import job: a create-import
    call returned a non-empty [ImporterID], or an authentication lookup
    did. *)
Definition namesImportJob (e : Effect) : bool :=
  match e with
  | ApiCall (createImport _) _ (Returned (AnsImporterID id)) => truthy id
  | ApiCall (getAuthenticationMethod _) _ (Returned (AnsAuthentication a)) =>
      truthyOpt (AuthImporterID a)
  | _ => false
  end.

Definition reconnectsExistingImport (props : Props) : bool :=
  truthyOpt (option_map NormalizedImporter.ID (currentImport props)).

(** An import job is known to exist on the server. *)
Definition importJobExists (props : Props) (effs : list Effect) : bool :=
  reconnectsExistingImport props || existsb namesImportJob effs.

End ImportMail.

(** ** [ImportMailModal.tsx]: what the modal shows *)

Module ImportMailView.
Import JS ImportMail.

(** What a click on a button does. *)
Inductive ButtonClick : Type :=
| SubmitsForm
| CallsHandleCancel
| ClosesAndOpens (path : string).

(** A button of the modal's footer, with the props the modal gives it. *)
Record ButtonView : Type := {
  text : string;
  click : ButtonClick;
  disabled : bool;
  loading : bool
}.

Section View.
(** [isNumber] of [@proton/shared/lib/helpers/validators] is not part of
    these files; it is a parameter. *)
Context (K : Constants) (isNumber : string -> bool) (props : Props).
Context (modalModel : ImportMailModalModel).

Definition invalidPortError : bool :=
  truthy (port modalModel) && negb (isNumber (port modalModel)).

Definition title : option string :=
  match step modalModel with
  | START =>
      Some (if isReconnectMode props then "Reconnect your account"
            else "Start a new import")
  | PREPARE => Some "Start import process"
  | STARTED => None
  end.

(** The button is memoised on [[modalModel.step]]: [modalModel] is here the
    state of the render in which the step last changed, and so is the
    closure of the [handleCancel] it calls ([footerCancelClick]). *)
Definition cancelRenderer : ButtonView :=
  {| text := if stepEqb (step modalModel) STARTED then "Close" else "Cancel";
     click := CallsHandleCancel;
     disabled := false;
     loading := false |}.

Definition disabledStartStep : bool :=
  negb (truthy (email modalModel))
  || negb (truthy (password modalModel))
  || negb (truthy (imap modalModel))
  || negb (truthy (port modalModel))
  || invalidPortError.

Definition submitButtonText : string :=
  if isReconnectMode props then "Reconnect"
  else if hasIMAPError K modalModel then "Skip verification"
  else "Next".

(** The submit button: [None] is the [null] of the last step on the import
    page. *)
Definition submitRenderer (loading isCurrentLocationImportPage : bool)
  : option ButtonView :=
  match step modalModel with
  | START =>
      Some {| text := submitButtonText;
              click := SubmitsForm;
              disabled := disabledStartStep;
              loading := loading |}
  | PREPARE =>
      Some {| text := "Start import";
              click := SubmitsForm;
              disabled := isPayloadInvalid modalModel;
              loading := loading |}
  | STARTED =>
      if negb isCurrentLocationImportPage
      then Some {| text := "Check import progress";
                   click := ClosesAndOpens "/easy-switch";
                   disabled := false;
                   loading := false |}
      else None
  end.

End View.

End ImportMailView.

(** ** Asynchronous functions of the other files

    An [async] function of the files below is a computation over the record
    of the calls it has made on its collaborators: it returns or throws, and
    extends the record. *)

Module Async.
Import JS.

Section Eff.
Context {L E : Type}.

Definition Eff (A : Type) : Type := list L -> Completion E A * list L.

Definition ret {A : Type} (a : A) : Eff A := fun l => (Returned a, l).

Definition throw {A : Type} (e : E) : Eff A := fun l => (Thrown e, l).

Definition bind {A B : Type} (m : Eff A) (k : A -> Eff B) : Eff B :=
  fun l =>
    match m l with
    | (Returned a, l') => k a l'
    | (Thrown e, l') => (Thrown e, l')
    end.

(** [try { body } catch { handler }]. *)
Definition tryCatch {A : Type} (body : Eff A) (handler : E -> Eff A)
  : Eff A :=
  fun l =>
    match body l with
    | (Returned a, l') => (Returned a, l')
    | (Thrown e, l') => handler e l'
    end.

(** A call that cannot fail. *)
Definition emit (c : L) : Eff unit := fun l => (Returned tt, l ++ [c]).

(** [await] of a call [c] that completes with [answer]. *)
Definition await {A : Type} (c : L) (answer : Completion E A) : Eff A :=
  fun l => (answer, l ++ [c]).

(** What a computation does when nothing has been done before. *)
Definition run {A : Type} (m : Eff A) : Completion E A * list L := m [].
End Eff.

Declare Scope async_scope.
Delimit Scope async_scope with async.
Notation "x <- m ;; k" := (bind m (fun x => k))
  (at level 61, m at next level, right associativity) : async_scope.
Notation "m ;; k" := (bind m (fun _ => k))
  (at level 61, right associativity) : async_scope.

End Async.

(** ** [packages/components/containers/domains/DomainAddressStatus.tsx] *)

Module DomainAddressStatus.
Import JS.

(** The fields of [DomainAddress] the component reads. *)
Record DomainAddress : Type := {
  Status : Z;
  Receive : Z;
  HasKeys : Z
}.

(** [ADDRESS_STATUS] and [RECEIVE_ADDRESS] of [@proton/shared/lib/constants]
    are not part of these files; the members the component names are
    parameters. *)
Record AddressConstants : Type := {
  STATUS_DISABLED : Z;
  STATUS_ENABLED : Z;
  RECEIVE_YES : Z
}.

Inductive BadgeType : Type := warning | success | error.

Record Badge : Type := {
  type : BadgeType;
  children : string
}.

(** The component: the badge it renders, or [None] for [null]. *)
Definition DomainAddressStatus (C : AddressConstants)
           (address : DomainAddress) : option Badge :=
  if HasKeys address =? 0
  then Some {| type := warning; children := "Missing keys" |}
  else if (Status address =? STATUS_ENABLED C)
          && (Receive address =? RECEIVE_YES C)
  then Some {| type := success; children := "Enabled" |}
  else if Status address =? STATUS_DISABLED C
  then Some {| type := error; children := "Disabled" |}
  else None.

End DomainAddressStatus.

(** ** [applications/drive/src/app/hooks/useDriveCrypto.ts] *)

Module DriveCrypto.
Import JS Async.

Section Hook.
(** Addresses, the keys kept for an address, OpenPGP keys, split keys and
    signatures come from [proton-shared] and [pmcrypto]; so do the helpers
    below, which are parameters. *)
Context {Address AddressKey OpenPGPKey SplitKeys Signature Rejection : Type}.
Context (addressID : Address -> string).
Context (getActiveAddresses : list Address -> list Address).
Context (isDecrypted : OpenPGPKey -> bool).
Context (splitKeys : list AddressKey -> SplitKeys).

(** What [getPrimaryKey] finds: both keys may be missing. *)
Record PrimaryKey : Type := {
  privateKey : option OpenPGPKey;
  publicKey : option OpenPGPKey
}.

Context (getPrimaryKey : list AddressKey -> option PrimaryKey).

(** What is thrown: an [Error] made here, or the rejection of a call. *)
Inductive Failure : Type :=
| Error (message : string)
| Rejected (r : Rejection).

Inductive NotificationType : Type := errorNotification.

Inductive Call : Type :=
| GetAddresses
| GetAddressKeys (addressId : string)
| CreateNotification (text : string) (type : NotificationType)
| SignMessage (payload : string) (privateKeys : list OpenPGPKey).

(** How the collaborators answer during one call of the hook's
    functions. *)
Record Services : Type := {
  getAddresses : Completion Failure (list Address);
  getAddressKeys : string -> Completion Failure (list AddressKey);
  signMessage : string -> list OpenPGPKey -> Completion Failure Signature
}.

Record PrimaryAddressKey : Type := {
  primaryPrivateKey : OpenPGPKey;
  primaryPublicKey : option OpenPGPKey;
  primaryAddress : Address
}.

Record SigningKeys : Type := {
  signingKey : OpenPGPKey;
  signingAddress : Address
}.

Record Signed : Type := {
  signature : Signature;
  address : Address
}.

Context (services : Services).
Local Open Scope async_scope.

Definition getPrimaryAddressKey : Eff (L := Call) PrimaryAddressKey :=
  addresses <- await GetAddresses (getAddresses services) ;;
  match getActiveAddresses addresses with
  | [] =>
      emit (CreateNotification "No valid address found" errorNotification) ;;
      throw (Error "User has no active address")
  | activeAddress :: _ =>
      keys <- await (GetAddressKeys (addressID activeAddress))
                    (getAddressKeys services (addressID activeAddress)) ;;
      let found :=
        match getPrimaryKey keys with
        | Some k => k
        | None => {| privateKey := None; publicKey := None |}
        end in
      match privateKey found with
      | Some key =>
          if negb (isDecrypted key)
          then throw (Error "Primary private key is not decrypted")
          else ret {| primaryPrivateKey := key;
                      primaryPublicKey := publicKey found;
                      primaryAddress := activeAddress |}
      | None => throw (Error "Primary private key is not decrypted")
      end
  end.

Definition getVerificationKeys (addressId : string)
  : Eff (L := Call) SplitKeys :=
  keys <- await (GetAddressKeys addressId)
                (getAddressKeys services addressId) ;;
  ret (splitKeys keys).

Definition sign (payload : string) (keys : option SigningKeys)
  : Eff (L := Call) Signed :=
  chosen <- match keys with
            | Some k => ret k
            | None =>
                primary <- getPrimaryAddressKey ;;
                ret {| signingKey := primaryPrivateKey primary;
                       signingAddress := primaryAddress primary |}
            end ;;
  made <- await (SignMessage payload [signingKey chosen])
                (signMessage services payload [signingKey chosen]) ;;
  ret {| signature := made; address := signingAddress chosen |}.

End Hook.

End DriveCrypto.

(** ** [ExtraEventImportButton], the button that adds an invitation to the
    calendar *)

Module EventImport.
Import JS Async.

Section Button.
(** Events, calendars and their settings, the rest of the invitation model
    and the update actions are declared in files that are not part of these;
    [getEventWithCalendarAlarms] is a parameter. *)
Context {VEvent CalendarEvent CalendarSettings ImportError UpdateAction
         Others Rejection : Type}.
Context (getEventWithCalendarAlarms : VEvent -> CalendarSettings -> VEvent).
Context (NONE : UpdateAction).

Record Calendar : Type := { ID : string }.

Record CalendarData : Type := {
  calendar : option Calendar;
  isCalendarDisabled : bool;
  calendarSettings : option CalendarSettings
}.

Record InvitationApi : Type := {
  apiVevent : VEvent;
  calendarEvent : CalendarEvent
}.

(** The fields of [InvitationModel] the button reads or writes; [others]
    stands for the rest. *)
Record InvitationModel : Type := {
  calendarData : option CalendarData;
  invitationIcsVevent : VEvent;
  error : option string;
  invitationApi : option InvitationApi;
  hideSummary : bool;
  hideLink : bool;
  updateAction : UpdateAction;
  others : Others
}.

(** [{ response, component }] with [response.Response.Event]. *)
Record ImportedEvent : Type := {
  responseEvent : CalendarEvent;
  component : VEvent
}.

Record AddEventsResult : Type := {
  importedEvents : list ImportedEvent;
  importErrors : list ImportError
}.

Inductive NotificationType : Type :=
| successNotification
| errorNotification.

Inductive Call : Type :=
| AddEvents (events : list VEvent) (calendarID : string)
| CreateNotification (type : NotificationType) (text : string)
| SetModel (model : InvitationModel)
| PostMessageToCalendar (calendarID : string).

Context (addEvents :
           list VEvent -> string -> Completion Rejection AddEventsResult).
(** [appInView === APPS.PROTONCALENDAR]. *)
Context (calendarInView : bool).
(** [handleSuccess] and [handleError] are memoised with no dependency: they
    see the [model] of the first render. *)
Context (firstModel : InvitationModel).
Context (model : InvitationModel).
Local Open Scope async_scope.

Definition veventToSave : VEvent :=
  match calendarData model with
  | Some {| calendarSettings := Some settings |} =>
      getEventWithCalendarAlarms (invitationIcsVevent model) settings
  | _ => invitationIcsVevent model
  end.

Definition handleSuccess (imported : list ImportedEvent)
  : Eff (L := Call) (E := Rejection) unit :=
  match imported with
  | [] => ret tt
  | first :: _ =>
      emit (CreateNotification successNotification "Calendar event created") ;;
      emit (SetModel
              {| calendarData := calendarData firstModel;
                 invitationIcsVevent := invitationIcsVevent firstModel;
                 error := None;
                 invitationApi :=
                   Some {| apiVevent := component first;
                           calendarEvent := responseEvent first |};
                 hideSummary := true;
                 hideLink := false;
                 updateAction := NONE;
                 others := others firstModel |})
  end.

Definition handleError : Eff (L := Call) (E := Rejection) unit :=
  emit (CreateNotification errorNotification "Creating calendar event failed").

Definition isNonEmpty {A : Type} (l : list A) : bool :=
  match l with
  | [] => false
  | _ :: _ => true
  end.

Definition handleAdd : Eff (L := Call) (E := Rejection) unit :=
  match calendarData model with
  | Some {| calendar := Some calendar; isCalendarDisabled := false |} =>
      tryCatch
        (result <- await (AddEvents [veventToSave] (ID calendar))
                         (addEvents [veventToSave] (ID calendar)) ;;
         (if isNonEmpty (importedEvents result)
          then
            handleSuccess (importedEvents result) ;;
            if calendarInView
            then emit (PostMessageToCalendar (ID calendar))
            else ret tt
          else ret tt) ;;
         if isNonEmpty (importErrors result) then handleError else ret tt)
        (fun _ => handleError)
  | _ => ret tt
  end.

End Button.

End EventImport.

(** * Properties *)

(** ** The properties of the calendar helpers, stated *)

Module CalendarSpec.
Import JS CalendarApi.

Section Pages.
Context {CalendarEvent : Type} (CALENDAR_TYPE ApiError : Type).

(** A sequence of pages in which every page before the last holds exactly
    100 events and the last one fewer. *)
Definition fullPagesThenShort (pages : list (list CalendarEvent)) : Prop :=
  exists full short,
    pages = full ++ [short]
    /\ Forall (fun page => Z.of_nat (List.length page) = 100) full
    /\ Z.of_nat (List.length short) < 100.

(** The server answers the request for page [k] with the [k]-th page. *)
Definition serves (api : Api CalendarEvent CALENDAR_TYPE ApiError)
           (uid : string) (recurrenceID : option Z)
           (calendarType : option CALENDAR_TYPE)
           (pages : list (list CalendarEvent)) : Prop :=
  forall k page,
    nth_error pages k = Some page ->
    api (pageParams uid recurrenceID calendarType (Z.of_nat k))
    = Returned {| Events := page |}.

(** The requests for the pages [0 .. n-1], in this order. *)
Definition pageRequests (uid : string) (recurrenceID : option Z)
           (calendarType : option CALENDAR_TYPE) (n : nat)
  : list (GetEventByUIDArguments CALENDAR_TYPE) :=
  map (fun k => pageParams uid recurrenceID calendarType (Z.of_nat k))
      (seq 0 n).

(** The call returns all events of [pages], in order, and asks for these
    pages and no other. *)
Definition fetchesAllPages (max : option Z)
           (pages : list (list CalendarEvent)) : Prop :=
  forall api uid recurrenceID calendarType,
    serves api uid recurrenceID calendarType pages ->
    let run :=
      getPaginatedEventsByUID api uid recurrenceID max calendarType in
    completion run = Returned (List.concat pages)
    /\ requests run
       = pageRequests uid recurrenceID calendarType (List.length pages).

(** A server that holds [pages] and answers every later page empty. *)
Definition apiOfPages (pages : list (list CalendarEvent))
  : Api CalendarEvent CALENDAR_TYPE ApiError :=
  fun params =>
    Returned {| Events := nth (Z.to_nat (Page params)) pages [] |}.
End Pages.

(** The number of events a call returned (-1 if it threw). *)
Definition returnedCount {E A} (c : Completion E (list A)) : Z :=
  match c with
  | Returned l => Z.of_nat (List.length l)
  | Thrown _ => -1
  end.

(** 100 full pages followed by a page with one event. *)
Definition pages101 : list (list nat) :=
  repeat (repeat 0%nat 100) 100 ++ [[1%nat]].

(** Two full pages and a page with three events. *)
Definition pages3 : list (list nat) :=
  [repeat 0%nat 100; repeat 1%nat 100; [2%nat; 3%nat; 4%nat]].

(** A server whose second answer is a rejection with status 503. *)
Definition failingApi : Api nat unit Z :=
  fun params =>
    if Page params =? 1 then Thrown 503
    else Returned {| Events := repeat 0%nat 100 |}.

(** A server that answers every request with a full page. *)
Definition alwaysFullApi : Api nat unit Z :=
  fun _ => Returned {| Events := repeat 0%nat 100 |}.

(** C3 as stated: whatever the server answers, the call sends at most 100
    page requests. *)
Definition sendsAtMost100 {CalendarEvent CALENDAR_TYPE ApiError : Type}
           (api : Api CalendarEvent CALENDAR_TYPE ApiError) (uid : string)
           (recurrenceID : option Z) (max : option Z)
           (calendarType : option CALENDAR_TYPE) : Prop :=
  Z.of_nat
    (List.length
       (requests
          (getPaginatedEventsByUID api uid recurrenceID max calendarType)))
  <= 100.

(** The message ends with the suffix when letter case is ignored. *)
Definition endsWithIgnoringCase (message suffix : string) : Prop :=
  exists prefix tail,
    message = (prefix ++ tail)%string /\ toLowerCase tail = suffix.

End CalendarSpec.

(** ** The properties of the import wizard, stated *)

Module ImportMailSpec.
Import JS ImportMail.

(** *** Folder order *)

Definition sourceLe (a b : ImportedMailFolder.t) : Prop :=
  String.leb (ImportedMailFolder.Source a) (ImportedMailFolder.Source b)
  = true.

(** Earlier folders have the smaller (or the same) [Source]. *)
Definition ascendingBySource (l : list ImportedMailFolder.t) : Prop :=
  forall i j a b,
    (i < j)%nat -> nth_error l i = Some a -> nth_error l j = Some b ->
    sourceLe a b.

(** Every folder with a destination stands before every folder without. *)
Definition destinationsFirst (l : list ImportedMailFolder.t) : Prop :=
  forall i j a b,
    nth_error l i = Some a -> nth_error l j = Some b ->
    hasDestination a = true -> hasDestination b = false ->
    (i < j)%nat.

Definition withDestination (l : list ImportedMailFolder.t)
  : list ImportedMailFolder.t :=
  filter hasDestination l.

Definition withoutDestination (l : list ImportedMailFolder.t)
  : list ImportedMailFolder.t :=
  filter (fun f => negb (hasDestination f)) l.

(** The order C2 states: destinations first, and each of the two groups
    ascending by [Source]. *)
Definition orderedAsStated (l : list ImportedMailFolder.t) : Prop :=
  destinationsFirst l
  /\ ascendingBySource (withDestination l)
  /\ ascendingBySource (withoutDestination l).

Definition folder (source : string) (destination : option string)
  : ImportedMailFolder.t :=
  {| ImportedMailFolder.Source := source;
     ImportedMailFolder.DestinationFolder := destination;
     ImportedMailFolder.checked := true;
     ImportedMailFolder.Destinations := [] |}.

(** Folders as a provider may list them: the system folders, which have a
    destination, among folders of the user. *)
Definition sampleFolders : list ImportedMailFolder.t :=
  [folder "Travel" None;
   folder "Sent" (Some "Sent");
   folder "Archive" None;
   folder "INBOX" (Some "Inbox");
   folder "Bills" None].

(** *** Sample surroundings *)

Fixpoint containsAt (s : string) : bool :=
  match s with
  | EmptyString => false
  | String c rest => Ascii.eqb c "@" || containsAt rest
  end.

(** An instance of the imported constants, for the examples. *)
Definition sampleConstants : Constants :=
  {| IMAPS := fun p =>
       match p with
       | YAHOO => "export.imap.mail.yahoo.com"
       | OUTLOOK => "outlook.office365.com"
       | DEFAULT => ""
       end;
     PORTS := fun p =>
       match p with
       | YAHOO | OUTLOOK => "993"
       | DEFAULT => ""
       end;
     IMPORT_ERROR :=
       {| AUTHENTICATION_ERROR := 2901;
          IMAP_CONNECTION_ERROR := 2900;
          RATE_LIMIT_EXCEEDED := 429 |};
     validateEmailAddress := containsAt;
     dateToTimestamp := fun ms => ms / 1000 |}.

Definition sampleImporter : Importer.t :=
  {| Importer.Email := "user@example.org";
     Importer.ID := "importer-1";
     Importer.ImapHost := "imap.example.org";
     Importer.ImapPort := Num 993;
     Importer.Sasl := PLAIN |}.

(** A server on which every request succeeds. *)
Definition sampleServer : Server :=
  {| onGetAuthenticationMethod := fun _ =>
       Returned {| AuthImapHost := Some "imap.example.org";
                   AuthImapPort := Some "993";
                   AuthImporterID := None |};
     onGetImport := fun _ => Returned sampleImporter;
     onGetMailImportData := fun _ _ => Returned (Some sampleFolders);
     onCreateImport := fun _ => Returned "importer-1";
     onStartImportTask := fun _ => Returned tt;
     onUpdateImport := fun _ _ => Returned tt;
     onResumeImport := fun _ => Returned tt;
     onCall := Returned tt |}.

Definition authenticationFailed : ApiError :=
  {| data := present {| ErrorData.Code := 2901;
                        ErrorData.Error := "Invalid credentials" |};
     message := "Unprocessable Content" |}.

Definition serverDown : ApiError :=
  {| data := undefined; message := "Failed to fetch" |}.

Definition sampleUser : User := {| isFree := true |}.

Definition sampleAddress : Address.t := {| Address.ID := "address-1" |}.

Definition newImportProps (provider : option NON_OAUTH_PROVIDER) : Props :=
  {| currentImport := None;
     addresses := [sampleAddress];
     provider := provider |}.

Definition reconnectProps : Props :=
  {| currentImport :=
       Some {| NormalizedImporter.ID := "importer-1";
               NormalizedImporter.Email := "user@example.org";
               NormalizedImporter.ImapHost := "imap.example.org";
               NormalizedImporter.ImapPort := "993" |};
     addresses := [sampleAddress];
     provider := None |}.

(** A wizard state in step [START] with the form filled in. *)
Definition filledModel (importID : string) : ImportMailModalModel :=
  {| step := START;
     importID := importID;
     email := "user@example.org";
     password := "secret";
     imap := "imap.example.org";
     port := "993";
     errorCode := 2901;
     errorLabel := "Invalid credentials";
     providerFolders := [];
     selectedPeriod := LAST_3_MONTHS;
     payload :=
       {| Payload.AddressID := "address-1";
          Payload.Mapping := [];
          Payload.CustomFields := 0;
          Payload.StartTime := None |};
     isPayloadInvalid := false |}.

(** An error answer whose body is the JSON value [null]. *)
Definition emptyAnswer : ApiError :=
  {| data := null; message := "Bad Gateway" |}.

(** A wizard state in step [START] with the form filled in and no error
    shown. *)
Definition typedModel (port : string) : ImportMailModalModel :=
  {| step := START;
     importID := "";
     email := "user@example.org";
     password := "secret";
     imap := "imap.example.org";
     port := port;
     errorCode := 0;
     errorLabel := "";
     providerFolders := [];
     selectedPeriod := LAST_3_MONTHS;
     payload :=
       {| Payload.AddressID := "address-1";
          Payload.Mapping := [];
          Payload.CustomFields := 0;
          Payload.StartTime := None |};
     isPayloadInvalid := false |}.

(** *** The error handler of the start step *)

(** The known-error enumeration. *)
Definition isKnownError (K : Constants) (code : Z) : Prop :=
  code = AUTHENTICATION_ERROR (IMPORT_ERROR K)
  \/ code = IMAP_CONNECTION_ERROR (IMPORT_ERROR K)
  \/ code = RATE_LIMIT_EXCEEDED (IMPORT_ERROR K).

(** The state [m] with [errorCode] and [errorLabel] replaced. *)
Definition withError (code : Z) (label : string) (m : ImportMailModalModel)
  : ImportMailModalModel :=
  {| step := step m;
     importID := importID m;
     email := email m;
     password := password m;
     imap := imap m;
     port := port m;
     errorCode := code;
     errorLabel := label;
     providerFolders := providerFolders m;
     selectedPeriod := selectedPeriod m;
     payload := payload m;
     isPayloadInvalid := isPayloadInvalid m |}.

(** *** What a handler did *)

(** The effects of a handler that starts with the wizard state [current]
    and nothing done yet. *)
Definition performed {A : Type} (handler : M A)
           (current : ImportMailModalModel) : list Effect :=
  effects (snd (handler {| model := current; effects := [] |})).

(** *** The step into [PREPARE] *)

(** C10 as stated, for a submit: if it takes the wizard into step
    [PREPARE], the server has returned an [Importer] record to it, and
    [importID], [email], [imap] and [port] of the new state are those of
    that record. *)
Definition preparedFromServerRecord (K : Constants) (srv : Server)
           (modalModel : ImportMailModalModel) : Prop :=
  let w' :=
    snd (submitAuthentication K srv modalModel
                              {| model := modalModel; effects := [] |}) in
  step (model w') = PREPARE ->
  exists r silence Importer,
    In (ApiCall r silence (Returned (AnsImporter Importer))) (effects w')
    /\ importID (model w') = Importer.ID Importer
    /\ email (model w') = Importer.Email Importer
    /\ imap (model w') = Importer.ImapHost Importer
    /\ port (model w') = numberToString (Importer.ImapPort Importer).

(** *** Cancel *)

(** C5 as stated: the cancel handler closes at once exactly when the
    email is empty or the step is [STARTED], and otherwise shows the
    confirmation. *)
Definition cancelAsStated (props : Props) (modalModel : ImportMailModalModel)
  : Prop :=
  (performed (handleCancel props modalModel) modalModel = [OnClose]
   <-> (email modalModel = "" \/ step modalModel = STARTED))
  /\ (email modalModel <> "" /\ step modalModel <> STARTED ->
      performed (handleCancel props modalModel) modalModel
      = [CreateModal discardConfirmation]).

(** *** The import job *)

(** In the state reached by [evs], a non-empty [importID] comes with an
    import job on the server. *)
Definition importIDNeedsJob (K : Constants) (user : User) (props : Props)
           (evs : list Event) : Prop :=
  forall w0,
    mount K user props = Some w0 ->
    let w := runEvents K props evs w0 in
    truthy (importID (model (world w))) = true ->
    importJobExists props (effects (world w)) = true.

(** C6 as stated, second half: with a non-empty [importID], submitting
    the authentication sends no folder listing. *)
Definition skipsFolderDiscovery (K : Constants) (srv : Server)
           (modalModel : ImportMailModalModel) : Prop :=
  truthy (importID modalModel) = true ->
  existsb isFolderListing
          (performed (submitAuthentication K srv modalModel) modalModel)
  = false.

(** *** Relations between the worlds before and after a handler *)

(** [w'] has everything done in [w], and possibly more. *)
Definition extends (w w' : World) : Prop :=
  exists extra, effects w' = effects w ++ extra.

(** A handler created with [closure] leaves [importID] as it is, or has
    learnt the import job from the server, or had an [importID] in its
    closure already. *)
Definition keepsOrLearns (closure : ImportMailModalModel) (w w' : World)
  : Prop :=
  extends w w'
  /\ (truthy (importID (model w')) = true ->
      importID (model w') = importID (model w)
      \/ existsb namesImportJob (effects w') = true
      \/ truthy (importID closure) = true).

(** Every state the wizard has been in, if it has an [importID], has it
    for an import job known by now. *)
Definition importIDJustified (props : Props) (w : Wizard) : Prop :=
  forall m,
    In m (model (world w) :: rendered w) ->
    truthy (importID m) = true ->
    importJobExists props (effects (world w)) = true.

(** A new import on [sampleServer]: the email is entered and looked up, then
    the form is submitted. *)
Definition sampleRun : list Event :=
  [UserEdit {| newEmail := "user@example.org";
               newPassword := "secret";
               newImap := "";
               newPort := "";
               newSelectedPeriod := LAST_3_MONTHS;
               newPayload := payload (filledModel "");
               newIsPayloadInvalid := false |};
   EmailDebounced 0 "user@example.org" sampleServer;
   FormSubmit 0 sampleServer].

(** A wizard in step [START] after a failed authentication. *)
Definition failedOnceWizard : Wizard :=
  {| world := {| model := filledModel ""; effects := [] |};
     rendered := [] |}.

(** The wizard as it is mounted for a new import. *)
Definition newImportWizard : Wizard :=
  match mount sampleConstants sampleUser (newImportProps None) with
  | Some w => w
  | None => failedOnceWizard
  end.

End ImportMailSpec.

(** ** Further properties, stated *)

Module CalendarMoreSpec.
Import JS CalendarApi CalendarSpec.

Section Answers.
Context {CalendarEvent CALENDAR_TYPE ApiError : Type}.
Context (api : Api CalendarEvent CALENDAR_TYPE ApiError).

(** The events the server sends in answer to a request; none if it
    rejects. *)
Definition eventsOf (r : GetEventByUIDArguments CALENDAR_TYPE)
  : list CalendarEvent :=
  match api r with
  | Returned page => Events page
  | Thrown _ => []
  end.

(** The request is answered with a page of exactly 100 events. *)
Definition fullPage (r : GetEventByUIDArguments CALENDAR_TYPE) : Prop :=
  exists page,
    api r = Returned page /\ Z.of_nat (List.length (Events page)) = 100.
End Answers.

(** Pages that are all full except the last, whose length is anything but
    100 (shorter or longer). *)
Definition fullPagesThenOdd {CalendarEvent : Type}
           (pages : list (list CalendarEvent)) : Prop :=
  exists full odd,
    pages = full ++ [odd]
    /\ Forall (fun page => Z.of_nat (List.length page) = 100) full
    /\ Z.of_nat (List.length odd) <> 100.

(** Two full pages and a page of 130 events. *)
Definition pagesWithLongPage : list (list nat) :=
  [repeat 0%nat 100; repeat 1%nat 100; repeat 2%nat 130].

End CalendarMoreSpec.

Module ImportMailMoreSpec.
Import JS ImportMail ImportMailSpec ImportMailView.

(** The wizard state a handler leaves, when it starts with the state
    [current]. *)
Definition stateAfter {A : Type} (handler : M A)
           (current : ImportMailModalModel) : ImportMailModalModel :=
  model (snd (handler {| model := current; effects := [] |})).

(** How a handler completes, when it starts with the state [current]. *)
Definition outcome {A : Type} (handler : M A)
           (current : ImportMailModalModel) : Completion ApiError A :=
  fst (handler {| model := current; effects := [] |}).

Definition isApiCall (e : Effect) : bool :=
  match e with ApiCall _ _ _ => true | _ => false end.

Definition isConsoleError (e : Effect) : bool :=
  match e with ConsoleError _ _ => true | _ => false end.

Definition isOnClose (e : Effect) : bool :=
  match e with OnClose => true | _ => false end.

(** The requests among the effects, in order. *)
Definition requestsIn (effs : list Effect) : list Request :=
  flat_map (fun e => match e with ApiCall r _ _ => [r] | _ => [] end) effs.

(** The requests of a new import: fetching or creating the importer,
    listing its folders, starting the task. *)
Definition belongsToNewImport (r : Request) : bool :=
  match r with
  | getImport _ | getMailImportData _ _ | createImport _
  | startImportTask _ => true
  | _ => false
  end.

Definition stepRank (s : MailImportStep) : nat :=
  match s with
  | START => 0
  | PREPARE => 1
  | STARTED => 2
  end.

(** The event's handler runs with the current state as its closure. *)
Definition fresh (ev : Event) : bool :=
  match ev with
  | UserEdit _ => true
  | EmailDebounced age _ _ | FormSubmit age _ | CancelClick age =>
      Nat.eqb age 0
  end.

(** The create-import payload for the entered data. *)
Definition mailOf (modalModel : ImportMailModalModel) (allowSelfSigned : Z)
  : CreateImportPayload :=
  {| Account := email modalModel;
     CreateImapHost := imap modalModel;
     CreateImapPort := parseInt10 (port modalModel);
     CreateSasl := PLAIN;
     CreateCode := password modalModel;
     AllowSelfSigned := allowSelfSigned |}.

(** The state differs from [m] in [errorCode] and [errorLabel] at most. *)
Definition sameButError (m m' : ImportMailModalModel) : Prop :=
  step m' = step m
  /\ importID m' = importID m
  /\ email m' = email m
  /\ password m' = password m
  /\ imap m' = imap m
  /\ port m' = port m
  /\ providerFolders m' = providerFolders m
  /\ selectedPeriod m' = selectedPeriod m
  /\ payload m' = payload m
  /\ isPayloadInvalid m' = isPayloadInvalid m.

(** A server that refuses to create the import because it cannot verify
    the mail server, and one that rejects everything. *)
Definition unverifiedHost : ApiError :=
  {| data := present {| ErrorData.Code := 2900;
                        ErrorData.Error := "Cannot verify the mail server" |};
     message := "Unprocessable Content" |}.

Definition rejectingServer (e : ApiError) : Server :=
  {| onGetAuthenticationMethod := fun _ => Thrown e;
     onGetImport := fun _ => Thrown e;
     onGetMailImportData := fun _ _ => Thrown e;
     onCreateImport := fun _ => Thrown e;
     onStartImportTask := fun _ => Thrown e;
     onUpdateImport := fun _ _ => Thrown e;
     onResumeImport := fun _ => Thrown e;
     onCall := Thrown e |}.

(** The server rejects a request of [submitAuthentication], or the event
    manager's [call()], with [e]. *)
Definition rejectsWith (srv : Server) (e : ApiError) : Prop :=
  (exists id, onGetImport srv id = Thrown e)
  \/ (exists id code, onGetMailImportData srv id code = Thrown e)
  \/ (exists mail, onCreateImport srv mail = Thrown e)
  \/ onCall srv = Thrown e.

(** What a logged [error.data] stands for in the handler: the default of
    the destructuring when it is [undefined]. *)
Definition loggedOrDefault (logged : option ErrorData.t) : ErrorData.t :=
  match logged with
  | Some d => d
  | None => {| ErrorData.Code := 0; ErrorData.Error := "" |}
  end.

(** A state in step [PREPARE] with two of three folders chosen. *)
Definition preparedModel : ImportMailModalModel :=
  {| step := PREPARE;
     importID := "importer-1";
     email := "user@example.org";
     password := "secret";
     imap := "imap.example.org";
     port := "993";
     errorCode := 0;
     errorLabel := "";
     providerFolders := sampleFolders;
     selectedPeriod := LAST_3_MONTHS;
     payload :=
       {| Payload.AddressID := "address-1";
          Payload.Mapping :=
            [{| MailImportMapping.Source := "INBOX";
                MailImportMapping.Destinations := ["Inbox"];
                MailImportMapping.checked := true |};
             {| MailImportMapping.Source := "Bills";
                MailImportMapping.Destinations := ["Bills"];
                MailImportMapping.checked := false |};
             {| MailImportMapping.Source := "Travel";
                MailImportMapping.Destinations := ["Travel"];
                MailImportMapping.checked := true |}];
          Payload.CustomFields := 0;
          Payload.StartTime := Some 1700000000000 |};
     isPayloadInvalid := false |}.

(** The wizard as it is mounted to reconnect an import. *)
Definition reconnectWizard : Wizard :=
  match mount sampleConstants sampleUser reconnectProps with
  | Some w => w
  | None => failedOnceWizard
  end.

(** The wizard has always been in step [START] and has sent no request of
    a new import. *)
Definition staysInStart (w : Wizard) : Prop :=
  Forall (fun m => step m = START) (model (world w) :: rendered w)
  /\ Forall (fun r => belongsToNewImport r = false)
            (requestsIn (effects (world w))).

(** The value of a decimal numeral read from its most significant digit,
    started with [acc]. *)
Fixpoint readDigits (acc : Z) (d : Decimal.uint) : Z :=
  match d with
  | Decimal.Nil => acc
  | Decimal.D0 d => readDigits (10 * acc + 0) d
  | Decimal.D1 d => readDigits (10 * acc + 1) d
  | Decimal.D2 d => readDigits (10 * acc + 2) d
  | Decimal.D3 d => readDigits (10 * acc + 3) d
  | Decimal.D4 d => readDigits (10 * acc + 4) d
  | Decimal.D5 d => readDigits (10 * acc + 5) d
  | Decimal.D6 d => readDigits (10 * acc + 6) d
  | Decimal.D7 d => readDigits (10 * acc + 7) d
  | Decimal.D8 d => readDigits (10 * acc + 8) d
  | Decimal.D9 d => readDigits (10 * acc + 9) d
  end.

(** A sample of [isNumber]: a non-empty string of decimal digits. *)
Fixpoint allDigits (s : string) : bool :=
  match s with
  | EmptyString => true
  | String c rest =>
      match digitValue c with
      | Some _ => allDigits rest
      | None => false
      end
  end.

Definition sampleIsNumber (s : string) : bool :=
  truthy s && allDigits s.

End ImportMailMoreSpec.

Module DomainAddressStatusSpec.
Import JS DomainAddressStatus.

(** Sample values of the address constants. *)
Definition sampleAddressConstants : AddressConstants :=
  {| STATUS_DISABLED := 0;
     STATUS_ENABLED := 1;
     RECEIVE_YES := 1 |}.

End DomainAddressStatusSpec.

Module DriveCryptoSpec.
Import JS Async DriveCrypto.

Definition isNotification {K : Type} (c : Call (OpenPGPKey := K)) : bool :=
  match c with CreateNotification _ _ => true | _ => false end.

Definition isLookup {K : Type} (c : Call (OpenPGPKey := K)) : bool :=
  match c with GetAddresses | GetAddressKeys _ => true | _ => false end.

(** Sample: addresses are names, keys are numbers, odd keys are decrypted. *)
Definition sampleServices : Services (Address := string) (AddressKey := Z)
                                     (OpenPGPKey := Z) (Signature := string)
                                     (Rejection := unit) :=
  {| getAddresses := Returned ["disabled@example.org"; "user@example.org"];
     getAddressKeys := fun _ => Returned [3; 4];
     signMessage := fun payload _ => Returned ("signed:" ++ payload)%string |}.

Definition sampleActive (l : list string) : list string := tl l.

Definition samplePrimary (keys : list Z) : option (PrimaryKey (OpenPGPKey := Z)) :=
  match keys with
  | [] => None
  | k :: _ => Some {| privateKey := Some k; publicKey := Some (k + 1) |}
  end.

End DriveCryptoSpec.

Module EventImportSpec.
Import JS Async EventImport.

Section Reading.
Context {VEvent CalendarEvent CalendarSettings UpdateAction Others : Type}.
Let Call' := Call (VEvent := VEvent) (CalendarEvent := CalendarEvent)
                  (CalendarSettings := CalendarSettings)
                  (UpdateAction := UpdateAction) (Others := Others).

Definition isNotificationOf (t : NotificationType) (c : Call') : bool :=
  match c, t with
  | CreateNotification successNotification _, successNotification => true
  | CreateNotification errorNotification _, errorNotification => true
  | _, _ => false
  end.

Definition isAddEvents (c : Call') : bool :=
  match c with AddEvents _ _ => true | _ => false end.

Definition isPostMessage (c : Call') : bool :=
  match c with PostMessageToCalendar _ => true | _ => false end.

(** The models handed to [setModel], in order. *)
Definition modelsSet (calls : list Call')
  : list (InvitationModel (VEvent := VEvent) (CalendarEvent := CalendarEvent)
                          (CalendarSettings := CalendarSettings)
                          (UpdateAction := UpdateAction) (Others := Others)) :=
  flat_map (fun c => match c with SetModel m => [m] | _ => [] end) calls.

Definition count (f : Call' -> bool) (calls : list Call') : nat :=
  List.length (filter f calls).
End Reading.

(** The calendar the model can add to, if there is one and it is not
    disabled. *)
Definition usableCalendar {VEvent CalendarEvent CalendarSettings UpdateAction
                           Others : Type}
           (model : InvitationModel (VEvent := VEvent)
                                    (CalendarEvent := CalendarEvent)
                                    (CalendarSettings := CalendarSettings)
                                    (UpdateAction := UpdateAction)
                                    (Others := Others))
  : option Calendar :=
  match calendarData model with
  | Some data => if isCalendarDisabled data then None else calendar data
  | None => None
  end.

(** Sample: events and calendar events are names, settings a number of
    minutes. *)
Definition sampleInvitation
  : InvitationModel (VEvent := string) (CalendarEvent := string)
                    (CalendarSettings := Z) (UpdateAction := bool)
                    (Others := unit) :=
  {| calendarData :=
       Some {| calendar := Some {| ID := "calendar-1" |};
               isCalendarDisabled := false;
               calendarSettings := Some 15 |};
     invitationIcsVevent := "party";
     error := Some "could not load";
     invitationApi := None;
     hideSummary := false;
     hideLink := true;
     updateAction := true;
     others := tt |}.

Definition sampleAlarms (vevent : string) (minutes : Z) : string :=
  (vevent ++ " with alarm")%string.

(** A server that imports every event it is given. *)
Definition sampleAddEvents (events : list string) (calendarID : string)
  : Completion unit (AddEventsResult (CalendarEvent := string)
                                     (VEvent := string)
                                     (ImportError := string)) :=
  Returned
    {| importedEvents :=
         map (fun v => {| responseEvent := (calendarID ++ "/" ++ v)%string;
                          component := v |})
             events;
       importErrors := [] |}.

End EventImportSpec.

(** ** Proofs for the calendar helpers *)

Module CalendarFacts.
Import JS CalendarApi CalendarSpec.

Section PaginationFacts.
Context {CalendarEvent CALENDAR_TYPE ApiError : Type}.
Context (api : Api CalendarEvent CALENDAR_TYPE ApiError).
Context (uid : string) (recurrenceID : option Z)
        (calendarType : option CALENDAR_TYPE).

Let params := pageParams uid recurrenceID calendarType.
Let loop := paginate api uid recurrenceID calendarType.

(** One turn of the [while] loop. *)
Lemma paginate_step mx p result sent :
  loop mx p result sent =
  if p <? mx then
    match api (params p) with
    | Thrown e =>
        {| completion := Thrown e; requests := sent ++ [params p] |}
    | Returned page =>
        if negb (Z.of_nat (List.length (Events page)) =? pageSize)
        then {| completion := Returned (result ++ Events page);
                requests := sent ++ [params p] |}
        else loop mx (p + 1) (result ++ Events page) (sent ++ [params p])
    end
  else {| completion := Returned result; requests := sent |}.
Proof.
  subst loop params. simp paginate.
  destruct (Z_lt_dec p mx) as [H|H]; cbn.
  - destruct (Z.ltb_spec p mx); [|lia].
    destruct (api _); reflexivity.
  - destruct (Z.ltb_spec p mx); [lia|]. reflexivity.
Qed.

(** Induction on the number of turns that are left before [mx]. *)
Lemma turns_left_ind (P : Z -> Z -> Prop) :
  (forall mx p, (forall q, p < q <= mx -> P mx q) -> P mx p) ->
  forall mx p, P mx p.
Proof.
  intros turn mx p.
  remember (Z.to_nat (mx - p)) as n eqn:Hn.
  revert p Hn. induction n as [n IH] using lt_wf_ind. intros p Hn.
  apply turn. intros q Hq.
  apply (IH (Z.to_nat (mx - q))); [lia | reflexivity].
Qed.

Lemma paginate_requests_bound mx p result sent :
  (List.length (requests (loop mx p result sent))
   <= List.length sent + Z.to_nat (mx - p))%nat.
Proof.
  revert result sent. pattern mx, p. apply turns_left_ind. clear mx p.
  intros mx p IH result sent.
  rewrite paginate_step.
  destruct (Z.ltb_spec p mx) as [Hlt|Hge]; cbn; [|lia].
  destruct (api (params p)) as [page|e]; cbn.
  - destruct (negb _); cbn.
    + rewrite length_app; cbn; lia.
    + specialize (IH (p + 1) ltac:(lia) (result ++ Events page)
                     (sent ++ [params p])).
      rewrite length_app in IH; cbn in IH. lia.
  - rewrite length_app; cbn; lia.
Qed.

(** A rejected request ends the loop with the same rejection. *)
Lemma paginate_thrown mx p result sent r e :
  (forall r', In r' sent -> forall e', api r' <> Thrown e') ->
  In r (requests (loop mx p result sent)) ->
  api r = Thrown e ->
  completion (loop mx p result sent) = Thrown e.
Proof.
  revert result sent. pattern mx, p. apply turns_left_ind. clear mx p.
  intros mx p IH result sent Hsent Hin Hr.
  rewrite paginate_step in Hin |- *.
  destruct (Z.ltb_spec p mx) as [Hlt|Hge]; cbn in *.
  2:{ exfalso. exact (Hsent r Hin e Hr). }
  destruct (api (params p)) as [page|e0] eqn:Hp; cbn in *.
  - assert (Hsent' : forall r', In r' (sent ++ [params p]) ->
                                forall e', api r' <> Thrown e').
    { intros r' Hr' e'. apply in_app_or in Hr'.
      destruct Hr' as [Hr'|[<-|[]]].
      - now apply Hsent.
      - rewrite Hp. discriminate. }
    destruct (negb _); cbn in *.
    + exfalso. exact (Hsent' r Hin e Hr).
    + apply (IH (p + 1) ltac:(lia) _ _ Hsent' Hin Hr).
  - apply in_app_or in Hin. destruct Hin as [Hin|[<-|[]]].
    + exfalso. exact (Hsent r Hin e Hr).
    + congruence.
Qed.

(** A rejection of the loop is the rejection of one of its requests. *)
Lemma paginate_thrown_inv mx p result sent e :
  completion (loop mx p result sent) = Thrown e ->
  exists r, In r (requests (loop mx p result sent)) /\ api r = Thrown e.
Proof.
  revert result sent. pattern mx, p. apply turns_left_ind. clear mx p.
  intros mx p IH result sent.
  rewrite paginate_step.
  destruct (Z.ltb_spec p mx) as [Hlt|Hge]; cbn; [|discriminate].
  destruct (api (params p)) as [page|e0] eqn:Hp; cbn.
  - destruct (negb _); cbn; [discriminate|].
    apply IH. lia.
  - intros [= ->]. exists (params p).
    split; [apply in_or_app; right; now left | exact Hp].
Qed.

(** Full pages up to a short one, all below the cap, are read through. *)
Lemma paginate_full_pages mx full short :
  Forall (fun page => Z.of_nat (List.length page) = 100) full ->
  Z.of_nat (List.length short) < 100 ->
  forall k result sent,
    (forall i page, nth_error (full ++ [short]) i = Some page ->
       api (params (Z.of_nat (k + i))) = Returned {| Events := page |}) ->
    Z.of_nat (k + List.length full) < mx ->
    loop mx (Z.of_nat k) result sent =
    {| completion := Returned (result ++ List.concat (full ++ [short]));
       requests :=
         sent ++ map (fun i => params (Z.of_nat i))
                     (seq k (S (List.length full))) |}.
Proof.
  intros Hfull Hshort.
  induction Hfull as [|page full Hpage Hfull IH];
    intros k result sent Hserve Hcap;
    cbn [List.length app List.concat] in *.
  - rewrite paginate_step.
    destruct (Z.ltb_spec (Z.of_nat k) mx); [|lia].
    rewrite <- (Nat.add_0_r k) at 1.
    rewrite (Hserve 0%nat short eq_refl).
    cbn [Events]. unfold pageSize.
    destruct (Z.eqb_spec (Z.of_nat (List.length short)) 100); [lia|].
    cbn. now rewrite app_nil_r.
  - rewrite paginate_step.
    destruct (Z.ltb_spec (Z.of_nat k) mx); [|lia].
    rewrite <- (Nat.add_0_r k) at 1.
    rewrite (Hserve 0%nat page eq_refl).
    cbn [Events]. unfold pageSize.
    destruct (Z.eqb_spec (Z.of_nat (List.length page)) 100); [|lia].
    cbn [negb].
    replace (Z.of_nat k + 1) with (Z.of_nat (S k)) by lia.
    rewrite IH.
    + rewrite <- !app_assoc. reflexivity.
    + intros i pg Hi. replace (S k + i)%nat with (k + S i)%nat by lia.
      now apply Hserve.
    + lia.
Qed.
End PaginationFacts.

Lemma fullPagesThenShort_pages101 : fullPagesThenShort pages101.
Proof.
  exists (repeat (repeat 0%nat 100) 100), [1%nat].
  split; [reflexivity|]. split.
  - apply Forall_forall. intros page Hin. apply repeat_spec in Hin.
    subst page. now rewrite repeat_length.
  - reflexivity.
Qed.

Lemma serves_apiOfPages {Ev} CT Err uid rec ct (pages : list (list Ev)) :
  serves CT Err (apiOfPages CT Err pages) uid rec ct pages.
Proof.
  intros k page Hk. unfold apiOfPages. cbn [Page pageParams].
  rewrite Nat2Z.id. now rewrite (nth_error_nth _ _ _ Hk).
Qed.

(** With the default cap, 100 full pages followed by a page of one event
    yield 100 requests and the 10000 events of the full pages. *)
Example fetch_of_pages101 :
  let run :=
    getPaginatedEventsByUID (apiOfPages unit unit pages101) "uid" None None
                            None in
  returnedCount (completion run) = 10000
  /\ Z.of_nat (List.length (requests run)) = 100
  /\ Z.of_nat (List.length (List.concat pages101)) = 10001.
Proof. vm_compute. repeat split. Qed.

(** C1, as stated, fails: the pages [pages101] are 100 full pages and a
    short one, the server serves them, and the call (default cap) does not
    return their concatenation: the 101st page is never asked for. *)
Lemma fetch_misses_page_beyond_cap :
  fullPagesThenShort pages101
  /\ ~ fetchesAllPages unit unit None pages101.
Proof.
  split; [exact fullPagesThenShort_pages101|].
  intros H.
  destruct (H (apiOfPages unit unit pages101) "uid" None None
              (serves_apiOfPages _ _ _ _ _ _)) as [Hc _].
  apply (f_equal returnedCount) in Hc.
  vm_compute in Hc. discriminate Hc.
Qed.

(** C1, amended: for every sequence of pages in which every page before
    the last holds exactly 100 events and the last fewer than 100, and
    which has no more pages than the iteration cap ([max], 100 by default),
    [getPaginatedEventsByUID] returns the concatenation of all pages'
    events in request order, and its requests are those for the pages up
    to the first short one, in order. *)
Theorem fetch_concatenates_pages_within_cap
        {CalendarEvent : Type} (CALENDAR_TYPE ApiError : Type)
        (max : option Z) (pages : list (list CalendarEvent)) :
  fullPagesThenShort pages ->
  Z.of_nat (List.length pages) <= maxOrDefault max ->
  fetchesAllPages CALENDAR_TYPE ApiError max pages.
Proof.
  intros (full & short & -> & Hfull & Hshort) Hcap api uid rec ct Hserve run.
  subst run. unfold getPaginatedEventsByUID.
  rewrite length_app in *. cbn [List.length] in *.
  change 0 with (Z.of_nat 0).
  rewrite (paginate_full_pages api uid rec ct _ full short Hfull Hshort).
  - cbn [completion requests app]. split; [reflexivity|].
    unfold pageRequests. now rewrite Nat.add_1_r.
  - intros i page Hi. now apply Hserve.
  - lia.
Qed.

Lemma fetch_concatenates_pages_within_cap_witness :
  fetchesAllPages unit unit None pages3.
Proof.
  apply fetch_concatenates_pages_within_cap.
  - exists [repeat 0%nat 100; repeat 1%nat 100], [2%nat; 3%nat; 4%nat].
    split; [reflexivity|].
    split; [repeat constructor | reflexivity].
  - vm_compute. discriminate.
Defined.

(** C3, as stated, fails: a caller that passes [max = 101] to a server that
    always answers with a full page gets 101 page requests sent. *)
Lemma fetch_with_larger_cap_sends_more :
  ~ sendsAtMost100 alwaysFullApi "uid" None (Some 101) None.
Proof.
  unfold sendsAtMost100. intros H. apply Z.leb_le in H.
  vm_compute in H. discriminate H.
Qed.

(** C3, amended: whatever the server answers (pages of any length,
    rejections), a call of [getPaginatedEventsByUID] whose cap [max] is an
    integer (the cap the caller passes, and 100 when the caller passes
    none) sends at most [max] page requests, and none at all when [max] is
    zero or negative; with the default cap these are at most 100.  Such a
    call always completes: [paginate] is defined by well-founded recursion
    on the turns left below the cap, so that [getPaginatedEventsByUID] is a
    total function. *)
Theorem fetch_sends_at_most_max_requests
        {CalendarEvent CALENDAR_TYPE ApiError : Type}
        (api : Api CalendarEvent CALENDAR_TYPE ApiError) (uid : string)
        (recurrenceID : option Z) (max : option Z)
        (calendarType : option CALENDAR_TYPE) :
  Z.of_nat
    (List.length
       (requests
          (getPaginatedEventsByUID api uid recurrenceID max calendarType)))
  <= Z.max 0 (maxOrDefault max)
  /\ maxOrDefault None = 100
  /\ sendsAtMost100 api uid recurrenceID None calendarType.
Proof.
  unfold sendsAtMost100, getPaginatedEventsByUID.
  pose proof (paginate_requests_bound api uid recurrenceID calendarType
                (maxOrDefault max) 0 [] []) as H.
  pose proof (paginate_requests_bound api uid recurrenceID calendarType
                (maxOrDefault None) 0 [] []) as H0.
  cbn [List.length maxOrDefault] in *. unfold MAX_ITERATIONS in *.
  repeat split; lia.
Qed.

(** C8: if a page request of [getPaginatedEventsByUID] is rejected, the
    call is rejected with exactly that error and returns no events; and a
    rejection of the call is always the rejection of one of its own
    requests. *)
Theorem fetch_failure_propagates
        {CalendarEvent CALENDAR_TYPE ApiError : Type}
        (api : Api CalendarEvent CALENDAR_TYPE ApiError) (uid : string)
        (recurrenceID : option Z) (max : option Z)
        (calendarType : option CALENDAR_TYPE) (e : ApiError) :
  let run := getPaginatedEventsByUID api uid recurrenceID max calendarType in
  ((exists r, In r (requests run) /\ api r = Thrown e) ->
   completion run = Thrown e
   /\ forall events, completion run <> Returned events)
  /\ (completion run = Thrown e ->
      exists r, In r (requests run) /\ api r = Thrown e).
Proof.
  unfold getPaginatedEventsByUID. split.
  - intros (r & Hin & Hr).
    assert (Hc := paginate_thrown api uid recurrenceID calendarType
                    (maxOrDefault max) 0 [] [] r e
                    (fun _ (F : In _ []) => match F with end) Hin Hr).
    split; [exact Hc|]. intros events. rewrite Hc. discriminate.
  - apply paginate_thrown_inv.
Qed.

Lemma fetch_failure_propagates_witness :
  completion (getPaginatedEventsByUID failingApi "uid" None None None)
  = Thrown 503.
Proof.
  apply (proj1 (fetch_failure_propagates failingApi "uid" None None None
                                          503)).
  exists (pageParams "uid" None None 1).
  split; [right; left; reflexivity | reflexivity].
Defined.

(** *** [reformatApiErrorMessage] *)

Lemma toLowerCase_append a b :
  toLowerCase (a ++ b)%string = (toLowerCase a ++ toLowerCase b)%string.
Proof. induction a as [|c a IH]; cbn; [reflexivity | now rewrite IH]. Qed.

Lemma toLowerCase_length s : String.length (toLowerCase s) = String.length s.
Proof. induction s as [|c s IH]; cbn; [reflexivity | now rewrite IH]. Qed.

Lemma append_length a b :
  String.length (a ++ b)%string = (String.length a + String.length b)%nat.
Proof. induction a as [|c a IH]; cbn; [reflexivity | now rewrite IH]. Qed.

Lemma substring_all s : substring 0 (String.length s) s = s.
Proof. induction s as [|c s IH]; cbn; [reflexivity | now rewrite IH]. Qed.

Lemma substring_append_tail p t :
  substring (String.length p) (String.length t) (p ++ t)%string = t.
Proof. induction p as [|c p IH]; cbn; [apply substring_all | exact IH]. Qed.

Lemma substring_append_head p t :
  substring 0 (String.length p) (p ++ t)%string = p.
Proof.
  induction p as [|c p IH]; cbn.
  - destruct t; reflexivity.
  - now rewrite IH.
Qed.

Lemma substring_split s n :
  (n <= String.length s)%nat ->
  s = (substring 0 n s ++ substring n (String.length s - n) s)%string.
Proof.
  revert n. induction s as [|c s IH]; intros n Hn; cbn in *.
  - destruct n; [reflexivity | lia].
  - destruct n as [|n]; cbn.
    + now rewrite substring_all.
    + f_equal. apply IH. lia.
Qed.

Lemma substring_length s n m :
  (n + m <= String.length s)%nat -> String.length (substring n m s) = m.
Proof.
  revert n m. induction s as [|c s IH]; intros n m H; cbn in *.
  - destruct n, m; cbn; lia.
  - destruct n as [|n].
    + destruct m as [|m]; cbn; [reflexivity|]. rewrite IH; lia.
    + apply IH. lia.
Qed.

(** The test of the code is the case-insensitive suffix test. *)
Lemma endsWith_toLowerCase message suffix :
  endsWith (toLowerCase message) suffix = true
  <-> endsWithIgnoringCase message suffix.
Proof.
  unfold endsWith, endsWithIgnoringCase. rewrite toLowerCase_length. split.
  - intros H. apply andb_prop in H. destruct H as [Hle Heq].
    apply Nat.leb_le in Hle. apply String.eqb_eq in Heq.
    set (n := (String.length message - String.length suffix)%nat) in *.
    exists (substring 0 n message),
           (substring n (String.length message - n) message).
    split; [apply substring_split; lia|].
    pose proof (substring_split message n ltac:(lia)) as Hs.
    rewrite Hs in Heq at 1. rewrite toLowerCase_append in Heq.
    assert (Hn : n = String.length (toLowerCase (substring 0 n message))).
    { rewrite toLowerCase_length, substring_length; lia. }
    assert (Hk : String.length suffix
                 = String.length
                     (toLowerCase
                        (substring n (String.length message - n) message))).
    { rewrite toLowerCase_length, substring_length; lia. }
    rewrite Hn in Heq at 1. rewrite Hk in Heq at 1.
    rewrite substring_append_tail in Heq. exact Heq.
  - intros (prefix & tail & -> & <-).
    rewrite append_length, toLowerCase_length.
    apply andb_true_intro. split; [apply Nat.leb_le; lia|].
    apply String.eqb_eq.
    replace (String.length prefix + String.length tail
             - String.length tail)%nat
      with (String.length (toLowerCase prefix))
      by (rewrite toLowerCase_length; lia).
    rewrite toLowerCase_append.
    rewrite <- (toLowerCase_length tail) at 1.
    apply substring_append_tail.
Qed.

Lemma slice_drops_last_18 prefix tail :
  String.length tail = 18%nat ->
  slice (prefix ++ tail)%string 0 (-18) = prefix.
Proof.
  intros Ht. unfold slice, relativeIndex.
  rewrite append_length, Ht. cbn [Z.ltb Z.compare].
  replace (Z.to_nat (Z.min 0 _)) with 0%nat by lia.
  replace (Z.to_nat _) with (String.length prefix) by lia.
  apply substring_append_head.
Qed.

(** C9: for every string that ends, letter case ignored, with the
    18-character suffix [". please try again"],
    [reformatApiErrorMessage] returns the string without its last 18
    characters; for every other string it returns the input unchanged. *)
Theorem reformatApiErrorMessage_drops_suffix (message : string) :
  String.length suffixToDrop = 18%nat
  /\ (endsWithIgnoringCase message suffixToDrop ->
      exists prefix tail,
        message = (prefix ++ tail)%string
        /\ String.length tail = 18%nat
        /\ reformatApiErrorMessage message = prefix)
  /\ (~ endsWithIgnoringCase message suffixToDrop ->
      reformatApiErrorMessage message = message).
Proof.
  unfold reformatApiErrorMessage. split; [reflexivity|]. split.
  - intros H. pose proof H as (prefix & tail & -> & Ht).
    apply endsWith_toLowerCase in H. rewrite H.
    assert (Hl : String.length tail = 18%nat).
    { rewrite <- toLowerCase_length, Ht. reflexivity. }
    exists prefix, tail. repeat split; [exact Hl|].
    now apply slice_drops_last_18.
  - intros H. destruct (endsWith _ _) eqn:E; [|reflexivity].
    exfalso. apply H. now apply endsWith_toLowerCase.
Qed.

Lemma reformatApiErrorMessage_drops_suffix_witness :
  exists prefix tail,
    "Network error. Please TRY again" = (prefix ++ tail)%string
    /\ String.length tail = 18%nat
    /\ reformatApiErrorMessage "Network error. Please TRY again" = prefix.
Proof.
  apply (proj1 (proj2 (reformatApiErrorMessage_drops_suffix
                         "Network error. Please TRY again"))).
  exists "Network error", ". Please TRY again".
  split; reflexivity.
Defined.

Example reformatApiErrorMessage_examples :
  reformatApiErrorMessage "Network error. Please TRY again" = "Network error"
  /\ reformatApiErrorMessage "Network error. Try later" = "Network error. Try later"
  /\ reformatApiErrorMessage ". please try again" = "".
Proof. repeat split. Qed.

End CalendarFacts.

(** ** Proofs for the import wizard *)

Module ImportMailFacts.
Import JS ImportMail ImportMailSpec.

(** *** Truthiness and membership tests *)

Lemma truthy_false_iff s : truthy s = false <-> s = "".
Proof. unfold truthy. rewrite negb_false_iff. apply String.eqb_eq. Qed.

Lemma truthy_true_iff s : truthy s = true <-> s <> "".
Proof. unfold truthy. rewrite negb_true_iff. apply String.eqb_neq. Qed.

Lemma truthy_orElse_empty s : truthy (orElse s "") = truthy s.
Proof. unfold orElse. destruct (truthy s) eqn:E; [exact E | reflexivity]. Qed.

Lemma stepEqb_eq a b : stepEqb a b = true <-> a = b.
Proof. destruct a, b; cbn; split; congruence. Qed.

Lemma includes_In l x : includes l x = true <-> In x l.
Proof.
  unfold includes. rewrite existsb_exists. split.
  - intros (y & Hy & E). apply Z.eqb_eq in E. now subst.
  - intros H. exists x. split; [exact H | apply Z.eqb_refl].
Qed.

(** *** The comparator and the sort *)

Lemma ascii_compare_lt_trans a b c :
  Ascii.compare a b = Lt -> Ascii.compare b c = Lt -> Ascii.compare a c = Lt.
Proof. unfold Ascii.compare. rewrite !N.compare_lt_iff. lia. Qed.

Lemma string_leb_trans a b c :
  String.leb a b = true -> String.leb b c = true -> String.leb a c = true.
Proof.
  unfold String.leb. revert b c.
  induction a as [|x a IH]; intros [|y b] [|z c]; cbn; try easy.
  destruct (Ascii.compare x y) eqn:Exy; try easy;
    destruct (Ascii.compare y z) eqn:Eyz; try easy.
  - apply Ascii.compare_eq_iff in Exy, Eyz. subst.
    assert (E : Ascii.compare z z = Eq)
      by (unfold Ascii.compare; apply N.compare_refl).
    rewrite E. apply IH.
  - apply Ascii.compare_eq_iff in Exy. subst. now rewrite Eyz.
  - apply Ascii.compare_eq_iff in Eyz. subst. now rewrite Exy.
  - now rewrite (ascii_compare_lt_trans _ _ _ Exy Eyz).
Qed.

(** Between two folders without destination the comparator is the order
    of the [Source] names. *)
Lemma compare_without_destination x y :
  hasDestination x = false -> hasDestination y = false ->
  (destinationFoldersFirst x y <=? 0)
  = String.leb (ImportedMailFolder.Source x) (ImportedMailFolder.Source y).
Proof.
  intros Hx Hy. unfold destinationFoldersFirst, String.leb, String.ltb.
  rewrite Hx, Hy. cbn.
  rewrite (String.compare_antisym (ImportedMailFolder.Source x)
                                  (ImportedMailFolder.Source y)).
  destruct (String.compare (ImportedMailFolder.Source y)
                           (ImportedMailFolder.Source x)); reflexivity.
Qed.

Lemma insertSorted_with_destination x l :
  hasDestination x = true ->
  insertSorted destinationFoldersFirst x l = x :: l.
Proof.
  intros Hx. destruct l as [|y l]; cbn; [reflexivity|].
  unfold destinationFoldersFirst. rewrite Hx.
  destruct (hasDestination y); reflexivity.
Qed.

Lemma insertSorted_past_destinations x D N :
  hasDestination x = false ->
  Forall (fun f => hasDestination f = true) D ->
  insertSorted destinationFoldersFirst x (D ++ N)
  = D ++ insertSorted destinationFoldersFirst x N.
Proof.
  intros Hx HD. induction HD as [|d D Hd HD IH]; cbn; [reflexivity|].
  unfold destinationFoldersFirst at 1. rewrite Hx, Hd. cbn. now rewrite IH.
Qed.

Lemma Forall_withDestination l :
  Forall (fun f => hasDestination f = true) (withDestination l).
Proof. apply Forall_forall. intros f Hf. now apply filter_In in Hf. Qed.

Lemma Forall_withoutDestination l :
  Forall (fun f => hasDestination f = false) (withoutDestination l).
Proof.
  apply Forall_forall. intros f Hf. apply filter_In in Hf.
  now apply negb_true_iff.
Qed.

(** The sorted array: the folders with destination as they came, then the
    others sorted among themselves. *)
Lemma sort_split l :
  sort destinationFoldersFirst l
  = withDestination l ++ sort destinationFoldersFirst (withoutDestination l).
Proof.
  induction l as [|x l IH]; cbn; [reflexivity|].
  rewrite IH. destruct (hasDestination x) eqn:Hx; cbn.
  - now apply insertSorted_with_destination.
  - apply insertSorted_past_destinations;
      [exact Hx | apply Forall_withDestination].
Qed.

Lemma insertSorted_perm {A} (cmp : A -> A -> Z) x l :
  Permutation (x :: l) (insertSorted cmp x l).
Proof.
  induction l as [|y l IH]; cbn; [reflexivity|].
  destruct (cmp x y <=? 0); [reflexivity|].
  rewrite perm_swap. now constructor.
Qed.

Lemma sort_perm {A} (cmp : A -> A -> Z) l : Permutation l (sort cmp l).
Proof.
  induction l as [|x l IH]; cbn; [reflexivity|].
  rewrite <- insertSorted_perm. now constructor.
Qed.

Lemma insertSorted_sorted x l :
  hasDestination x = false ->
  Forall (fun f => hasDestination f = false) l ->
  StronglySorted sourceLe l ->
  StronglySorted sourceLe (insertSorted destinationFoldersFirst x l).
Proof.
  intros Hx Hl Hs. induction Hs as [|y l Hs IH Hy]; cbn.
  - constructor; constructor.
  - inversion Hl as [|? ? Hy0 Hl']; subst.
    rewrite (compare_without_destination x y Hx Hy0).
    destruct (String.leb _ _) eqn:E.
    + constructor; [now constructor|]. constructor; [exact E|].
      eapply Forall_impl; [|exact Hy]. intros z Hz. unfold sourceLe in *.
      eapply string_leb_trans; eassumption.
    + constructor; [now apply IH|].
      eapply Permutation_Forall; [apply insertSorted_perm|].
      constructor; [|exact Hy].
      unfold sourceLe.
      destruct (String.leb_total (ImportedMailFolder.Source x)
                                 (ImportedMailFolder.Source y)); congruence.
Qed.

Lemma sort_sorted l :
  Forall (fun f => hasDestination f = false) l ->
  StronglySorted sourceLe (sort destinationFoldersFirst l).
Proof.
  induction 1 as [|x l Hx Hl IH]; cbn; [constructor|].
  apply insertSorted_sorted; [exact Hx| |exact IH].
  eapply Permutation_Forall; [apply sort_perm | exact Hl].
Qed.

Lemma StronglySorted_nth_error {A} (R : A -> A -> Prop) l :
  StronglySorted R l ->
  forall i j a b,
    (i < j)%nat -> nth_error l i = Some a -> nth_error l j = Some b ->
    R a b.
Proof.
  induction 1 as [|x l Hs IH Hx]; intros i j a b Hij Hi Hj.
  - destruct i; discriminate.
  - destruct j as [|j]; [lia|]. cbn in Hj. destruct i as [|i]; cbn in Hi.
    + injection Hi as <-. rewrite Forall_forall in Hx. apply Hx.
      eapply nth_error_In; eassumption.
    + apply (IH i j); [lia|assumption|assumption].
Qed.

Lemma destinationsFirst_app D N :
  Forall (fun f => hasDestination f = true) D ->
  Forall (fun f => hasDestination f = false) N ->
  destinationsFirst (D ++ N).
Proof.
  intros HD HN i j a b Hi Hj Ha Hb.
  rewrite Forall_forall in HD, HN.
  destruct (Nat.lt_ge_cases j (List.length D)) as [Hjl|Hjl].
  - rewrite nth_error_app1 in Hj by exact Hjl. apply nth_error_In in Hj.
    rewrite (HD _ Hj) in Hb. discriminate.
  - destruct (Nat.lt_ge_cases i (List.length D)) as [Hil|Hil]; [lia|].
    rewrite nth_error_app2 in Hi by exact Hil. apply nth_error_In in Hi.
    rewrite (HN _ Hi) in Ha. discriminate.
Qed.

Lemma filter_all {A} (f : A -> bool) l :
  Forall (fun x => f x = true) l -> filter f l = l.
Proof.
  induction 1 as [|x l Hx _ IH]; cbn; [reflexivity|]. now rewrite Hx, IH.
Qed.

Lemma filter_none {A} (f : A -> bool) l :
  Forall (fun x => f x = false) l -> filter f l = [].
Proof.
  induction 1 as [|x l Hx _ IH]; cbn; [reflexivity|]. now rewrite Hx, IH.
Qed.

(** What the sort does with [sampleFolders]. *)
Example sort_sampleFolders :
  map ImportedMailFolder.Source (sort destinationFoldersFirst sampleFolders)
  = ["Sent"; "INBOX"; "Archive"; "Bills"; "Travel"].
Proof. reflexivity. Qed.

(** C2, as stated, fails: after the sort of [sampleFolders] the folders
    with a destination are ["Sent"] and then ["INBOX"], which is not
    ascending. *)
Lemma sorted_destinations_not_ascending :
  ~ orderedAsStated (sort destinationFoldersFirst sampleFolders).
Proof.
  intros (_ & H & _).
  specialize (H 0%nat 1%nat (folder "Sent" (Some "Sent"))
                (folder "INBOX" (Some "Inbox")) ltac:(lia) eq_refl eq_refl).
  discriminate H.
Qed.

(** C2, amended: for every list of folders, the list sorted with
    [destinationFoldersFirst] holds the same folders; every folder with a
    destination precedes every folder without one; the folders with a
    destination keep the order they had before the sort; and the folders
    without a destination are in ascending order of their [Source]. *)
Theorem sort_destinations_first (l : list ImportedMailFolder.t) :
  let sorted := sort destinationFoldersFirst l in
  Permutation l sorted
  /\ destinationsFirst sorted
  /\ withDestination sorted = withDestination l
  /\ ascendingBySource (withoutDestination sorted).
Proof.
  intros sorted. subst sorted.
  assert (HN : Forall (fun f => hasDestination f = false)
                      (sort destinationFoldersFirst (withoutDestination l))).
  { eapply Permutation_Forall;
      [apply sort_perm | apply Forall_withoutDestination]. }
  split; [apply sort_perm|].
  rewrite sort_split. split; [|split].
  - apply destinationsFirst_app; [apply Forall_withDestination | exact HN].
  - unfold withDestination at 1. rewrite filter_app.
    rewrite (filter_all _ _ (Forall_withDestination l)).
    rewrite (filter_none _ _ HN). apply app_nil_r.
  - unfold withoutDestination at 1. rewrite filter_app.
    rewrite filter_none, filter_all; cbn.
    + unfold ascendingBySource. apply (StronglySorted_nth_error sourceLe).
      apply sort_sorted. apply Forall_withoutDestination.
    + eapply Forall_impl; [|exact HN]. intros f Hf. now rewrite Hf.
    + eapply Forall_impl; [|apply Forall_withDestination].
      intros f Hf. now rewrite Hf.
Qed.

Lemma sort_destinations_first_witness :
  sourceLe (folder "Archive" None) (folder "Travel" None).
Proof.
  apply (proj2 (proj2 (proj2 (sort_destinations_first sampleFolders)))
               0%nat 2%nat);
    [lia | reflexivity | reflexivity].
Defined.

(** *** The error handler of the start step *)

(** C4: for every error that the authentication or folder-listing
    submission catches and whose [data] is an object or missing (the
    [Code] 0 and the text [''] then stand in): if the [Code] is
    [AUTHENTICATION_ERROR], [IMAP_CONNECTION_ERROR] or
    [RATE_LIMIT_EXCEEDED], the wizard state gets that [Code] as [errorCode]
    and the error text of the data as [errorLabel], every other field stays
    as it is, and the generic error handler is not called (the data is
    only logged to the console); for every other [Code] the wizard state is
    unchanged and the error is passed to the generic error handler.  For an
    error whose [data] is [null] the handler does neither: it throws a
    [TypeError] before anything is logged, with the state unchanged and the
    generic error handler not called. *)
Theorem handleSubmitStartError_two_tiers
        (K : Constants) (error : ApiError) (w : World) :
  (forall d logged,
      (data error = present d /\ logged = Some d)
      \/ (data error = undefined /\ logged = None
          /\ d = {| ErrorData.Code := 0; ErrorData.Error := "" |}) ->
      let console := ConsoleError "Import Connection Error" logged in
      (isKnownError K (ErrorData.Code d) ->
       handleSubmitStartError K error w
       = (Returned tt,
          {| model := withError (ErrorData.Code d) (ErrorData.Error d)
                                (model w);
             effects := effects w ++ [console] |}))
      /\ (~ isKnownError K (ErrorData.Code d) ->
          handleSubmitStartError K error w
          = (Returned tt,
             {| model := model w;
                effects := effects w ++ [console; ErrorHandler error] |})))
  /\ (data error = null ->
      handleSubmitStartError K error w = (Thrown cannotDestructureNull, w)).
Proof.
  unfold handleSubmitStartError, destructureError, errorDataOrDefault,
    loggedData, bind, ret, throw, emit, setModalModel, withError.
  split.
  - intros d logged Hd.
    assert (E : data error = present d /\ logged = Some d
                \/ data error = undefined /\ logged = None
                   /\ d = {| ErrorData.Code := 0; ErrorData.Error := "" |})
      by exact Hd.
    clear Hd. cbv zeta.
    assert (Hk : includes (knownErrors K) (ErrorData.Code d) = true
                 <-> isKnownError K (ErrorData.Code d)).
    { rewrite includes_In. unfold knownErrors, isKnownError. cbn.
      intuition congruence. }
    destruct E as [[-> ->] | (-> & -> & ->)]; cbn [fst snd model effects].
    + destruct (includes (knownErrors K) (ErrorData.Code d)) eqn:Ei.
      * split; [reflexivity|]. intros H. exfalso. apply H, Hk. reflexivity.
      * split; [intros H; apply Hk in H; discriminate H|].
        intros _. cbn [model effects]. now rewrite <- app_assoc.
    + cbn [ErrorData.Code ErrorData.Error] in *.
      destruct (includes (knownErrors K) 0) eqn:Ei.
      * split; [reflexivity|]. intros H. exfalso. apply H, Hk. reflexivity.
      * split; [intros H; apply Hk in H; discriminate H|].
        intros _. cbn [model effects]. now rewrite <- app_assoc.
  - intros ->. reflexivity.
Qed.

Lemma handleSubmitStartError_two_tiers_witness :
  let w := {| model := typedModel "993"; effects := [] |} in
  errorCode (model w) = 0
  /\ handleSubmitStartError sampleConstants authenticationFailed w
     = (Returned tt,
        {| model := withError 2901 "Invalid credentials" (typedModel "993");
           effects :=
             [ConsoleError "Import Connection Error"
                (Some {| ErrorData.Code := 2901;
                         ErrorData.Error := "Invalid credentials" |})] |})
  /\ handleSubmitStartError sampleConstants serverDown w
     = (Returned tt,
        {| model := typedModel "993";
           effects := [ConsoleError "Import Connection Error" None;
                       ErrorHandler serverDown] |})
  /\ handleSubmitStartError sampleConstants emptyAnswer w
     = (Thrown cannotDestructureNull, w).
Proof.
  cbv zeta. split; [reflexivity|]. split; [|split].
  - apply (proj1 (proj1 (handleSubmitStartError_two_tiers
                           sampleConstants authenticationFailed
                           {| model := typedModel "993"; effects := [] |})
                        _ _ (or_introl (conj eq_refl eq_refl)))).
    left. reflexivity.
  - apply (proj2 (proj1 (handleSubmitStartError_two_tiers
                           sampleConstants serverDown
                           {| model := typedModel "993"; effects := [] |})
                        _ _ (or_intror (conj eq_refl (conj eq_refl eq_refl))))).
    intros [H|[H|H]]; discriminate H.
  - apply (proj2 (handleSubmitStartError_two_tiers
                    sampleConstants emptyAnswer
                    {| model := typedModel "993"; effects := [] |})).
    reflexivity.
Defined.

(** *** Cancel *)

(** C5, as stated, fails: in reconnect mode the email is filled in and
    the step is [START], and yet cancel closes at once. *)
Lemma cancel_in_reconnect_mode_closes :
  ~ cancelAsStated reconnectProps (filledModel "importer-1").
Proof.
  intros [H _]. destruct (proj1 H eq_refl) as [E|E]; discriminate E.
Qed.

(** What [handleCancel] does, by its closure. *)
Lemma handleCancel_cases (props : Props) (closure : ImportMailModalModel)
      (w : World) :
  let w' := snd (handleCancel props closure w) in
  model w' = model w
  /\ (effects w' = effects w ++ [OnClose]
      <-> (email closure = "" \/ step closure = STARTED
           \/ isReconnectMode props = true))
  /\ (email closure <> "" /\ step closure <> STARTED
      /\ isReconnectMode props = false ->
      effects w' = effects w ++ [CreateModal discardConfirmation]).
Proof.
  cbv zeta. unfold handleCancel.
  destruct (negb (truthy (email closure))
            || stepEqb (step closure) STARTED
            || isReconnectMode props) eqn:E; cbn.
  - split; [reflexivity|].
    apply orb_prop in E. rewrite orb_true_iff in E.
    rewrite negb_true_iff, truthy_false_iff, stepEqb_eq in E.
    split; [split; [tauto | reflexivity]|].
    intros (He & Hs & Hr). exfalso. destruct E as [[E|E]|E]; congruence.
  - split; [reflexivity|].
    apply orb_false_elim in E. destruct E as [E Hr].
    apply orb_false_elim in E. destruct E as [He Hs].
    apply negb_false_iff, truthy_true_iff in He.
    assert (Hs' : step closure <> STARTED).
    { intros H. apply stepEqb_eq in H. congruence. }
    split; [|reflexivity]. split.
    + intros H. apply app_inv_head in H. discriminate H.
    + intros [H|[H|H]]; congruence.
Qed.

(** C5, amended: for every wizard state, cancelling with the cancel
    handler of the current render (the one the modal is given as
    [onClose]) closes at once without a confirmation dialog exactly when
    the email of that state is empty, or its step is [STARTED], or the
    wizard is in reconnect mode; whenever the email is non-empty, the step
    is not [STARTED] and the wizard is not in reconnect mode, it shows the
    discard confirmation, whose confirmation closes the wizard.  The wizard
    state is not changed. *)
Theorem handleCancel_confirms_unless
        (K : Constants) (props : Props) (wizard : Wizard) :
  let m := model (world wizard) in
  let before := effects (world wizard) in
  let w' := world (dispatch K props wizard modalClose) in
  model w' = m
  /\ (effects w' = before ++ [OnClose]
      <-> (email m = "" \/ step m = STARTED \/ isReconnectMode props = true))
  /\ (email m <> "" /\ step m <> STARTED /\ isReconnectMode props = false ->
      effects w'
      = before
        ++ [CreateModal
              (ConfirmModal onClose "Quit import?" "Continue import"
                            "Discard")]).
Proof.
  cbv zeta. unfold dispatch, modalClose, closureAt.
  cbn [world handlerOf nth].
  apply (handleCancel_cases props (model (world wizard)) (world wizard)).
Qed.

Lemma handleCancel_confirms_unless_witness :
  let typed :=
    dispatch sampleConstants (newImportProps None) newImportWizard
             (UserEdit {| newEmail := "user@example.org";
                          newPassword := "";
                          newImap := "";
                          newPort := "";
                          newSelectedPeriod := LAST_3_MONTHS;
                          newPayload := payload (filledModel "");
                          newIsPayloadInvalid := false |}) in
  effects (world (dispatch sampleConstants (newImportProps None) typed
                           modalClose))
  = [CreateModal
       (ConfirmModal onClose "Quit import?" "Continue import" "Discard")].
Proof.
  cbv zeta.
  apply (proj2 (proj2 (handleCancel_confirms_unless
                         sampleConstants (newImportProps None)
                         (dispatch sampleConstants (newImportProps None)
                                   newImportWizard
                                   (UserEdit
                                      {| newEmail := "user@example.org";
                                         newPassword := "";
                                         newImap := "";
                                         newPort := "";
                                         newSelectedPeriod := LAST_3_MONTHS;
                                         newPayload := payload (filledModel "");
                                         newIsPayloadInvalid := false |})))));
    repeat split; discriminate.
Defined.

(** *** The initial host and port *)

(** C7: when the wizard is created without an existing import, the
    initial [imap] and [port] are the Yahoo constants if the provider is
    [YAHOO], the Outlook constants if it is [OUTLOOK], and the empty string
    for any other or no provider. *)
Theorem initial_imap_and_port
        (K : Constants) (user : User) (props : Props)
        (m : ImportMailModalModel) :
  currentImport props = None ->
  initialModalModel K user props = Some m ->
  (provider props = Some YAHOO ->
   imap m = IMAPS K YAHOO /\ port m = PORTS K YAHOO)
  /\ (provider props = Some OUTLOOK ->
      imap m = IMAPS K OUTLOOK /\ port m = PORTS K OUTLOOK)
  /\ (provider props <> Some YAHOO -> provider props <> Some OUTLOOK ->
      imap m = "" /\ port m = "").
Proof.
  unfold initialModalModel. intros Hc. rewrite Hc.
  destruct (addresses props) as [|first rest]; [discriminate|].
  intros [= <-]. cbn.
  repeat split; try (intros ->; reflexivity);
    destruct (provider props) as [[]|]; intros; cbn; congruence.
Qed.

Lemma initial_imap_and_port_witness :
  exists m,
    initialModalModel sampleConstants sampleUser (newImportProps (Some YAHOO))
    = Some m
    /\ imap m = "export.imap.mail.yahoo.com" /\ port m = "993".
Proof.
  eexists. split; [reflexivity|].
  apply (proj1 (initial_imap_and_port
                  sampleConstants sampleUser (newImportProps (Some YAHOO))
                  _ eq_refl eq_refl)).
  reflexivity.
Defined.

(** *** The handlers, case by case *)

Ltac unfold_handlers :=
  unfold handleSubmit, handleCancel, emailEffect, submitAuthentication,
    resumeImporter, launchImport, checkAuth, handleSubmitStartError,
    destructureError, moveToPrepareStep, tryCatch, bind, ret, throw, api,
    call, emit, setModalModel
    in *.

(** One case for each answer of the server and each test of a handler. *)
Ltac split_cases :=
  repeat (cbn [fst snd model effects] in * ||
    match goal with
    | |- context [match ?c with Returned _ => _ | Thrown _ => _ end] =>
        destruct c eqn:?
    | |- context [if ?b then _ else _] => destruct b eqn:?
    | |- context [match ?s with
                  | START => _ | PREPARE => _ | STARTED => _ end] =>
        destruct s eqn:?
    | |- context [match ?d with
                  | undefined => _ | null => _ | present _ => _ end] =>
        destruct d eqn:?
    end).

Ltac solve_extends :=
  first [ exists []; now rewrite app_nil_r
        | eexists; rewrite <- ?app_assoc; reflexivity ].

Section Steps.
Context (K : Constants) (props : Props).

Lemma handleSubmit_keepsOrLearns srv closure w :
  keepsOrLearns closure w (snd (handleSubmit K props srv closure w)).
Proof.
  unfold keepsOrLearns. unfold_handlers. split_cases;
    (split; [solve_extends|]); cbn; auto.
  all: intros Hid; right; left.
  all: rewrite !existsb_app; cbn; rewrite Hid; cbn.
  all: now rewrite !orb_true_r.
Qed.

Lemma emailEffect_keepsOrLearns srv closure debouncedEmail w :
  keepsOrLearns closure w
                (snd (emailEffect K srv closure debouncedEmail w)).
Proof.
  unfold keepsOrLearns. unfold_handlers. split_cases;
    (split; [solve_extends|]); cbn; auto.
  intros Hid.
  match goal with
  | auth : Authentication |- _ => destruct auth as [h p [id|]]
  end; cbn in *; auto.
  unfold orElse in Hid |- *. destruct (truthy id) eqn:E; auto.
  right. left. rewrite existsb_app. cbn. rewrite E.
  now rewrite !orb_true_r.
Qed.

Lemma handleCancel_keepsOrLearns closure w :
  keepsOrLearns closure w (snd (handleCancel props closure w)).
Proof.
  unfold keepsOrLearns. unfold_handlers. split_cases;
    (split; [solve_extends|]); cbn; auto.
Qed.

Lemma closureAt_In age w :
  In (closureAt age w) (model (world w) :: rendered w).
Proof.
  unfold closureAt.
  destruct (nth_in_or_default age (model (world w) :: rendered w)
                              (model (world w))) as [H|H];
    [exact H | rewrite H; now left].
Qed.

Lemma handlerOf_keepsOrLearns ev w :
  exists closure,
    In closure (model (world w) :: rendered w)
    /\ keepsOrLearns closure (world w)
                     (snd (handlerOf K props ev w (world w))).
Proof.
  destruct ev as [e|age d srv|age srv|age]; cbn [handlerOf].
  - exists (model (world w)). split; [now left|].
    split; [cbn; solve_extends|]. cbn. auto.
  - eexists. split; [apply closureAt_In|apply emailEffect_keepsOrLearns].
  - eexists. split; [apply closureAt_In|apply handleSubmit_keepsOrLearns].
  - eexists. split; [apply closureAt_In|apply handleCancel_keepsOrLearns].
Qed.

Lemma importJobExists_extends w w' :
  extends w w' ->
  importJobExists props (effects w) = true ->
  importJobExists props (effects w') = true.
Proof.
  intros [extra ->]. unfold importJobExists. rewrite existsb_app.
  intros H. apply orb_prop in H.
  destruct H as [->| ->]; cbn; [reflexivity|]. now rewrite orb_true_r.
Qed.

Lemma dispatch_importIDJustified w ev :
  importIDJustified props w ->
  importIDJustified props (dispatch K props w ev).
Proof.
  intros Inv.
  destruct (handlerOf_keepsOrLearns ev w) as (closure & Hin & Hext & Hid).
  intros m Hm Ht. cbn [dispatch world rendered] in *.
  destruct Hm as [<-|Hm].
  - destruct (Hid Ht) as [E|[E|E]].
    + apply (importJobExists_extends _ _ Hext).
      apply (Inv (model (world w))); [now left | now rewrite <- E].
    + unfold importJobExists. rewrite E. apply orb_true_r.
    + apply (importJobExists_extends _ _ Hext). now apply (Inv closure).
  - apply (importJobExists_extends _ _ Hext). now apply (Inv m).
Qed.

Lemma runEvents_importIDJustified evs w :
  importIDJustified props w ->
  importIDJustified props (runEvents K props evs w).
Proof.
  revert w. induction evs as [|ev evs IH]; intros w Inv; cbn; [exact Inv|].
  apply IH. now apply dispatch_importIDJustified.
Qed.

Lemma mount_importIDJustified user w0 :
  mount K user props = Some w0 -> importIDJustified props w0.
Proof.
  unfold mount, initialModalModel.
  destruct (addresses props) as [|first rest]; [discriminate|].
  intros [= <-] m [<-|[]]. cbn.
  unfold importJobExists, reconnectsExistingImport.
  destruct (currentImport props) as [ci|]; cbn; [|discriminate].
  rewrite truthy_orElse_empty. intros ->. reflexivity.
Qed.

(** A step into [PREPARE] leaves no error behind. *)
Lemma dispatch_into_PREPARE w ev :
  step (model (world w)) <> PREPARE ->
  step (model (world (dispatch K props w ev))) = PREPARE ->
  errorCode (model (world (dispatch K props w ev))) = 0
  /\ errorLabel (model (world (dispatch K props w ev))) = "".
Proof.
  unfold dispatch. cbn [world].
  destruct ev as [e|age d srv|age srv|age]; cbn [handlerOf].
  - cbn. congruence.
  - unfold_handlers. split_cases; cbn; congruence || tauto.
  - unfold_handlers. split_cases; cbn; congruence || tauto.
  - unfold_handlers. split_cases; cbn; congruence || tauto.
Qed.
End Steps.

(** *** The import job *)

(** What a submit does on [sampleServer] when the wizard has an
    [importID]: it fetches the importer and lists its folders. *)
Example submit_with_importID :
  performed (submitAuthentication sampleConstants sampleServer
                                  (filledModel "importer-1"))
            (filledModel "importer-1")
  = [ApiCall (getImport "importer-1") false
             (Returned (AnsImporter sampleImporter));
     ApiCall (getMailImportData "importer-1" "secret") true
             (Returned (AnsFolders (Some sampleFolders)))].
Proof. reflexivity. Qed.

(** C6, as stated, fails in its second half: with the non-empty
    [importID] of [filledModel "importer-1"], submitting the authentication
    sends the folder listing for that import. *)
Lemma submit_lists_folders_again :
  ~ skipsFolderDiscovery sampleConstants sampleServer
      (filledModel "importer-1").
Proof. intros H. specialize (H eq_refl). discriminate H. Qed.

(** C6, amended: in every state the wizard reaches, [importID] is
    non-empty only if an import job exists on the server: the wizard was
    opened in reconnect mode with an existing import, or a create-import or
    an authentication-lookup call has returned a non-empty [ImporterID].
    And once [importID] is non-empty, submitting the authentication does
    not create an import: it sends the request for the existing importer
    first and, when that is answered, the folder listing for it. *)
Theorem importID_needs_job_and_spares_creation
        (K : Constants) (user : User) (props : Props) (evs : list Event)
        (srv : Server) (modalModel current : ImportMailModalModel) :
  importIDNeedsJob K user props evs
  /\ (truthy (importID modalModel) = true ->
      let done := performed (submitAuthentication K srv modalModel) current in
      existsb isCreateImport done = false
      /\ (exists answer rest,
             done = ApiCall (getImport (importID modalModel)) false answer
                    :: rest)
      /\ forall Importer,
          onGetImport srv (importID modalModel) = Returned Importer ->
          exists answer rest,
            done = ApiCall (getImport (importID modalModel)) false
                           (Returned (AnsImporter Importer))
                   :: ApiCall (getMailImportData (Importer.ID Importer)
                                                 (password modalModel))
                              true answer
                   :: rest).
Proof.
  split.
  - intros w0 Hm w Ht. subst w.
    apply (runEvents_importIDJustified
             K props evs w0 (mount_importIDJustified K props user w0 Hm)
             _ (or_introl eq_refl) Ht).
  - intros Ht. cbv zeta. unfold performed, submitAuthentication.
    rewrite Ht. unfold_handlers. split_cases; cbn.
    all: repeat split; try (eexists; eexists; reflexivity).
    all: intros Importer [= <-]; eexists; eexists; reflexivity.
Qed.

Lemma importID_needs_job_and_spares_creation_witness :
  importJobExists
    (newImportProps None)
    (effects
       (world (runEvents sampleConstants (newImportProps None) sampleRun
                         newImportWizard)))
  = true
  /\ existsb isCreateImport
             (performed (submitAuthentication sampleConstants sampleServer
                                              (filledModel "importer-1"))
                        (filledModel "importer-1"))
     = false.
Proof.
  split.
  - apply (proj1 (importID_needs_job_and_spares_creation
                    sampleConstants sampleUser (newImportProps None)
                    sampleRun sampleServer (filledModel "importer-1")
                    (filledModel "importer-1"))
                 newImportWizard eq_refl).
    reflexivity.
  - apply (proj2 (importID_needs_job_and_spares_creation
                    sampleConstants sampleUser (newImportProps None)
                    sampleRun sampleServer (filledModel "importer-1")
                    (filledModel "importer-1"))).
    reflexivity.
Defined.

(** After [sampleRun] the wizard is in step [PREPARE] and has the
    [importID] the create-import call returned. *)
Example importID_after_sampleRun :
  let w :=
    runEvents sampleConstants (newImportProps None) sampleRun
              newImportWizard in
  importID (model (world w)) = "importer-1"
  /\ step (model (world w)) = PREPARE
  /\ map ImportedMailFolder.Source (providerFolders (model (world w)))
     = ["Sent"; "INBOX"; "Archive"; "Bills"; "Travel"].
Proof. vm_compute. repeat split. Qed.

(** *** The step into [PREPARE] *)

(** What a submit without an [importID] does on [sampleServer]: it creates
    the import and lists its folders; the server returns an [ImporterID]
    and the folders, and no [Importer] record. *)
Example submit_without_importID :
  performed (submitAuthentication sampleConstants sampleServer
                                  (typedModel "12abc"))
            (typedModel "12abc")
  = [ApiCall (createImport {| Account := "user@example.org";
                              CreateImapHost := "imap.example.org";
                              CreateImapPort := Num 12;
                              CreateSasl := PLAIN;
                              CreateCode := "secret";
                              AllowSelfSigned := 0 |})
             true (Returned (AnsImporterID "importer-1"));
     EventManagerCall;
     ApiCall (getMailImportData "importer-1" "secret") false
             (Returned (AnsFolders (Some sampleFolders)))].
Proof. reflexivity. Qed.

(** C10, as stated, fails: the submit of [typedModel "12abc"] takes the
    wizard into step [PREPARE] although the server has returned no
    [Importer] record; the email, the host and the port [12] of the new
    state come from what the user entered. *)
Lemma create_path_has_no_server_record :
  ~ preparedFromServerRecord sampleConstants sampleServer (typedModel "12abc").
Proof.
  intros H. destruct (H eq_refl) as (r & silence & Importer & Hin & _).
  vm_compute in Hin.
  destruct Hin as [Hin|[Hin|[Hin|[]]]]; discriminate Hin.
Qed.

(** An error of a submit that was made before the wizard entered
    [PREPARE], and fails after, is written into the state of step
    [PREPARE]. *)
Example late_failure_shows_in_PREPARE :
  let w :=
    runEvents sampleConstants (newImportProps None)
              [FormSubmit 0 sampleServer;
               FormSubmit 1 (ImportMailMoreSpec.rejectingServer
                               authenticationFailed)]
              {| world := {| model := typedModel "993"; effects := [] |};
                 rendered := [] |} in
  step (model (world w)) = PREPARE /\ errorCode (model (world w)) = 2901.
Proof. vm_compute. split; reflexivity. Qed.

(** C10, amended: [moveToPrepareStep] produces a state in step [PREPARE]
    with [errorCode] 0 and [errorLabel] empty, and with [importID],
    [email], [imap] and [port] taken from the [Importer] record it is given
    (the port printed as a string).  A submit that takes the wizard into
    [PREPARE] gives it the record the server returned for [getImport] when
    its closure has an [importID], and otherwise a record made of the
    [ImporterID] that create-import returned and of the email, the host and
    the parsed port of its closure.  Whatever takes the wizard into step
    [PREPARE], the state in which it enters has [errorCode] 0 and an empty
    [errorLabel]. *)
Theorem entering_PREPARE_clears_error
        (K : Constants) (props : Props) (srv : Server)
        (modalModel current : ImportMailModalModel)
        (Importer : Importer.t) (folders : list ImportedMailFolder.t)
        (w : World) (wizard : Wizard) (ev : Event) :
  (let m' := model (snd (moveToPrepareStep Importer folders w)) in
   step m' = PREPARE
   /\ errorCode m' = 0
   /\ errorLabel m' = ""
   /\ importID m' = Importer.ID Importer
   /\ email m' = Importer.Email Importer
   /\ imap m' = Importer.ImapHost Importer
   /\ port m' = numberToString (Importer.ImapPort Importer))
  /\ (let after :=
        model (snd (submitAuthentication
                      K srv modalModel
                      {| model := current; effects := [] |})) in
      step current <> PREPARE ->
      step after = PREPARE ->
      errorCode after = 0
      /\ errorLabel after = ""
      /\ (truthy (importID modalModel) = true ->
          exists fromServer,
            onGetImport srv (importID modalModel) = Returned fromServer
            /\ importID after = Importer.ID fromServer
            /\ email after = Importer.Email fromServer
            /\ imap after = Importer.ImapHost fromServer
            /\ port after = numberToString (Importer.ImapPort fromServer))
      /\ (truthy (importID modalModel) = false ->
          exists ImporterID,
            onCreateImport
              srv {| Account := email modalModel;
                     CreateImapHost := imap modalModel;
                     CreateImapPort := parseInt10 (port modalModel);
                     CreateSasl := PLAIN;
                     CreateCode := password modalModel;
                     AllowSelfSigned :=
                       if errorCode modalModel
                          =? IMAP_CONNECTION_ERROR (IMPORT_ERROR K)
                       then 1 else 0 |}
            = Returned ImporterID
            /\ importID after = ImporterID
            /\ email after = email modalModel
            /\ imap after = imap modalModel
            /\ port after = numberToString (parseInt10 (port modalModel))))
  /\ (step (model (world wizard)) <> PREPARE ->
      step (model (world (dispatch K props wizard ev))) = PREPARE ->
      errorCode (model (world (dispatch K props wizard ev))) = 0
      /\ errorLabel (model (world (dispatch K props wizard ev))) = "").
Proof.
  split; [cbn; repeat split|]. split; [|apply dispatch_into_PREPARE].
  cbv zeta. unfold hasIMAPError. unfold_handlers. unfold hasIMAPError.
  split_cases; cbn; intros Hn Hs; try congruence.
  all: repeat split; try discriminate.
  all: intros _; eexists; repeat split; eassumption || reflexivity.
Qed.

Lemma entering_PREPARE_clears_error_witness :
  let after :=
    model (snd (submitAuthentication
                  sampleConstants sampleServer (filledModel "")
                  {| model := filledModel ""; effects := [] |})) in
  errorCode (filledModel "") = 2901
  /\ errorCode after = 0
  /\ errorLabel after = "".
Proof.
  cbv zeta. split; [reflexivity|].
  pose proof (proj1 (proj2 (entering_PREPARE_clears_error
                              sampleConstants (newImportProps None)
                              sampleServer (filledModel "") (filledModel "")
                              sampleImporter [] (world failedOnceWizard)
                              failedOnceWizard (FormSubmit 0 sampleServer))))
    as H.
  cbv zeta in H.
  destruct (H ltac:(discriminate) eq_refl) as (Hc & Hl & _).
  split; [exact Hc | exact Hl].
Defined.

End ImportMailFacts.

(** ** Further proofs for the calendar helpers *)

Module CalendarMoreFacts.
Import JS CalendarApi CalendarSpec CalendarMoreSpec CalendarFacts.

Section Trace.
Context {CalendarEvent CALENDAR_TYPE ApiError : Type}.
Context (api : Api CalendarEvent CALENDAR_TYPE ApiError).
Context (uid : string) (recurrenceID : option Z)
        (calendarType : option CALENDAR_TYPE).

Let params :=
  fun k : nat => pageParams uid recurrenceID calendarType (Z.of_nat k).
Let loop := paginate api uid recurrenceID calendarType.

(** What the loop has done when it ends, whatever the server answers. *)
Lemma paginate_trace mx k result sent :
  exists n,
    requests (loop mx (Z.of_nat k) result sent) = sent ++ map params (seq k n)
    /\ Z.of_nat (k + n) <= Z.max mx (Z.of_nat k)
    /\ Forall (fullPage api) (removelast (map params (seq k n)))
    /\ (forall events,
          completion (loop mx (Z.of_nat k) result sent) = Returned events ->
          events
          = result ++ List.concat (map (eventsOf api) (map params (seq k n)))).
Proof.
  remember (Z.to_nat (mx - Z.of_nat k)) as turns eqn:Hl.
  revert k result sent Hl.
  induction turns as [turns IH] using lt_wf_ind. intros k result sent Hl.
  subst loop. cbv beta. rewrite paginate_step.
  destruct (Z.ltb_spec (Z.of_nat k) mx) as [Hlt|Hge].
  2:{ exists 0%nat. cbn. rewrite !app_nil_r. repeat split; try lia.
      - constructor.
      - now intros events [= <-]. }
  fold (params k).
  destruct (api (params k)) as [page|e] eqn:Hp.
  - destruct (Z.eqb_spec (Z.of_nat (List.length (Events page))) pageSize)
      as [Hfull|Hodd]; cbn [negb].
    + replace (Z.of_nat k + 1) with (Z.of_nat (S k)) by lia.
      destruct (IH (Z.to_nat (mx - Z.of_nat (S k))) ltac:(lia) (S k)
                   (result ++ Events page) (sent ++ [params k]) eq_refl)
        as (n & Hreq & Hcap & Hfullb & Hres).
      exists (S n). cbn [seq map]. repeat split.
      * rewrite Hreq, <- app_assoc. reflexivity.
      * lia.
      * destruct n as [|n]; [constructor|].
        cbn [seq map removelast] in *. constructor; [|exact Hfullb].
        exists page. split; [exact Hp | exact Hfull].
      * intros events He. rewrite (Hres events He). cbn [List.concat].
        unfold eventsOf at 2. rewrite Hp. now rewrite <- app_assoc.
    + exists 1%nat. cbn. repeat split; try lia.
      * constructor.
      * intros events [= <-]. unfold eventsOf. rewrite Hp.
        now rewrite app_nil_r.
  - exists 1%nat. cbn. repeat split; try lia.
    + constructor.
    + discriminate.
Qed.

(** Full pages are read one after the other until the cap is reached. *)
Lemma paginate_until_cap mx pages :
  Forall (fun page => Z.of_nat (List.length page) = 100) pages ->
  forall k result sent,
    (forall i page, nth_error pages i = Some page ->
       api (params (k + i)%nat) = Returned {| Events := page |}) ->
    Z.of_nat (k + List.length pages) = Z.max mx (Z.of_nat k) ->
    loop mx (Z.of_nat k) result sent =
    {| completion := Returned (result ++ List.concat pages);
       requests := sent ++ map params (seq k (List.length pages)) |}.
Proof.
  intros Hfull.
  induction Hfull as [|page pages Hpage Hfull IH];
    intros k result sent Hserve Hcap; cbn [List.length List.concat] in *;
    subst loop; cbv beta; rewrite paginate_step.
  - destruct (Z.ltb_spec (Z.of_nat k) mx); [lia|].
    cbn. now rewrite !app_nil_r.
  - destruct (Z.ltb_spec (Z.of_nat k) mx); [|lia].
    fold (params k). rewrite <- (Nat.add_0_r k) at 1.
    rewrite (Hserve 0%nat page eq_refl). cbn [Events]. unfold pageSize.
    destruct (Z.eqb_spec (Z.of_nat (List.length page)) 100); [|lia].
    cbn [negb]. replace (Z.of_nat k + 1) with (Z.of_nat (S k)) by lia.
    rewrite IH.
    + cbn [seq map]. rewrite <- !app_assoc. reflexivity.
    + intros i pg Hi. replace (S k + i)%nat with (k + S i)%nat by lia.
      now apply Hserve.
    + lia.
Qed.

(** Full pages are read up to the first page of another length. *)
Lemma paginate_until_odd mx full odd :
  Forall (fun page => Z.of_nat (List.length page) = 100) full ->
  Z.of_nat (List.length odd) <> 100 ->
  forall k result sent,
    (forall i page, nth_error (full ++ [odd]) i = Some page ->
       api (params (k + i)%nat) = Returned {| Events := page |}) ->
    Z.of_nat (k + List.length full) < mx ->
    loop mx (Z.of_nat k) result sent =
    {| completion := Returned (result ++ List.concat (full ++ [odd]));
       requests := sent ++ map params (seq k (S (List.length full))) |}.
Proof.
  intros Hfull Hodd.
  induction Hfull as [|page full Hpage Hfull IH];
    intros k result sent Hserve Hcap;
    cbn [List.length app List.concat] in *;
    subst loop; cbv beta; rewrite paginate_step;
    (destruct (Z.ltb_spec (Z.of_nat k) mx); [|lia]);
    fold (params k); rewrite <- (Nat.add_0_r k) at 1.
  - rewrite (Hserve 0%nat odd eq_refl). cbn [Events]. unfold pageSize.
    destruct (Z.eqb_spec (Z.of_nat (List.length odd)) 100); [lia|].
    cbn. now rewrite app_nil_r.
  - rewrite (Hserve 0%nat page eq_refl). cbn [Events]. unfold pageSize.
    destruct (Z.eqb_spec (Z.of_nat (List.length page)) 100); [|lia].
    cbn [negb]. replace (Z.of_nat k + 1) with (Z.of_nat (S k)) by lia.
    rewrite IH.
    + cbn [seq map]. rewrite <- !app_assoc. reflexivity.
    + intros i pg Hi. replace (S k + i)%nat with (k + S i)%nat by lia.
      now apply Hserve.
    + lia.
Qed.
End Trace.

(** X1: the requests of a call are those for the pages 0, 1, 2, ... in this
    order, each with the caller's [uid], [recurrenceID] and [calendarType]
    and with [PageSize] 100; there are never more of them than the cap. *)
Theorem fetch_requests_consecutive_pages
        {CalendarEvent CALENDAR_TYPE ApiError : Type}
        (api : Api CalendarEvent CALENDAR_TYPE ApiError) (uid : string)
        (recurrenceID : option Z) (max : option Z)
        (calendarType : option CALENDAR_TYPE) :
  exists n,
    requests (getPaginatedEventsByUID api uid recurrenceID max calendarType)
    = pageRequests CALENDAR_TYPE uid recurrenceID calendarType n
    /\ Z.of_nat n <= Z.max 0 (maxOrDefault max)
    /\ forall r,
        In r (pageRequests CALENDAR_TYPE uid recurrenceID calendarType n) ->
        UID r = uid /\ RecurrenceID r = recurrenceID
        /\ CalendarType r = calendarType /\ PageSize r = 100
        /\ 0 <= Page r < Z.of_nat n.
Proof.
  unfold getPaginatedEventsByUID.
  destruct (paginate_trace api uid recurrenceID calendarType
                           (maxOrDefault max) 0 [] [])
    as (n & Hreq & Hcap & _ & _).
  exists n. cbn [app Z.of_nat Nat.add] in *. split; [exact Hreq|].
  split; [lia|].
  intros r Hin. unfold pageRequests in Hin. apply in_map_iff in Hin.
  destruct Hin as (k & <- & Hk). apply in_seq in Hk. cbn. repeat split; lia.
Qed.

(** X2: when a call returns, its result is, in request order, what the
    server sent in answer to the call's requests, and every request but the
    last was answered with exactly 100 events. *)
Theorem fetch_returns_answers_in_order
        {CalendarEvent CALENDAR_TYPE ApiError : Type}
        (api : Api CalendarEvent CALENDAR_TYPE ApiError) (uid : string)
        (recurrenceID : option Z) (max : option Z)
        (calendarType : option CALENDAR_TYPE)
        (events : list CalendarEvent) :
  let run := getPaginatedEventsByUID api uid recurrenceID max calendarType in
  completion run = Returned events ->
  events = List.concat (map (eventsOf api) (requests run))
  /\ Forall (fullPage api) (removelast (requests run)).
Proof.
  cbv zeta. unfold getPaginatedEventsByUID.
  destruct (paginate_trace api uid recurrenceID calendarType
                           (maxOrDefault max) 0 [] [])
    as (n & Hreq & _ & Hfull & Hres).
  cbn [app Z.of_nat] in *. intros He. rewrite Hreq.
  split; [exact (Hres events He) | exact Hfull].
Qed.

Lemma fetch_returns_answers_in_order_witness :
  List.concat pages3
  = List.concat
      (map (eventsOf (apiOfPages unit unit pages3))
           (requests (getPaginatedEventsByUID (apiOfPages unit unit pages3)
                                              "uid" None None None))).
Proof.
  apply (fetch_returns_answers_in_order
           (apiOfPages unit unit pages3) "uid" None None None
           (List.concat pages3)).
  reflexivity.
Defined.

(** X3: when the server has a full page for every page number below the
    cap, the call returns the events of exactly these pages after as many
    requests as the cap allows, without any sign that it stopped early; a
    cap of zero or less means no request and an empty result. *)
Theorem fetch_ends_silently_at_cap
        {CalendarEvent : Type} (CALENDAR_TYPE ApiError : Type)
        (max : option Z) (pages : list (list CalendarEvent)) :
  Forall (fun page => Z.of_nat (List.length page) = 100) pages ->
  List.length pages = Z.to_nat (maxOrDefault max) ->
  fetchesAllPages CALENDAR_TYPE ApiError max pages.
Proof.
  intros Hfull Hlen api uid rec ct Hserve run. subst run.
  unfold getPaginatedEventsByUID. change 0 with (Z.of_nat 0).
  rewrite (paginate_until_cap api uid rec ct _ pages Hfull).
  - split; reflexivity.
  - intros i page Hi. now apply Hserve.
  - cbn [Nat.add Z.of_nat]. lia.
Qed.

Lemma fetch_ends_silently_at_cap_witness :
  fetchesAllPages unit unit (Some 2) [repeat 0%nat 100; repeat 1%nat 100]
  /\ fetchesAllPages (CalendarEvent := nat) unit unit (Some (-3)) [].
Proof.
  split; apply fetch_ends_silently_at_cap;
    solve [repeat constructor | reflexivity].
Defined.

(** X4: a page whose length is anything but 100, longer pages included, ends
    the fetch: for full pages followed by such a page, all within the cap,
    the call returns the events of all of them and asks for nothing after
    that page. *)
Theorem fetch_stops_at_page_of_other_length
        {CalendarEvent : Type} (CALENDAR_TYPE ApiError : Type)
        (max : option Z) (pages : list (list CalendarEvent)) :
  fullPagesThenOdd pages ->
  Z.of_nat (List.length pages) <= maxOrDefault max ->
  fetchesAllPages CALENDAR_TYPE ApiError max pages.
Proof.
  intros (full & odd & -> & Hfull & Hodd) Hcap api uid rec ct Hserve run.
  subst run. unfold getPaginatedEventsByUID.
  rewrite length_app in *. cbn [List.length] in *.
  change 0 with (Z.of_nat 0).
  rewrite (paginate_until_odd api uid rec ct _ full odd Hfull Hodd).
  - cbn [completion requests app]. split; [reflexivity|].
    unfold pageRequests. now rewrite Nat.add_1_r.
  - intros i page Hi. now apply Hserve.
  - lia.
Qed.

Lemma fetch_stops_at_page_of_other_length_witness :
  fetchesAllPages unit unit None pagesWithLongPage.
Proof.
  apply fetch_stops_at_page_of_other_length.
  - exists [repeat 0%nat 100; repeat 1%nat 100], (repeat 2%nat 130).
    split; [reflexivity|].
    split; [repeat constructor | discriminate].
  - vm_compute. discriminate.
Defined.

(** X5: [reformatApiErrorMessage] only ever cuts at the end: the message is
    the result followed by a tail that is empty or has 18 characters, and a
    message of fewer than 18 characters is returned as it is. *)
Theorem reformatApiErrorMessage_cuts_tail (message : string) :
  exists tail,
    message = (reformatApiErrorMessage message ++ tail)%string
    /\ (tail = "" \/ (String.length tail = 18%nat
                      /\ toLowerCase tail = suffixToDrop))
    /\ ((String.length message < 18)%nat ->
        reformatApiErrorMessage message = message).
Proof.
  unfold reformatApiErrorMessage.
  destruct (endsWith (toLowerCase message) suffixToDrop) eqn:E.
  - pose proof (proj1 (endsWith_toLowerCase _ _) E) as (prefix & tail & -> & Ht).
    assert (Hl : String.length tail = 18%nat).
    { rewrite <- toLowerCase_length, Ht. reflexivity. }
    rewrite (slice_drops_last_18 _ _ Hl).
    exists tail. split; [reflexivity|]. split; [right; now split|].
    rewrite append_length. lia.
  - exists "". split; [|split; [now left | reflexivity]].
    clear E. induction message as [|c m IH]; cbn; [reflexivity | now f_equal].
Qed.
End CalendarMoreFacts.

(** ** Further proofs for the import wizard *)

Module ImportMailMoreFacts.
Import JS ImportMail ImportMailSpec ImportMailView ImportMailMoreSpec ImportMailFacts.

Ltac unfold_observers :=
  unfold outcome, performed, stateAfter, sameButError in *.

(** X6: [submitAuthentication] returns, or it rejects with the
    [TypeError] of [handleSubmitStartError]'s destructuring.  It rejects
    only when the server rejected a request (or the event manager's call)
    with an error whose [data] is [null]; the wizard state is then
    unchanged, nothing is logged and the generic error handler is not
    called.  A create-import call rejected in this way is such a case.
    Cancelling never rejects.  The form submit can only reject when its
    closure is in step [PREPARE] (from [launchImport]), when the wizard is
    in reconnect mode (from [resumeImporter]), or with that [TypeError]. *)
Theorem submit_rejects_on_null_data_only
        (K : Constants) (props : Props) (srv : Server)
        (modalModel current : ImportMailModalModel) :
  let run := submitAuthentication K srv modalModel in
  let done := performed run current in
  (outcome run current = Returned tt
   \/ outcome run current = Thrown cannotDestructureNull)
  /\ (outcome run current = Thrown cannotDestructureNull ->
      stateAfter run current = current
      /\ existsb isConsoleError done = false
      /\ existsb isErrorHandler done = false
      /\ exists e, rejectsWith srv e /\ data e = null)
  /\ (forall e,
        truthy (importID modalModel) = false ->
        truthy (imap modalModel) = true ->
        truthy (port modalModel) = true ->
        onCreateImport
          srv (mailOf modalModel (if hasIMAPError K modalModel then 1 else 0))
        = Thrown e ->
        data e = null ->
        outcome run current = Thrown cannotDestructureNull)
  /\ outcome (handleCancel props modalModel) current = Returned tt
  /\ (forall e,
        outcome (handleSubmit K props srv modalModel) current = Thrown e ->
        step modalModel = PREPARE
        \/ (step modalModel = START /\ isReconnectMode props = true)
        \/ (step modalModel = START /\ isReconnectMode props = false
            /\ e = cannotDestructureNull)).
Proof.
  cbv zeta. unfold_observers. split; [|split; [|split; [|split]]].
  - unfold_handlers. split_cases; auto.
  - unfold rejectsWith. unfold_handlers. split_cases; cbn;
      intros H; try discriminate H; repeat split.
    all: eexists; split; [|eassumption]; eauto 6.
  - intros e Hid Hi Hp Hc He. unfold submitAuthentication, mailOf in *.
    rewrite Hid, Hi, Hp. cbn [andb].
    unfold_handlers. cbn [fst snd model effects]. rewrite Hc, He. reflexivity.
  - unfold_handlers. split_cases; reflexivity.
  - intros e. unfold_handlers. split_cases; cbn; try discriminate; auto.
    all: intros [= <-]; auto.
Qed.

(** X7: what a call of [submitAuthentication] leaves behind.  If it logs a
    connection error (a request was rejected), it returns, the label is
    "Import Connection Error", and the logged data decide: with the code
    [AUTHENTICATION_ERROR], [IMAP_CONNECTION_ERROR] or
    [RATE_LIMIT_EXCEEDED] the state gets that code and the text of the
    data as [errorCode] and [errorLabel], nothing else changes and the
    generic handler is not called; with any other code the state is
    unchanged and the generic handler is called.  If it logs none, one of
    three things has happened: it returned with the wizard in step
    [PREPARE] and no error; or it sent nothing at all because there is no
    [importID] and the host or the port is empty; or it rejected with the
    [TypeError] of the destructuring, with the state unchanged and the
    generic handler not called. *)
Theorem submit_fails_or_prepares
        (K : Constants) (srv : Server)
        (modalModel current : ImportMailModalModel) :
  let run := submitAuthentication K srv modalModel in
  let done := performed run current in
  let after := stateAfter run current in
  (forall label logged,
      In (ConsoleError label logged) done ->
      let d := loggedOrDefault logged in
      label = "Import Connection Error"
      /\ outcome run current = Returned tt
      /\ (isKnownError K (ErrorData.Code d) ->
          after = withError (ErrorData.Code d) (ErrorData.Error d) current
          /\ existsb isErrorHandler done = false)
      /\ (~ isKnownError K (ErrorData.Code d) ->
          after = current /\ existsb isErrorHandler done = true))
  /\ (existsb isConsoleError done = false ->
      (outcome run current = Returned tt
       /\ step after = PREPARE /\ errorCode after = 0 /\ errorLabel after = ""
       /\ done <> [])
      \/ (outcome run current = Returned tt
          /\ done = [] /\ truthy (importID modalModel) = false
          /\ (truthy (imap modalModel) = false
              \/ truthy (port modalModel) = false))
      \/ (outcome run current = Thrown cannotDestructureNull
          /\ after = current /\ done <> []
          /\ existsb isErrorHandler done = false)).
Proof.
  cbv zeta. unfold_observers.
  assert (Hk : forall code,
             includes (knownErrors K) code = true <-> isKnownError K code).
  { intros code. rewrite includes_In. unfold knownErrors, isKnownError. cbn.
    intuition congruence. }
  assert (Hlog : forall error logged,
             logged = loggedData error -> data error <> null ->
             loggedOrDefault logged = errorDataOrDefault error).
  { intros error logged -> Hn. unfold loggedData, errorDataOrDefault.
    destruct (data error); [reflexivity | congruence | reflexivity]. }
  unfold_handlers. split_cases; cbn [In existsb isConsoleError isErrorHandler app orb].
  all: split;
    [ intros label logged Hin;
      repeat match goal with
             | H : _ \/ _ |- _ => destruct H
             | H : False |- _ => destruct H
             | H : ApiCall _ _ _ = ConsoleError _ _ |- _ => discriminate H
             | H : EventManagerCall = ConsoleError _ _ |- _ => discriminate H
             | H : ErrorHandler _ = ConsoleError _ _ |- _ => discriminate H
             | H : ConsoleError _ _ = ConsoleError _ _ |- _ =>
                 injection H as <- H; symmetry in H;
                 apply Hlog in H; [rewrite H | congruence]
             end
    | intros H; try discriminate H ].
  all: try (split; [reflexivity|]; split; [reflexivity|]; split;
            [ intros Hc; apply Hk in Hc;
              first [ split; reflexivity | congruence ]
            | intros Hc; rewrite <- Hk in Hc;
              first [ split; [destruct current|]; reflexivity | congruence ] ]).
  all: try (left; repeat split; discriminate).
  all: try (right; left; repeat split; auto;
            match goal with
            | E : _ && _ = false |- _ => apply andb_false_iff in E; exact E
            end).
  all: try (right; right; repeat split; try discriminate; destruct current;
            reflexivity).
Qed.

(** X8: without an [importID], and with an empty host or an empty port,
    [submitAuthentication] sends no request and does nothing but set [imap]
    to the empty string (a host that had been entered is cleared when only
    the port is missing). *)
Theorem submit_without_host_or_port
        (K : Constants) (srv : Server)
        (modalModel current : ImportMailModalModel) :
  truthy (importID modalModel) = false ->
  imap modalModel = "" \/ port modalModel = "" ->
  performed (submitAuthentication K srv modalModel) current = []
  /\ stateAfter (submitAuthentication K srv modalModel) current
     = {| step := step current;
          importID := importID current;
          email := email current;
          password := password current;
          imap := "";
          port := port current;
          errorCode := errorCode current;
          errorLabel := errorLabel current;
          providerFolders := providerFolders current;
          selectedPeriod := selectedPeriod current;
          payload := payload current;
          isPayloadInvalid := isPayloadInvalid current |}.
Proof.
  intros Hid Hhp. unfold_observers. unfold submitAuthentication. rewrite Hid.
  assert (E : truthy (imap modalModel) && truthy (port modalModel) = false).
  { destruct Hhp as [-> | ->]; cbn; [reflexivity | apply andb_false_r]. }
  rewrite E. cbn. split; reflexivity.
Qed.

Lemma submit_without_host_or_port_witness :
  performed (submitAuthentication sampleConstants sampleServer
               (applyEdit {| newEmail := "user@example.org";
                             newPassword := "secret";
                             newImap := "imap.example.org";
                             newPort := "";
                             newSelectedPeriod := LAST_3_MONTHS;
                             newPayload := payload (filledModel "");
                             newIsPayloadInvalid := false |}
                          (filledModel "")))
            (filledModel "")
  = [].
Proof.
  apply (submit_without_host_or_port sampleConstants sampleServer);
    [reflexivity | right; reflexivity].
Defined.

(** A create-import call rejected with a known code leaves the error in
    the state. *)
Lemma stateAfter_create_rejected K srv modalModel current error :
  truthy (importID modalModel) = false ->
  truthy (imap modalModel) = true ->
  truthy (port modalModel) = true ->
  (forall mail, onCreateImport srv mail = Thrown error) ->
  data error <> null ->
  In (ErrorData.Code (errorDataOrDefault error)) (knownErrors K) ->
  stateAfter (submitAuthentication K srv modalModel) current
  = {| step := step current;
       importID := importID current;
       email := email current;
       password := password current;
       imap := imap current;
       port := port current;
       errorCode := ErrorData.Code (errorDataOrDefault error);
       errorLabel := ErrorData.Error (errorDataOrDefault error);
       providerFolders := providerFolders current;
       selectedPeriod := selectedPeriod current;
       payload := payload current;
       isPayloadInvalid := isPayloadInvalid current |}.
Proof.
  intros Hid Hi Hp Hsrv Hn Hk. apply includes_In in Hk.
  unfold stateAfter, submitAuthentication. rewrite Hid, Hi, Hp. cbn [andb].
  unfold tryCatch, bind, api. cbn [fst snd]. rewrite Hsrv.
  unfold handleSubmitStartError, destructureError, bind, ret, emit.
  destruct (data error) eqn:Ed; [|congruence|];
    cbn [fst snd model effects]; rewrite Hk; reflexivity.
Qed.

(** With host and port and without [importID], a submit starts with the
    create-import call. *)
Lemma performed_create_first K srv modalModel current :
  truthy (importID modalModel) = false ->
  truthy (imap modalModel) = true ->
  truthy (port modalModel) = true ->
  exists answer rest,
    performed (submitAuthentication K srv modalModel) current
    = ApiCall (createImport
                 (mailOf modalModel (if hasIMAPError K modalModel then 1 else 0)))
              true answer
      :: rest.
Proof.
  intros Hid Hi Hp. unfold performed, submitAuthentication.
  rewrite Hid, Hi, Hp. cbn [andb]. unfold mailOf.
  unfold_handlers. split_cases; cbn; eexists; eexists; reflexivity.
Qed.

(** X9: when a create-import call is rejected with the code
    [IMAP_CONNECTION_ERROR] (in the [data] of the error, which is not
    [null]), the state it leaves shows the submit button as
    "Skip verification" and holds the server's error text; the next submit
    from that state sends create-import for the same data with
    [AllowSelfSigned] 1. *)
Theorem retry_after_unverified_host_skips_verification
        (K : Constants) (props : Props) (srv retry : Server)
        (modalModel : ImportMailModalModel) (error : ApiError) :
  isReconnectMode props = false ->
  truthy (importID modalModel) = false ->
  truthy (imap modalModel) = true ->
  truthy (port modalModel) = true ->
  (forall mail, onCreateImport srv mail = Thrown error) ->
  data error <> null ->
  ErrorData.Code (errorDataOrDefault error)
  = IMAP_CONNECTION_ERROR (IMPORT_ERROR K) ->
  let after := stateAfter (submitAuthentication K srv modalModel) modalModel in
  submitButtonText K props after = "Skip verification"
  /\ errorLabel after = ErrorData.Error (errorDataOrDefault error)
  /\ exists answer rest,
      performed (submitAuthentication K retry after) after
      = ApiCall (createImport (mailOf modalModel 1)) true answer :: rest.
Proof.
  intros Hr Hid Hi Hp Hsrv Hn Hcode. cbv zeta.
  assert (Hk : In (ErrorData.Code (errorDataOrDefault error)) (knownErrors K)).
  { rewrite Hcode. right. now left. }
  rewrite (stateAfter_create_rejected K srv modalModel modalModel error
             Hid Hi Hp Hsrv Hn Hk).
  set (after := {| step := step modalModel; importID := _ |}).
  assert (Hh : hasIMAPError K after = true).
  { unfold hasIMAPError. cbn. rewrite Hcode. apply Z.eqb_refl. }
  unfold submitButtonText. rewrite Hr, Hh.
  split; [reflexivity|]. split; [reflexivity|].
  destruct (performed_create_first K retry after after Hid Hi Hp)
    as (answer & rest & E).
  rewrite Hh in E. exists answer, rest. exact E.
Qed.

Lemma retry_after_unverified_host_skips_verification_witness :
  submitButtonText
    sampleConstants (newImportProps None)
    (stateAfter (submitAuthentication sampleConstants
                                      (rejectingServer unverifiedHost)
                                      (filledModel ""))
                (filledModel ""))
  = "Skip verification".
Proof.
  apply (retry_after_unverified_host_skips_verification
           sampleConstants (newImportProps None)
           (rejectingServer unverifiedHost) sampleServer (filledModel "")
           unverifiedHost);
    reflexivity || discriminate.
Defined.

Lemma digitsPrefix_string_of_uint d acc :
  digitsPrefix (Some acc) (DecimalString.NilEmpty.string_of_uint d) = Some (readDigits acc d).
Proof.
  revert acc. induction d; intros acc; cbn; try reflexivity; apply IHd.
Qed.

Lemma digitsPrefix_None_string_of_uint d :
  d <> Decimal.Nil ->
  digitsPrefix None (DecimalString.NilEmpty.string_of_uint d) = Some (readDigits 0 d).
Proof.
  destruct d; intros H; [congruence|..]; cbn; apply digitsPrefix_string_of_uint.
Qed.

Lemma readDigits_revapp d d' :
  readDigits (Z.of_N (DecimalPos.Unsigned.of_lu d')) d = Z.of_N (DecimalPos.Unsigned.of_lu (Decimal.revapp d d')).
Proof.
  revert d'. induction d; intros d'; cbn [readDigits Decimal.revapp]; [reflexivity|..];
    rewrite <- IHd; f_equal; cbn [DecimalPos.Unsigned.of_lu]; lia.
Qed.

Lemma readDigits_to_uint p : readDigits 0 (Pos.to_uint p) = Z.pos p.
Proof.
  change 0 with (Z.of_N (DecimalPos.Unsigned.of_lu Decimal.Nil)).
  rewrite readDigits_revapp. fold (Decimal.rev (Pos.to_uint p)).
  rewrite <- DecimalPos.Unsigned.of_uint_alt, DecimalPos.Unsigned.of_to. reflexivity.
Qed.

Lemma string_of_uint_head d :
  d <> Decimal.Nil ->
  exists c rest, DecimalString.NilEmpty.string_of_uint d = String c rest
                 /\ isWhiteSpace c = false /\ c <> "-"%char /\ c <> "+"%char.
Proof.
  destruct d; intros H; [congruence|..]; cbn; eexists; eexists;
    (split; [reflexivity|]); repeat split; discriminate.
Qed.

Lemma parseInt10_unsigned c rest :
  isWhiteSpace c = false -> c <> "-"%char -> c <> "+"%char ->
  parseInt10 (String c rest)
  = match digitsPrefix None (String c rest) with
    | Some v => toNumber v
    | None => NaN
    end.
Proof.
  intros Hw Hm Hp. unfold parseInt10. cbn [trimStart]. rewrite Hw.
  destruct c as [[] [] [] [] [] [] [] []]; try reflexivity; congruence.
Qed.

Lemma parseInt10_digits d :
  d <> Decimal.Nil ->
  parseInt10 (DecimalString.NilEmpty.string_of_uint d)
  = toNumber (readDigits 0 d).
Proof.
  intros H. destruct (string_of_uint_head d H) as (c & rest & E & Hw & Hm & Hp).
  rewrite E, (parseInt10_unsigned c rest Hw Hm Hp), <- E.
  now rewrite digitsPrefix_None_string_of_uint.
Qed.

(** An integer below 2^53 is a [number]. *)
Lemma toNumber_safe z : Z.abs z < 2 ^ 53 -> toNumber z = Num z.
Proof.
  intros H. unfold toNumber. cbv zeta.
  destruct (Z.ltb_spec (Z.abs z) (2 ^ 53)) as [_|Hge]; [reflexivity | lia].
Qed.

(** Reading the numeral of an integer below 2^53 gives the integer. *)
Lemma parseInt10_decimal z : Z.abs z < 2 ^ 53 -> parseInt10 (decimal z) = Num z.
Proof.
  intros Hz. rewrite <- (toNumber_safe z Hz). clear Hz. unfold decimal.
  destruct z as [|p|p]; [reflexivity|..];
    cbn [Z.to_int DecimalString.NilZero.string_of_int].
  - unfold DecimalString.NilZero.string_of_uint.
    pose proof (DecimalPos.Unsigned.to_uint_nonnil p) as Hn.
    destruct (Pos.to_uint p) eqn:E; [congruence|..]; rewrite <- E in *;
      rewrite (parseInt10_digits _ Hn), readDigits_to_uint; reflexivity.
  - unfold DecimalString.NilZero.string_of_uint.
    pose proof (DecimalPos.Unsigned.to_uint_nonnil p) as Hn.
    assert (Hs : DecimalString.NilZero.string_of_uint (Pos.to_uint p)
                 = DecimalString.NilEmpty.string_of_uint (Pos.to_uint p)).
    { unfold DecimalString.NilZero.string_of_uint.
      destruct (Pos.to_uint p); [congruence|..]; reflexivity. }
    fold (DecimalString.NilZero.string_of_uint (Pos.to_uint p)). rewrite Hs.
    unfold parseInt10. cbn [trimStart].
    change (isWhiteSpace "-") with false. cbv iota.
    rewrite (digitsPrefix_None_string_of_uint _ Hn), readDigits_to_uint.
    reflexivity.
Qed.

(** The port that is shown parses to the port that was sent, as long as
    that is [NaN] or an integer below 2^53. *)
Lemma parseInt10_numberToString n :
  match n with
  | NaN => True
  | Num z => Z.abs z < 2 ^ 53
  | Infinity _ => False
  end ->
  parseInt10 (numberToString n) = n.
Proof.
  destruct n as [|z|negative]; [reflexivity| |intros []].
  intros Hz. unfold numberToString.
  destruct (Z.ltb_spec (Z.abs z) (2 ^ 53)) as [_|Hge]; [|lia].
  now apply parseInt10_decimal.
Qed.

(** Large integers are rounded when they are read, and printed with an
    exponent from 10^21 on, which [parseInt] does not read. *)
Example parseInt10_of_large_numerals :
  parseInt10 "9007199254740993" = Num 9007199254740992
  /\ numberToString (parseInt10 "18446744073709551616")
     = "18446744073709552000"
  /\ numberToString (parseInt10 "1000000000000000000000") = "1e+21"
  /\ parseInt10 "1e+21" = Num 1
  /\ parseInt10 " +12abc" = Num 12
  /\ parseInt10 "abc" = NaN.
Proof. vm_compute. repeat split. Qed.

(** X10: a submit without [importID] on which create-import, the event
    manager's call and the folder listing all succeed sends exactly these
    three, in this order, and puts the wizard in step [PREPARE] with the
    [importID] the server returned and the email and host of the closure;
    the port it shows is the [ImapPort] that was sent to the server,
    printed, and parses to that very [ImapPort] when this is [NaN] or an
    integer below 2^53.  The password and the payload are those of the
    current state. *)
Theorem successful_create_enters_PREPARE
        (K : Constants) (srv : Server)
        (modalModel current : ImportMailModalModel)
        (id : string) (folders : option (list ImportedMailFolder.t)) :
  truthy (importID modalModel) = false ->
  truthy (imap modalModel) = true ->
  truthy (port modalModel) = true ->
  let mail := mailOf modalModel (if hasIMAPError K modalModel then 1 else 0) in
  onCreateImport srv mail = Returned id ->
  onCall srv = Returned tt ->
  onGetMailImportData srv id (password modalModel) = Returned folders ->
  let after := stateAfter (submitAuthentication K srv modalModel) current in
  performed (submitAuthentication K srv modalModel) current
  = [ApiCall (createImport mail) true (Returned (AnsImporterID id));
     EventManagerCall;
     ApiCall (getMailImportData id (password modalModel)) false
             (Returned (AnsFolders folders))]
  /\ step after = PREPARE
  /\ importID after = id
  /\ email after = email modalModel
  /\ imap after = imap modalModel
  /\ port after = numberToString (CreateImapPort mail)
  /\ (CreateImapPort mail = NaN -> parseInt10 (port after) = NaN)
  /\ (forall n,
        CreateImapPort mail = Num n -> Z.abs n < 2 ^ 53 ->
        parseInt10 (port after) = Num n)
  /\ password after = password current
  /\ payload after = payload current.
Proof.
  intros Hid Hi Hp mail Hc Hcall Hf. subst mail. cbv zeta.
  unfold performed, stateAfter, submitAuthentication, mailOf in *.
  rewrite Hid, Hi, Hp. cbn [andb].
  unfold tryCatch, bind, api, call, moveToPrepareStep, setModalModel.
  cbn [fst snd model effects]. rewrite Hc. cbn [fst snd model effects].
  rewrite Hcall, Hf.
  cbn [fst snd model effects prepareStepModel step importID email imap port
       password payload CreateImapPort Importer.ID Importer.Email
       Importer.ImapHost Importer.ImapPort app].
  repeat split.
  - intros ->. reflexivity.
  - intros n -> Hn. now apply (parseInt10_numberToString (Num n)).
Qed.

Lemma successful_create_enters_PREPARE_witness :
  parseInt10
    (port (stateAfter (submitAuthentication sampleConstants sampleServer
                                            (typedModel "993 "))
                      (typedModel "993 ")))
  = Num 993.
Proof.
  apply (successful_create_enters_PREPARE
           sampleConstants sampleServer (typedModel "993 ") (typedModel "993 ")
           "importer-1" (Some sampleFolders));
    reflexivity.
Defined.

(** A port of 22 digits is accepted and sent as 10^21, and the wizard then
    shows it as [1e+21], which a later [parseInt] reads as 1. *)
Example port_of_22_digits_is_not_kept :
  let m := typedModel "1000000000000000000000" in
  let after := stateAfter (submitAuthentication sampleConstants sampleServer m)
                          m in
  step after = PREPARE
  /\ port after = "1e+21"
  /\ parseInt10 (port m) = Num (10 ^ 21)
  /\ parseInt10 (port after) = Num 1.
Proof. vm_compute. repeat split. Qed.

(** X11: [launchImport] sends the start request for the formatted payload.
    If that request is rejected, the rejection goes to the caller, the
    event manager is not called and the state is unchanged.  If it succeeds
    but the event manager's call is rejected, the rejection goes to the
    caller and the wizard stays where it was although the task has been
    started.  If both succeed, the step becomes [STARTED] and [importID],
    [email], the payload and [errorCode] are kept. *)
Theorem launchImport_outcomes
        (K : Constants) (srv : Server)
        (modalModel current : ImportMailModalModel) :
  let request := startImportTask (formatImportPayload K modalModel) in
  let done := performed (launchImport K srv modalModel) current in
  let after := stateAfter (launchImport K srv modalModel) current in
  (forall e,
      onStartImportTask srv (formatImportPayload K modalModel) = Thrown e ->
      outcome (launchImport K srv modalModel) current = Thrown e
      /\ done = [ApiCall request false (Thrown e)]
      /\ after = current)
  /\ (forall e,
        onStartImportTask srv (formatImportPayload K modalModel) = Returned tt ->
        onCall srv = Thrown e ->
        outcome (launchImport K srv modalModel) current = Thrown e
        /\ done = [ApiCall request false (Returned AnsDone); EventManagerCall]
        /\ after = current)
  /\ (onStartImportTask srv (formatImportPayload K modalModel) = Returned tt ->
      onCall srv = Returned tt ->
      outcome (launchImport K srv modalModel) current = Returned tt
      /\ done = [ApiCall request false (Returned AnsDone); EventManagerCall]
      /\ step after = STARTED
      /\ importID after = importID current
      /\ email after = email current
      /\ payload after = payload current
      /\ errorCode after = errorCode current).
Proof.
  cbv zeta. unfold outcome, performed, stateAfter, launchImport.
  unfold bind, api, call, setModalModel. cbn [fst snd model effects].
  repeat split; intros;
    repeat match goal with H : _ = _ |- _ => rewrite H end;
    cbn; try reflexivity; destruct current; reflexivity.
Qed.

(** X12: the payload [formatImportPayload] builds names the wizard's
    [importID] and address; its mapping holds a source with its
    destinations exactly when a checked mapping of the wizard's payload has
    them, so that an unchecked folder is never sent; and it has a start
    time exactly when the wizard's payload has one. *)
Theorem formatImportPayload_sends_checked_mappings
        (K : Constants) (modalModel : ImportMailModalModel) :
  let sent := formatImportPayload K modalModel in
  StartImporterID sent = importID modalModel
  /\ StartAddressID sent = Payload.AddressID (payload modalModel)
  /\ (forall source destinations,
        In (source, destinations) (StartMapping sent)
        <-> exists m,
            In m (Payload.Mapping (payload modalModel))
            /\ MailImportMapping.checked m = true
            /\ MailImportMapping.Source m = source
            /\ MailImportMapping.Destinations m = destinations)
  /\ (List.length (StartMapping sent)
      <= List.length (Payload.Mapping (payload modalModel)))%nat
  /\ (StartStartTime sent = None <-> Payload.StartTime (payload modalModel) = None).
Proof.
  cbv zeta. unfold formatImportPayload. cbn. repeat split.
  - intros H. apply in_map_iff in H. destruct H as (m & [= <- <-] & Hm).
    apply filter_In in Hm. exists m. tauto.
  - intros (m & Hm & Hc & <- & <-). apply in_map_iff. exists m.
    split; [reflexivity|]. apply filter_In. tauto.
  - rewrite length_map. apply filter_length_le.
  - destruct (Payload.StartTime _); [discriminate | reflexivity].
  - intros ->. reflexivity.
Qed.

(** X13: [resumeImporter] never changes the wizard state.  It sends the
    update of the import first and the resume request only after the update
    succeeded; it closes the wizard exactly when it returns, which is
    exactly when the update, the resume request and the event manager's
    call all succeed. *)
Theorem resumeImporter_updates_then_resumes
        (K : Constants) (srv : Server)
        (modalModel current : ImportMailModalModel) :
  let mail :=
    {| UpdateAccount := email modalModel;
       UpdateCode := password modalModel;
       UpdateImapHost := imap modalModel;
       UpdateImapPort := parseInt10 (port modalModel);
       UpdateSasl := PLAIN |} in
  let done := performed (resumeImporter srv modalModel) current in
  stateAfter (resumeImporter srv modalModel) current = current
  /\ (requestsIn done = [updateImport (importID modalModel) mail]
      \/ requestsIn done
         = [updateImport (importID modalModel) mail;
            resumeImport (importID modalModel) [MAIL]])
  /\ ((exists e, onUpdateImport srv (importID modalModel) mail = Thrown e) ->
      requestsIn done = [updateImport (importID modalModel) mail])
  /\ (existsb isOnClose done = true
      <-> outcome (resumeImporter srv modalModel) current = Returned tt)
  /\ (outcome (resumeImporter srv modalModel) current = Returned tt
      <-> (onUpdateImport srv (importID modalModel) mail = Returned tt
           /\ onResumeImport srv (importID modalModel) = Returned tt
           /\ onCall srv = Returned tt)).
Proof.
  cbv zeta. unfold outcome, performed, stateAfter, resumeImporter.
  unfold bind, api, call, emit. cbn [fst snd model effects].
  destruct (onUpdateImport srv _ _) as [[]|e1] eqn:E1; cbn;
    [destruct (onResumeImport srv _) as [[]|e2] eqn:E2; cbn;
     [destruct (onCall srv) as [[]|e3] eqn:E3; cbn|]|].
  all: repeat split; auto; try discriminate; try tauto.
  all: try (intros (e & He); discriminate He).
  all: try (intros (H1 & H2 & H3); discriminate).
  all: destruct current; reflexivity.
Qed.

(** *** Runs *)

Lemma requestsIn_app a b : requestsIn (a ++ b) = requestsIn a ++ requestsIn b.
Proof. unfold requestsIn. apply flat_map_app. Qed.

Section Reconnect.
Context (K : Constants) (props : Props).
Hypothesis reconnect : isReconnectMode props = true.

Lemma handleSubmit_reconnect srv closure w :
  step closure = START ->
  model (snd (handleSubmit K props srv closure w)) = model w
  /\ exists extra,
      effects (snd (handleSubmit K props srv closure w)) = effects w ++ extra
      /\ Forall (fun r => belongsToNewImport r = false) (requestsIn extra).
Proof.
  intros Hs. unfold handleSubmit. rewrite Hs, reconnect.
  unfold_handlers. split_cases; cbn; (split; [reflexivity|]);
    eexists; (split; [rewrite <- ?app_assoc; reflexivity|]);
    cbn; repeat constructor.
Qed.

Lemma emailEffect_requests srv closure d w :
  step (model (snd (emailEffect K srv closure d w))) = step (model w)
  /\ exists extra,
      effects (snd (emailEffect K srv closure d w)) = effects w ++ extra
      /\ Forall (fun r => belongsToNewImport r = false) (requestsIn extra).
Proof.
  unfold_handlers. split_cases; cbn; (split; [reflexivity|]);
    first [ exists []; split; [now rewrite app_nil_r | cbn; constructor]
          | eexists; (split; [reflexivity|]); cbn; repeat constructor ].
Qed.

Lemma handleCancel_requests closure w :
  model (snd (handleCancel props closure w)) = model w
  /\ exists extra,
      effects (snd (handleCancel props closure w)) = effects w ++ extra
      /\ requestsIn extra = [].
Proof.
  unfold_handlers. split_cases; cbn; (split; [reflexivity|]);
    eexists; (split; [reflexivity|]); reflexivity.
Qed.

Lemma dispatch_staysInStart w ev :
  staysInStart w -> staysInStart (dispatch K props w ev).
Proof.
  intros [Hsteps Hreqs]. unfold staysInStart, dispatch. cbn [world rendered].
  assert (Hclosure : forall age, step (closureAt age w) = START).
  { intros age. rewrite Forall_forall in Hsteps. apply Hsteps.
    apply closureAt_In. }
  assert (Hnow : step (model (world w)) = START) by now inversion Hsteps.
  destruct ev as [e|age d srv|age srv|age]; cbn [handlerOf].
  - cbn. split; [constructor; [exact Hnow | exact Hsteps] | exact Hreqs].
  - destruct (emailEffect_requests srv (closureAt age w) d (world w))
      as (Hst & extra & -> & Hx).
    split; [constructor; [congruence | exact Hsteps]|].
    rewrite requestsIn_app. apply Forall_app. now split.
  - destruct (handleSubmit_reconnect srv (closureAt age w) (world w)
                                     (Hclosure age))
      as (Hm & extra & -> & Hx).
    split; [constructor; [congruence | exact Hsteps]|].
    rewrite requestsIn_app. apply Forall_app. now split.
  - destruct (handleCancel_requests (closureAt age w) (world w))
      as (Hm & extra & -> & Hx).
    split; [constructor; [congruence | exact Hsteps]|].
    rewrite requestsIn_app, Hx, app_nil_r. exact Hreqs.
Qed.

Lemma runEvents_staysInStart evs w :
  staysInStart w -> staysInStart (runEvents K props evs w).
Proof.
  revert w. induction evs as [|ev evs IH]; intros w H; cbn; [exact H|].
  apply IH. now apply dispatch_staysInStart.
Qed.
End Reconnect.

(** X14: in reconnect mode the wizard never leaves step [START]: after
    any sequence of events (handlers with stale closures included) the step
    is [START], and no request of a new import (fetching or creating an
    importer, listing folders, starting the task) has been sent. *)
Theorem reconnect_mode_stays_in_START
        (K : Constants) (user : User) (props : Props) (evs : list Event)
        (w0 : Wizard) :
  isReconnectMode props = true ->
  mount K user props = Some w0 ->
  let w := runEvents K props evs w0 in
  step (model (world w)) = START
  /\ Forall (fun r => belongsToNewImport r = false)
            (requestsIn (effects (world w))).
Proof.
  intros Hr Hm. cbv zeta.
  assert (H0 : staysInStart w0).
  { unfold mount, initialModalModel in Hm.
    destruct (addresses props); [discriminate|]. injection Hm as <-.
    split; cbn; repeat constructor. }
  destruct (runEvents_staysInStart K props Hr evs w0 H0) as [Hs Hq].
  split; [now inversion Hs | exact Hq].
Qed.

Lemma reconnect_mode_stays_in_START_witness :
  step (model (world (runEvents sampleConstants reconnectProps
                                [FormSubmit 0 sampleServer;
                                 FormSubmit 1 sampleServer]
                                reconnectWizard)))
  = START.
Proof.
  apply (reconnect_mode_stays_in_START
           sampleConstants sampleUser reconnectProps
           [FormSubmit 0 sampleServer; FormSubmit 1 sampleServer]
           reconnectWizard eq_refl eq_refl).
Defined.

(** One event with a fresh closure moves the step forward by one at most. *)
Lemma handlerOf_fresh_step K props w ev :
  fresh ev = true ->
  let before := step (model (world w)) in
  let after := step (model (snd (handlerOf K props ev w (world w)))) in
  (stepRank before <= stepRank after <= S (stepRank before))%nat.
Proof.
  cbv zeta. destruct ev as [e|age d srv|age srv|age]; cbn [fresh handlerOf];
    intros Hf; try (apply Nat.eqb_eq in Hf; subst age);
    unfold closureAt; cbn [nth].
  - cbn. lia.
  - unfold_handlers. split_cases; cbn; lia.
  - unfold_handlers. split_cases; cbn;
      repeat match goal with H : step _ = _ |- _ => rewrite H end; cbn; lia.
  - unfold_handlers. split_cases; cbn; lia.
Qed.

(** X15: events whose handlers run with the current state as their closure
    never move the wizard back: over a sequence of such events the step
    moves forward along [START], [PREPARE], [STARTED], by at most one step
    an event. *)
Theorem fresh_events_move_forward
        (K : Constants) (props : Props) (evs : list Event) (w : Wizard) :
  forallb fresh evs = true ->
  (stepRank (step (model (world w)))
   <= stepRank (step (model (world (runEvents K props evs w))))
   <= stepRank (step (model (world w))) + List.length evs)%nat.
Proof.
  revert w. induction evs as [|ev evs IH]; intros w Hf.
  - cbn. lia.
  - cbn [forallb] in Hf. apply andb_prop in Hf. destruct Hf as [Hev Hevs].
    change (runEvents K props (ev :: evs) w)
      with (runEvents K props evs (dispatch K props w ev)).
    specialize (IH (dispatch K props w ev) Hevs).
    pose proof (handlerOf_fresh_step K props w ev Hev) as Hs.
    cbv zeta in Hs.
    change (model (world (dispatch K props w ev)))
      with (model (snd (handlerOf K props ev w (world w)))) in IH.
    cbn [List.length]. lia.
Qed.

Lemma fresh_events_move_forward_witness :
  (0 <= stepRank (step (model (world (runEvents sampleConstants
                                                (newImportProps None)
                                                sampleRun newImportWizard))))
   <= 3)%nat.
Proof.
  apply (fresh_events_move_forward sampleConstants (newImportProps None)
                                   sampleRun newImportWizard eq_refl).
Defined.

(** X16: the effect on the debounced email looks the authentication method
    up only when its closure is in step [START] with both host and port
    empty and the debounced email is non-empty and valid; otherwise it does
    nothing at all.  The lookup is sent for the [email] of the closure, and
    whatever the server answers, [step], [email], [password], the error
    fields, the folders and the payload are unchanged. *)
Theorem emailEffect_looks_up_when_blank
        (K : Constants) (srv : Server)
        (modalModel current : ImportMailModalModel) (debouncedEmail : string) :
  let done := performed (emailEffect K srv modalModel debouncedEmail) current in
  let after := stateAfter (emailEffect K srv modalModel debouncedEmail) current in
  let due :=
    stepEqb (step modalModel) START
    && negb (truthy (imap modalModel)) && negb (truthy (port modalModel))
    && truthy debouncedEmail && validateEmailAddress K debouncedEmail in
  (due = false -> done = [] /\ after = current)
  /\ (due = true ->
      done = [ApiCall (getAuthenticationMethod (email modalModel)) false
                      (mapCompletion AnsAuthentication
                         (onGetAuthenticationMethod srv (email modalModel)))])
  /\ step after = step current
  /\ email after = email current
  /\ password after = password current
  /\ errorCode after = errorCode current
  /\ errorLabel after = errorLabel current
  /\ providerFolders after = providerFolders current
  /\ payload after = payload current.
Proof.
  cbv zeta. unfold performed, stateAfter, emailEffect.
  destruct (step modalModel), (truthy (imap modalModel)),
    (truthy (port modalModel)), (truthy debouncedEmail),
    (validateEmailAddress K debouncedEmail); cbn;
    unfold_handlers; split_cases; cbn;
    repeat split; intros; try discriminate; try reflexivity;
    destruct current; reflexivity.
Qed.

(** X17: [checkAuth] never empties a field: an [importID], host or port
    that is non-empty stays non-empty.  A rejected lookup changes nothing
    and is passed on; an answered lookup puts each non-empty value of the
    answer into the state and keeps the current value where the answer has
    none. *)
Theorem checkAuth_never_empties
        (K : Constants) (srv : Server)
        (modalModel current : ImportMailModalModel) :
  let after := stateAfter (checkAuth srv modalModel) current in
  (truthy (importID current) = true -> truthy (importID after) = true)
  /\ (truthy (imap current) = true -> truthy (imap after) = true)
  /\ (truthy (port current) = true -> truthy (port after) = true)
  /\ (forall e,
        onGetAuthenticationMethod srv (email modalModel) = Thrown e ->
        after = current
        /\ outcome (checkAuth srv modalModel) current = Thrown e)
  /\ (forall auth,
        onGetAuthenticationMethod srv (email modalModel) = Returned auth ->
        imap after = optOrElse (AuthImapHost auth) (imap current)
        /\ port after = optOrElse (AuthImapPort auth) (port current)
        /\ importID after = optOrElse (AuthImporterID auth) (importID current)
        /\ (truthyOpt (AuthImapHost auth) = true ->
            Some (imap after) = AuthImapHost auth)).
Proof.
  cbv zeta. unfold outcome, stateAfter, checkAuth, bind, api, setModalModel.
  cbn [fst snd model effects].
  assert (Hkeep : forall o s, truthy s = true -> truthy (optOrElse o s) = true).
  { intros [x|] y Hy; cbn; [|exact Hy]. unfold orElse.
    destruct (truthy x) eqn:E; [exact E | exact Hy]. }
  destruct (onGetAuthenticationMethod srv (email modalModel)) as [auth|e];
    cbn.
  - split; [apply Hkeep|]. split; [apply Hkeep|]. split; [apply Hkeep|].
    split; [intros e [=]|]. intros a [= <-]. repeat split.
    destruct (AuthImapHost auth) as [h|]; cbn; [|discriminate].
    unfold orElse. now intros ->.
  - split; [auto|]. split; [auto|]. split; [auto|].
    split; [|intros a [=]]. intros e0 [= <-].
    split; [destruct current; reflexivity | reflexivity].
Qed.

(** X18: when the submit button of the start step is enabled, a submit
    always sends a request, and the first one is the update of the import
    in reconnect mode, the request for the importer when there is an
    [importID], and create-import otherwise; the branch that only clears
    [imap] is never taken from an enabled button. *)
Theorem enabled_start_button_contacts_server
        (K : Constants) (isNumber : string -> bool) (props : Props)
        (srv : Server) (modalModel current : ImportMailModalModel) :
  step modalModel = START ->
  disabledStartStep isNumber modalModel = false ->
  exists rest,
    requestsIn (performed (handleSubmit K props srv modalModel) current)
    = (if isReconnectMode props
       then updateImport (importID modalModel)
                         {| UpdateAccount := email modalModel;
                            UpdateCode := password modalModel;
                            UpdateImapHost := imap modalModel;
                            UpdateImapPort := parseInt10 (port modalModel);
                            UpdateSasl := PLAIN |}
       else if truthy (importID modalModel)
            then getImport (importID modalModel)
            else createImport
                   (mailOf modalModel
                           (if hasIMAPError K modalModel then 1 else 0)))
      :: rest.
Proof.
  intros Hs Hd. unfold disabledStartStep in Hd.
  repeat (apply orb_false_elim in Hd; destruct Hd as [Hd ?]).
  repeat match goal with
         | H : negb _ = false |- _ => apply negb_false_iff in H
         end.
  unfold performed, handleSubmit. rewrite Hs.
  destruct (isReconnectMode props).
  - unfold_handlers. split_cases; cbn; eexists; reflexivity.
  - unfold submitAuthentication.
    destruct (truthy (importID modalModel)).
    + unfold_handlers. split_cases; cbn; eexists; reflexivity.
    + repeat match goal with H : truthy _ = true |- _ => rewrite H end.
      cbn [andb]. unfold mailOf.
      unfold_handlers. split_cases; cbn; eexists; reflexivity.
Qed.

Lemma enabled_start_button_contacts_server_witness :
  exists rest,
    requestsIn (performed (handleSubmit sampleConstants (newImportProps None)
                                        sampleServer (filledModel ""))
                          (filledModel ""))
    = createImport (mailOf (filledModel "") 0) :: rest.
Proof.
  apply (enabled_start_button_contacts_server
           sampleConstants sampleIsNumber (newImportProps None) sampleServer
           (filledModel "") (filledModel "") eq_refl eq_refl).
Defined.

(** X19: the wizard has an initial state exactly when there is at least
    one address.  It then starts in step [START] with an empty password, no
    error, no folders, an empty mapping bound to the first address, and
    nothing done; its submit button is disabled, also in reconnect
    mode. *)
Theorem mounted_wizard_cannot_submit_yet
        (K : Constants) (isNumber : string -> bool) (user : User)
        (props : Props) :
  (mount K user props = None <-> addresses props = [])
  /\ forall w0,
      mount K user props = Some w0 ->
      let m := model (world w0) in
      step m = START
      /\ password m = ""
      /\ errorCode m = 0 /\ errorLabel m = ""
      /\ providerFolders m = []
      /\ Payload.Mapping (payload m) = []
      /\ (exists first rest, addresses props = first :: rest
                             /\ Payload.AddressID (payload m) = Address.ID first)
      /\ effects (world w0) = []
      /\ disabledStartStep isNumber m = true
      /\ forall loading page,
          option_map disabled (submitRenderer K isNumber props m loading page)
          = Some true.
Proof.
  unfold mount, initialModalModel.
  destruct (addresses props) as [|first rest]; cbn.
  - split; [tauto | discriminate].
  - split; [split; discriminate|]. intros w0 [= <-]. cbn.
    assert (Hd : forall m, password m = "" -> disabledStartStep isNumber m = true).
    { intros m Hp. unfold disabledStartStep. rewrite Hp. cbn.
      now rewrite orb_true_r. }
    repeat split.
    + exists first, rest. now split.
    + now apply Hd.
    + intros loading page. unfold submitRenderer. cbn. f_equal. now apply Hd.
Qed.

Lemma mounted_wizard_cannot_submit_yet_witness :
  disabledStartStep sampleIsNumber (model (world newImportWizard)) = true.
Proof.
  apply (proj2 (mounted_wizard_cannot_submit_yet
                  sampleConstants sampleIsNumber sampleUser
                  (newImportProps None))
               newImportWizard eq_refl).
Defined.

(** *** The Cancel button of the footer *)

(** No handler takes the wizard back to step [START]. *)
Lemma handlerOf_START_before K props ev w :
  step (model (snd (handlerOf K props ev w (world w)))) = START ->
  step (model (world w)) = START.
Proof.
  destruct ev as [e|age d srv|age srv|age]; cbn [handlerOf].
  - cbn. auto.
  - unfold_handlers. split_cases; cbn; congruence.
  - unfold_handlers. split_cases; cbn; congruence.
  - unfold_handlers. split_cases; cbn; congruence.
Qed.

(** The first render stays the oldest one, and a wizard in step [START]
    has never been in another step. *)
Lemma runEvents_history K props evs w m0 :
  (exists hist, model (world w) :: rendered w = hist ++ [m0]) ->
  (step (model (world w)) = START ->
   Forall (fun m => step m = START) (rendered w)) ->
  let w' := runEvents K props evs w in
  (exists hist, model (world w') :: rendered w' = hist ++ [m0])
  /\ (step (model (world w')) = START ->
      Forall (fun m => step m = START) (rendered w')).
Proof.
  revert w. induction evs as [|ev evs IH]; intros w Hh Hs; cbn; [now split|].
  apply IH.
  - destruct Hh as (hist & Hh). cbn [dispatch world rendered].
    exists (model (snd (handlerOf K props ev w (world w))) :: hist).
    cbn. now rewrite Hh.
  - cbn [dispatch world rendered]. intros H.
    apply handlerOf_START_before in H. constructor; [exact H | now apply Hs].
Qed.

Lemma sameStepRenders_all s l :
  Forall (fun m => step m = s) l -> sameStepRenders s l = List.length l.
Proof.
  induction 1 as [|m l Hm Hl IH]; cbn; [reflexivity|].
  rewrite Hm, IH. now destruct s.
Qed.

(** X27: the Cancel button of the footer is memoised on the step alone, so
    it keeps the [handleCancel] of the render in which the step last
    changed.  A new import is mounted with an empty email and in step
    [START]: as long as the wizard is in step [START], after any sequence
    of events, a click on that button closes the wizard at once, without
    the confirmation, whatever has been entered since; the state is not
    changed. *)
Theorem footer_cancel_in_START_closes_at_once
        (K : Constants) (user : User) (props : Props) (evs : list Event)
        (w0 : Wizard) :
  isReconnectMode props = false ->
  mount K user props = Some w0 ->
  let w := runEvents K props evs w0 in
  step (model (world w)) = START ->
  let w' := dispatch K props w (footerCancelClick w) in
  effects (world w') = effects (world w) ++ [OnClose]
  /\ model (world w') = model (world w).
Proof.
  intros Hr Hm w Hs. cbv zeta.
  assert (Hemail : email (model (world w0)) = ""
                   /\ rendered w0 = []).
  { unfold mount, initialModalModel in Hm. unfold isReconnectMode in Hr.
    destruct (addresses props); [discriminate|]. injection Hm as <-.
    destruct (currentImport props); [discriminate|]. split; reflexivity. }
  destruct Hemail as [Hemail Hr0].
  destruct (runEvents_history K props evs w0 (model (world w0))) as [Hh Hall].
  { exists []. now rewrite Hr0. }
  { intros _. rewrite Hr0. constructor. }
  fold w in Hh, Hall. destruct Hh as (hist & Hh). specialize (Hall Hs).
  assert (Hc : closureAt (sameStepRenders (step (model (world w))) (rendered w))
                         w
               = model (world w0)).
  { rewrite Hs, (sameStepRenders_all START _ Hall). unfold closureAt.
    rewrite Hh.
    assert (Hl : List.length (rendered w) = List.length hist).
    { apply (f_equal (@List.length _)) in Hh. rewrite length_app in Hh.
      cbn in Hh. lia. }
    rewrite Hl, app_nth2, Nat.sub_diag; [reflexivity | lia]. }
  unfold dispatch, footerCancelClick. cbn [world handlerOf]. rewrite Hc.
  unfold handleCancel. rewrite Hemail. cbn. split; reflexivity.
Qed.

Lemma footer_cancel_in_START_closes_at_once_witness :
  let typed :=
    UserEdit {| newEmail := "user@example.org";
                newPassword := "secret";
                newImap := "imap.example.org";
                newPort := "993";
                newSelectedPeriod := LAST_3_MONTHS;
                newPayload := payload (filledModel "");
                newIsPayloadInvalid := false |} in
  let w := runEvents sampleConstants (newImportProps None) [typed]
                     newImportWizard in
  email (model (world w)) = "user@example.org"
  /\ effects (world (dispatch sampleConstants (newImportProps None) w
                              (footerCancelClick w)))
     = [OnClose].
Proof.
  cbv zeta. split; [reflexivity|].
  apply (proj1 (footer_cancel_in_START_closes_at_once
                  sampleConstants sampleUser (newImportProps None)
                  [UserEdit {| newEmail := "user@example.org";
                               newPassword := "secret";
                               newImap := "imap.example.org";
                               newPort := "993";
                               newSelectedPeriod := LAST_3_MONTHS;
                               newPayload := payload (filledModel "");
                               newIsPayloadInvalid := false |}]
                  newImportWizard eq_refl eq_refl eq_refl)).
Defined.
End ImportMailMoreFacts.

(** ** Proofs for the address badge *)

Module DomainAddressStatusFacts.
Import JS DomainAddressStatus DomainAddressStatusSpec.

(** X20: which badge an address gets, when the enabled and the disabled
    status are different values: "Missing keys" exactly when the address has
    no keys, whatever its status; "Enabled" exactly when it has keys, is
    enabled and receives; "Disabled" exactly when it has keys and is
    disabled; and no badge in every other case, in particular for an
    enabled address that does not receive. *)
Theorem DomainAddressStatus_badges
        (C : AddressConstants) (address : DomainAddress) :
  STATUS_ENABLED C <> STATUS_DISABLED C ->
  let badge := option_map children (DomainAddressStatus C address) in
  (badge = Some "Missing keys" <-> HasKeys address = 0)
  /\ (badge = Some "Enabled"
      <-> HasKeys address <> 0 /\ Status address = STATUS_ENABLED C
          /\ Receive address = RECEIVE_YES C)
  /\ (badge = Some "Disabled"
      <-> HasKeys address <> 0 /\ Status address = STATUS_DISABLED C)
  /\ (badge = None
      <-> HasKeys address <> 0 /\ Status address <> STATUS_DISABLED C
          /\ (Status address <> STATUS_ENABLED C
              \/ Receive address <> RECEIVE_YES C)).
Proof.
  intros Hc. cbv zeta. unfold DomainAddressStatus.
  destruct (Z.eqb_spec (HasKeys address) 0) as [Hk|Hk];
    destruct (Z.eqb_spec (Status address) (STATUS_ENABLED C)) as [He|He];
    destruct (Z.eqb_spec (Receive address) (RECEIVE_YES C)) as [Hr|Hr];
    destruct (Z.eqb_spec (Status address) (STATUS_DISABLED C)) as [Hd|Hd];
    cbn; repeat split; intros; try discriminate; try tauto; try congruence;
    try (exfalso; intuition congruence).
Qed.

Lemma DomainAddressStatus_badges_witness :
  option_map children
    (DomainAddressStatus sampleAddressConstants
       {| Status := 0; Receive := 1; HasKeys := 0 |})
  = Some "Missing keys".
Proof.
  apply (proj1 (DomainAddressStatus_badges
                  sampleAddressConstants
                  {| Status := 0; Receive := 1; HasKeys := 0 |}
                  ltac:(discriminate))).
  reflexivity.
Defined.
End DomainAddressStatusFacts.

(** ** Proofs for the drive hook *)

Module DriveCryptoFacts.
Import JS Async DriveCrypto DriveCryptoSpec.

Section Facts.
Context {Address AddressKey OpenPGPKey SplitKeys Signature Rejection : Type}.
Context (addressID : Address -> string).
Context (getActiveAddresses : list Address -> list Address).
Context (isDecrypted : OpenPGPKey -> bool).
Context (getPrimaryKey :
           list AddressKey -> option (PrimaryKey (OpenPGPKey := OpenPGPKey))).
Context (services : Services (Address := Address) (AddressKey := AddressKey)
                             (OpenPGPKey := OpenPGPKey)
                             (Signature := Signature)
                             (Rejection := Rejection)).

Let primary :=
  getPrimaryAddressKey addressID getActiveAddresses isDecrypted getPrimaryKey
                       services.

Ltac run_primary :=
  unfold primary, run, getPrimaryAddressKey, bind, await, emit, throw, ret;
  cbn [fst snd].

Lemma getPrimaryAddressKey_cases :
  (exists e, getAddresses services = Thrown e
             /\ run primary = (Thrown e, [GetAddresses]))
  \/ (exists addresses,
         getAddresses services = Returned addresses
         /\ getActiveAddresses addresses = []
         /\ run primary
            = (Thrown (Error "User has no active address"),
               [GetAddresses;
                CreateNotification "No valid address found"
                                   errorNotification]))
  \/ (exists addresses active rest,
         getAddresses services = Returned addresses
         /\ getActiveAddresses addresses = active :: rest
         /\ ((exists e,
                 getAddressKeys services (addressID active) = Thrown e
                 /\ run primary
                    = (Thrown e,
                       [GetAddresses; GetAddressKeys (addressID active)]))
             \/ (exists keys,
                    getAddressKeys services (addressID active) = Returned keys
                    /\ ((run primary
                         = (Thrown (Error "Primary private key is not decrypted"),
                            [GetAddresses; GetAddressKeys (addressID active)])
                         /\ forall found key,
                             getPrimaryKey keys = Some found ->
                             privateKey found = Some key ->
                             isDecrypted key = false)
                        \/ (exists found key,
                               getPrimaryKey keys = Some found
                               /\ privateKey found = Some key
                               /\ isDecrypted key = true
                               /\ run primary
                                  = (Returned
                                       {| primaryPrivateKey := key;
                                          primaryPublicKey := publicKey found;
                                          primaryAddress := active |},
                                     [GetAddresses;
                                      GetAddressKeys (addressID active)])))))).
Proof.
  run_primary.
  destruct (getAddresses services) as [addresses|e]; cbn;
    [|left; exists e; now split].
  right. destruct (getActiveAddresses addresses) as [|active rest] eqn:Ha; cbn.
  { left. exists addresses. split; [reflexivity|]. split; [exact Ha | reflexivity]. }
  right. exists addresses, active, rest. split; [reflexivity|].
  split; [exact Ha|].
  destruct (getAddressKeys services (addressID active)) as [keys|e]; cbn;
    [|left; exists e; now split].
  right. exists keys. split; [reflexivity|].
  destruct (getPrimaryKey keys) as [found|] eqn:Hf; cbn.
  - destruct (privateKey found) as [key|] eqn:Hk; cbn.
    + destruct (isDecrypted key) eqn:Hd; cbn.
      * right. exists found, key. repeat split; assumption.
      * left. split; [reflexivity|]. intros f k [= <-] Hk'.
        rewrite Hk in Hk'. injection Hk' as <-. exact Hd.
    + left. split; [reflexivity|]. intros f k [= <-] Hk'. congruence.
  - left. split; [reflexivity|]. intros f k [=].
Qed.

(** X21: when [getPrimaryAddressKey] returns, the private key it returns is
    decrypted, the address is the first active address of the user, the
    keys are the primary key found among the keys of that address, and the
    calls made are the request for the addresses and the one for the keys of
    that address, in this order. *)
Theorem getPrimaryAddressKey_returns_decrypted_key
        (result : PrimaryAddressKey (Address := Address)
                                    (OpenPGPKey := OpenPGPKey))
        (calls : list Call) :
  run primary = (Returned result, calls) ->
  isDecrypted (primaryPrivateKey result) = true
  /\ (exists addresses,
         getAddresses services = Returned addresses
         /\ hd_error (getActiveAddresses addresses)
            = Some (primaryAddress result))
  /\ (exists keys found,
         getAddressKeys services (addressID (primaryAddress result))
         = Returned keys
         /\ getPrimaryKey keys = Some found
         /\ privateKey found = Some (primaryPrivateKey result)
         /\ publicKey found = primaryPublicKey result)
  /\ calls = [GetAddresses; GetAddressKeys (addressID (primaryAddress result))].
Proof.
  intros Hrun.
  destruct getPrimaryAddressKey_cases
    as [(e & _ & H)|[(a & _ & _ & H)|(a & active & rest & Ha & Hact & H)]];
    fold primary in H; try (rewrite H in Hrun; discriminate Hrun).
  destruct H as [(e & _ & H)|(keys & Hk & [(H & _)|(found & key & Hf & Hp & Hd & H)])];
    rewrite H in Hrun; try discriminate Hrun.
  injection Hrun as <- <-. cbn.
  split; [exact Hd|]. split; [exists a; rewrite Hact; now split|].
  split; [exists keys, found; now repeat split | reflexivity].
Qed.

(** X22: [getPrimaryAddressKey] shows a notification exactly when the
    addresses were fetched and none of them is active; it then throws the
    error "User has no active address" without asking for any keys.  A
    primary key that is missing or not decrypted is thrown without a
    notification. *)
Theorem getPrimaryAddressKey_notifies_without_active_address :
  (existsb isNotification (snd (run primary)) = true
   <-> exists addresses,
       getAddresses services = Returned addresses
       /\ getActiveAddresses addresses = [])
  /\ (existsb isNotification (snd (run primary)) = true ->
      run primary
      = (Thrown (Error "User has no active address"),
         [GetAddresses;
          CreateNotification "No valid address found" errorNotification])).
Proof.
  destruct getPrimaryAddressKey_cases
    as [(e & He & H)|[(a & Ha & Hact & H)|(a & active & rest & Ha & Hact & H)]];
    fold primary in H.
  - rewrite H. cbn. split; [|discriminate]. split; [discriminate|].
    intros (addresses & Hx & _). congruence.
  - rewrite H. cbn. split; [|reflexivity]. split; [|reflexivity].
    intros _. exists a. now split.
  - assert (Hn : existsb isNotification (snd (run primary)) = false).
    { destruct H as [(e & _ & H)|(keys & Hk & [(H & _)|(found & key & _ & _ & _ & H)])];
        rewrite H; reflexivity. }
    rewrite Hn. split; [|discriminate]. split; [discriminate|].
    intros (addresses & Hx & Hy). rewrite Ha in Hx. injection Hx as <-.
    rewrite Hact in Hy. discriminate.
Qed.

(** X23: [sign] with keys given signs with the given private key and makes
    no other call (the given key is not checked).  Without keys, whatever
    it signs is signed with a single key that is decrypted; and when the
    lookup of the primary key throws, the same error is thrown and nothing
    is signed. *)
Theorem sign_uses_given_or_decrypted_key
        (payload : string)
        (given : SigningKeys (Address := Address) (OpenPGPKey := OpenPGPKey)) :
  let signWith :=
    sign addressID getActiveAddresses isDecrypted getPrimaryKey services
         payload in
  run (signWith (Some given))
  = (ImportMail.mapCompletion
       (fun made => {| signature := made; address := signingAddress given |})
       (signMessage services payload [signingKey given]),
     [SignMessage payload [signingKey given]])
  /\ (forall p keys,
        In (SignMessage p keys) (snd (run (signWith None))) ->
        p = payload
        /\ exists key, keys = [key] /\ isDecrypted key = true)
  /\ (forall e calls,
        run primary = (Thrown e, calls) ->
        run (signWith None) = (Thrown e, calls)).
Proof.
  cbv zeta. split; [|split].
  - unfold run, sign, bind, await, ret. cbn.
    destruct (signMessage services payload [signingKey given]); reflexivity.
  - intros p keys Hin.
    unfold run, sign, bind in Hin.
    fold primary in Hin.
    destruct getPrimaryAddressKey_cases
      as [(e & _ & H)|[(a & _ & _ & H)|(a & active & rest & _ & _ & H)]];
      fold primary in H; unfold run in H.
    + rewrite H in Hin. cbn in Hin. intuition discriminate.
    + rewrite H in Hin. cbn in Hin. intuition discriminate.
    + destruct H as [(e & _ & H)|(ks & _ & [(H & _)|(found & key & _ & _ & Hd & H)])];
        rewrite H in Hin; cbn in Hin; try (intuition discriminate).
      unfold await, ret in Hin. cbn in Hin.
      destruct (signMessage services payload [key]); cbn in Hin;
        destruct Hin as [Hin|[Hin|[Hin|[]]]]; try discriminate Hin;
        injection Hin as <- <-; (split; [reflexivity|]); exists key; now split.
  - intros e calls Hp. unfold run, sign, bind in *. fold primary.
    rewrite Hp. reflexivity.
Qed.
End Facts.

Lemma getPrimaryAddressKey_returns_decrypted_key_witness :
  Z.odd 3 = true.
Proof.
  apply (proj1 (getPrimaryAddressKey_returns_decrypted_key
                  (fun a : string => a) sampleActive Z.odd samplePrimary
                  sampleServices
                  {| primaryPrivateKey := 3;
                     primaryPublicKey := Some 4;
                     primaryAddress := "user@example.org" |}
                  [GetAddresses; GetAddressKeys "user@example.org"]
                  eq_refl)).
Defined.
End DriveCryptoFacts.

(** ** Proofs for the event import button *)

Module EventImportFacts.
Import JS Async EventImport EventImportSpec.

Section Facts.
Context {VEvent CalendarEvent CalendarSettings ImportError UpdateAction
         Others Rejection : Type}.
Context (getEventWithCalendarAlarms : VEvent -> CalendarSettings -> VEvent).
Context (NONE : UpdateAction).
Context (addEvents :
           list VEvent -> string ->
           Completion Rejection
                      (AddEventsResult (CalendarEvent := CalendarEvent)
                                       (VEvent := VEvent)
                                       (ImportError := ImportError))).
Context (calendarInView : bool).
Context (firstModel model :
           InvitationModel (VEvent := VEvent) (CalendarEvent := CalendarEvent)
                           (CalendarSettings := CalendarSettings)
                           (UpdateAction := UpdateAction) (Others := Others)).

Let add :=
  run (handleAdd getEventWithCalendarAlarms NONE addEvents calendarInView
                 firstModel model).
Let saved := veventToSave getEventWithCalendarAlarms model.

Ltac run_add :=
  unfold add, saved, run, handleAdd, handleSuccess, handleError, tryCatch,
    bind, await, emit, ret, usableCalendar;
  cbn [fst snd].

(** X24: without a calendar to add to (no calendar data, no calendar, or
    a disabled calendar) [handleAdd] does nothing at all; with one, it
    sends exactly one request, first of all, for the single event to save
    to that calendar. *)
Theorem handleAdd_needs_usable_calendar :
  (usableCalendar model = None -> add = (Returned tt, []))
  /\ (forall cal,
        usableCalendar model = Some cal ->
        exists rest, snd add = AddEvents [saved] (ID cal) :: rest
                     /\ count isAddEvents (snd add) = 1%nat).
Proof.
  run_add.
  destruct (calendarData model) as [[[cal|] [] settings]|]; cbn;
    split; intros; try discriminate; try reflexivity.
  all: match goal with H : Some _ = Some _ |- _ => injection H as <- end.
  all: destruct (addEvents _ _) as [[imported errors]|e]; cbn;
    [destruct imported, errors, calendarInView; cbn|];
    eexists; split; reflexivity.
Qed.

(** X25: with a usable calendar [handleAdd] never rejects.  If the request
    is rejected it shows one error notification and nothing else.  If it is
    answered, it shows the success notification and sets the model once
    exactly when at least one event was imported, shows the error
    notification once exactly when there is at least one import error (so
    both notifications on a partial success), and tells the calendar iframe
    exactly when an event was imported and the calendar is in view. *)
Theorem handleAdd_reports_what_happened (cal : Calendar) :
  usableCalendar model = Some cal ->
  fst add = Returned tt
  /\ (forall e,
        addEvents [saved] (ID cal) = Thrown e ->
        snd add
        = [AddEvents [saved] (ID cal);
           CreateNotification errorNotification
                              "Creating calendar event failed"])
  /\ (forall result,
        addEvents [saved] (ID cal) = Returned result ->
        count (isNotificationOf successNotification) (snd add)
        = (if isNonEmpty (importedEvents result) then 1 else 0)%nat
        /\ count (isNotificationOf errorNotification) (snd add)
           = (if isNonEmpty (importErrors result) then 1 else 0)%nat
        /\ count isPostMessage (snd add)
           = (if isNonEmpty (importedEvents result) && calendarInView
              then 1 else 0)%nat
        /\ List.length (modelsSet (snd add))
           = (if isNonEmpty (importedEvents result) then 1 else 0)%nat).
Proof.
  run_add.
  destruct (calendarData model) as [[[c|] [] settings]|]; cbn;
    intros H; try discriminate H. injection H as <-.
  destruct (addEvents _ _) as [[imported errors]|e]; cbn.
  - destruct imported, errors, calendarInView; cbn;
      (split; [reflexivity|]); (split; [intros e [=]|]);
      intros r [= <-]; cbn; repeat split.
  - split; [reflexivity|]. split; [|intros r [=]].
    intros e0 [= <-]. reflexivity.
Qed.

(** X26: after a successful import the model that is set has no [error],
    holds the first imported event and its component as [invitationApi],
    hides the summary, shows the link and has the update action [NONE];
    everything else is taken from the model of the first render, not from
    the current one. *)
Theorem handleAdd_success_model
        (cal : Calendar)
        (first : ImportedEvent (CalendarEvent := CalendarEvent)
                               (VEvent := VEvent))
        (more : list ImportedEvent) (errors : list ImportError) :
  usableCalendar model = Some cal ->
  addEvents [saved] (ID cal)
  = Returned {| importedEvents := first :: more; importErrors := errors |} ->
  exists m,
    modelsSet (snd add) = [m]
    /\ error m = None
    /\ invitationApi m
       = Some {| apiVevent := component first;
                 calendarEvent := responseEvent first |}
    /\ hideSummary m = true /\ hideLink m = false /\ updateAction m = NONE
    /\ calendarData m = calendarData firstModel
    /\ invitationIcsVevent m = invitationIcsVevent firstModel
    /\ others m = others firstModel.
Proof.
  run_add.
  destruct (calendarData model) as [[[c|] [] settings]|]; cbn;
    intros H; try discriminate H. injection H as <-.
  intros ->. cbn.
  destruct calendarInView, errors; cbn; eexists; repeat split.
Qed.
End Facts.

Lemma handleAdd_reports_what_happened_witness :
  fst (run (handleAdd sampleAlarms false sampleAddEvents true
                      sampleInvitation sampleInvitation))
  = Returned tt.
Proof.
  apply (proj1 (handleAdd_reports_what_happened
                  sampleAlarms false sampleAddEvents true sampleInvitation
                  sampleInvitation {| ID := "calendar-1" |} eq_refl)).
Defined.

Lemma handleAdd_success_model_witness :
  exists m,
    modelsSet (snd (run (handleAdd sampleAlarms false sampleAddEvents true
                                   sampleInvitation sampleInvitation)))
    = [m]
    /\ error m = None.
Proof.
  destruct (handleAdd_success_model
              sampleAlarms false sampleAddEvents true sampleInvitation
              sampleInvitation {| ID := "calendar-1" |}
              {| responseEvent := "calendar-1/party with alarm";
                 component := "party with alarm" |}
              [] [] eq_refl eq_refl)
    as (m & Hm & He & _).
  exists m. split; [exact Hm | exact He].
Defined.
End EventImportFacts.
